(** * Address book (main.py): value fields, records, the book and its
      birthday query, embedded in Rocq.

    The Python classes of [main.py] are translated method by method.
    A Python [str] is a sequence of Unicode code points, an [int] is a [Z],
    an exception is a value of [exn], a method that can raise returns in
    the error monad [E], and a method that mutates [self] is a function in
    the state-and-error monad [M], which keeps the state reached when the
    exception was raised.  The parts of the Python runtime the program
    relies on ([str.isdigit], [int], [datetime], [datetime.strptime]) are
    modelled after CPython 3.11. *)

From Stdlib Require Import ZArith NArith List Bool Lia String Ascii DecimalString.
Import ListNotations.
Local Open Scope Z_scope.

(* ================================================================== *)
(** ** Python strings *)
(* ================================================================== *)

Module PyStr.

(** A code point, and a [str] as the list of its code points: [len] is
    the number of code points, as in Python 3. *)
Definition char := N.
Definition str := list char.

(** ASCII literals of the source are written [lit "..."]. *)
Fixpoint lit (s : string) : str :=
  match s with
  | EmptyString => []
  | String a s' => N_of_ascii a :: lit s'
  end.

Definition chr (s : string) : char :=
  match s with
  | String a _ => N_of_ascii a
  | EmptyString => 0%N
  end.

Definition len (s : str) : Z := Z.of_nat (List.length s).

(** [a == b] on strings. *)
Fixpoint str_eqb (a b : str) : bool :=
  match a, b with
  | [], [] => true
  | x :: a', y :: b' => N.eqb x y && str_eqb a' b'
  | _, _ => false
  end.

(** Truth value of a string: non-empty. *)
Definition str_bool (s : str) : bool :=
  match s with [] => false | _ => true end.

(** [sep.join(parts)]. *)
Fixpoint join (sep : str) (parts : list str) : str :=
  match parts with
  | [] => []
  | [p] => p
  | p :: rest => p ++ sep ++ join sep rest
  end.

Definition in_range (lo hi c : char) : bool :=
  (N.leb lo c && N.leb c hi)%bool.

(** The code points of Unicode general category Nd (decimal digits), as
    blocks [(first, last)]; every block is a whole number of runs
    0..9 (Unicode 14.0, the database of CPython 3.11). *)
Definition decimal_blocks : list (char * char) :=
  [ (0x30, 0x39); (0x660, 0x669); (0x6f0, 0x6f9); (0x7c0, 0x7c9);
    (0x966, 0x96f); (0x9e6, 0x9ef); (0xa66, 0xa6f); (0xae6, 0xaef);
    (0xb66, 0xb6f); (0xbe6, 0xbef); (0xc66, 0xc6f); (0xce6, 0xcef);
    (0xd66, 0xd6f); (0xde6, 0xdef); (0xe50, 0xe59); (0xed0, 0xed9);
    (0xf20, 0xf29); (0x1040, 0x1049); (0x1090, 0x1099); (0x17e0, 0x17e9);
    (0x1810, 0x1819); (0x1946, 0x194f); (0x19d0, 0x19d9); (0x1a80, 0x1a89);
    (0x1a90, 0x1a99); (0x1b50, 0x1b59); (0x1bb0, 0x1bb9); (0x1c40, 0x1c49);
    (0x1c50, 0x1c59); (0xa620, 0xa629); (0xa8d0, 0xa8d9); (0xa900, 0xa909);
    (0xa9d0, 0xa9d9); (0xa9f0, 0xa9f9); (0xaa50, 0xaa59); (0xabf0, 0xabf9);
    (0xff10, 0xff19); (0x104a0, 0x104a9); (0x10d30, 0x10d39);
    (0x11066, 0x1106f); (0x110f0, 0x110f9); (0x11136, 0x1113f);
    (0x111d0, 0x111d9); (0x112f0, 0x112f9); (0x11450, 0x11459);
    (0x114d0, 0x114d9); (0x11650, 0x11659); (0x116c0, 0x116c9);
    (0x11730, 0x11739); (0x118e0, 0x118e9); (0x11950, 0x11959);
    (0x11c50, 0x11c59); (0x11d50, 0x11d59); (0x11da0, 0x11da9);
    (0x16a60, 0x16a69); (0x16ac0, 0x16ac9); (0x16b50, 0x16b59);
    (0x1d7ce, 0x1d7ff); (0x1e140, 0x1e149); (0x1e2f0, 0x1e2f9);
    (0x1e950, 0x1e959); (0x1fbf0, 0x1fbf9) ]%N.

(** The code points with Numeric_Type=Digit that are not decimal
    (superscripts, subscripts, circled digits and the like). *)
Definition other_digit_blocks : list (char * char) :=
  [ (0xb2, 0xb3); (0xb9, 0xb9); (0x1369, 0x1371); (0x19da, 0x19da);
    (0x2070, 0x2070); (0x2074, 0x2079); (0x2080, 0x2089); (0x2460, 0x2468);
    (0x2474, 0x247c); (0x2488, 0x2490); (0x24ea, 0x24ea); (0x24f5, 0x24fd);
    (0x24ff, 0x24ff); (0x2776, 0x277e); (0x2780, 0x2788); (0x278a, 0x2792);
    (0x10a40, 0x10a43); (0x10e60, 0x10e68); (0x11052, 0x1105a);
    (0x1f100, 0x1f10a) ]%N.

Definition in_blocks (blocks : list (char * char)) (c : char) : bool :=
  existsb (fun b => in_range (fst b) (snd b) c) blocks.

(** [c.isdecimal()] for one character; this is also what [\d] matches in
    a [str] pattern of the [re] module. *)
Definition char_isdecimal (c : char) : bool := in_blocks decimal_blocks c.

(** [c.isdigit()] for one character. *)
Definition char_isdigit (c : char) : bool :=
  (char_isdecimal c || in_blocks other_digit_blocks c)%bool.

(** [s.isdigit()]: every character is a digit and there is at least
    one. *)
Definition isdigit (s : str) : bool :=
  (str_bool s && forallb char_isdigit s)%bool.

(** The ten ASCII digits. *)
Definition is_ascii_digit (c : char) : bool := in_range 48%N 57%N c.

(** The value of a decimal digit: its offset in its run of ten. *)
Fixpoint block_value (blocks : list (char * char)) (c : char) : option Z :=
  match blocks with
  | [] => None
  | (lo, hi) :: rest =>
      if in_range lo hi c then Some (Z.of_N ((c - lo) mod 10))
      else block_value rest c
  end.

Definition decimal_value (c : char) : option Z :=
  block_value decimal_blocks c.

(** [str(n)] for a digit [0 <= n <= 9]. *)
Definition digit_char (n : Z) : char := (48 + Z.to_N n)%N.

(** [n] written with exactly [w] decimal digits, zero padded. *)
Fixpoint zpad (w : nat) (n : Z) : str :=
  match w with
  | O => []
  | S w' => zpad w' (n / 10) ++ [digit_char (n mod 10)]
  end.

End PyStr.
Export PyStr.

(* ================================================================== *)
(** ** Exceptions, the error monad and the state-and-error monad *)
(* ================================================================== *)

(** The two exception classes the program can meet, with their message. *)
Inductive exn : Type :=
| ValueError (msg : str)
| OverflowError (msg : str).

(** A computation that returns or raises. *)
Definition E (A : Type) : Type := (exn + A)%type.

Definition ret {A} (a : A) : E A := inr a.
Definition raise {A} (e : exn) : E A := inl e.
Definition bind {A B} (c : E A) (k : A -> E B) : E B :=
  match c with
  | inl e => inl e
  | inr a => k a
  end.

Declare Scope err_scope.
Delimit Scope err_scope with err.
Notation "x <- c ;; k" := (bind c (fun x => k))
  (at level 61, c at next level, right associativity) : err_scope.

(** A method on a mutable object of type [S]: from the object before the
    call to the outcome and the object after it.  When the method raises,
    the second component is the object as the exception left it. *)
Definition M (S A : Type) : Type := S -> E A * S.

Definition mret {S A} (a : A) : M S A := fun s => (inr a, s).
Definition mraise {S A} (e : exn) : M S A := fun s => (inl e, s).
Definition mbind {S A B} (c : M S A) (k : A -> M S B) : M S B :=
  fun s =>
    match c s with
    | (inl e, s') => (inl e, s')
    | (inr a, s') => k a s'
    end.
Definition mget {S} : M S S := fun s => (inr s, s).
Definition mput {S} (s' : S) : M S unit := fun _ => (inr tt, s').
Definition mlift {S A} (c : E A) : M S A := fun s => (c, s).

Declare Scope meth_scope.
Delimit Scope meth_scope with meth.
Notation "x <- c ;; k" := (mbind c (fun x => k))
  (at level 61, c at next level, right associativity) : meth_scope.
Notation "c ;; k" := (mbind c (fun _ => k))
  (at level 61, right associativity) : meth_scope.

(** [str(n)] for an integer. *)
Definition str_of_int (n : Z) : str :=
  lit (NilEmpty.string_of_int (Z.to_int n)).

(* ================================================================== *)
(** ** The datetime module *)
(* ================================================================== *)

Module Datetime.

Definition MINYEAR : Z := 1.
Definition MAXYEAR : Z := 9999.

(** A naive [datetime] object. *)
Record datetime : Type := mkdatetime {
  year : Z; month : Z; day : Z;
  hour : Z; minute : Z; second : Z; microsecond : Z
}.

Definition is_leap (y : Z) : bool :=
  ((y mod 4 =? 0) && (negb (y mod 100 =? 0) || (y mod 400 =? 0)))%bool.

Definition DAYS_IN_MONTH (m : Z) : Z :=
  match m with
  | 1 => 31 | 2 => 28 | 3 => 31 | 4 => 30 | 5 => 31 | 6 => 30
  | 7 => 31 | 8 => 31 | 9 => 30 | 10 => 31 | 11 => 30 | 12 => 31
  | _ => -1
  end.

Definition DAYS_BEFORE_MONTH (m : Z) : Z :=
  match m with
  | 1 => 0 | 2 => 31 | 3 => 59 | 4 => 90 | 5 => 120 | 6 => 151
  | 7 => 181 | 8 => 212 | 9 => 243 | 10 => 273 | 11 => 304 | 12 => 334
  | _ => -1
  end.

Definition days_before_year (y : Z) : Z :=
  let y1 := y - 1 in y1 * 365 + y1 / 4 - y1 / 100 + y1 / 400.

Definition days_in_month (y m : Z) : Z :=
  if ((m =? 2) && is_leap y)%bool then 29 else DAYS_IN_MONTH m.

Definition days_before_month (y m : Z) : Z :=
  DAYS_BEFORE_MONTH m + (if ((2 <? m) && is_leap y)%bool then 1 else 0).

Definition ymd2ord (y m d : Z) : Z :=
  days_before_year y + days_before_month y m + d.

(** The ordinal of 31.12.9999. *)
Definition MAXORDINAL : Z := 3652059.

(** The range checks every constructor of a date runs. *)
Definition check_date_fields (y m d : Z) : E unit :=
  if negb ((MINYEAR <=? y) && (y <=? MAXYEAR))%bool then
    raise (ValueError (lit "year " ++ str_of_int y ++ lit " is out of range"))
  else if negb ((1 <=? m) && (m <=? 12))%bool then
    raise (ValueError (lit "month must be in 1..12"))
  else if negb ((1 <=? d) && (d <=? days_in_month y m))%bool then
    raise (ValueError (lit "day is out of range for month"))
  else ret tt.

(** [dt.replace(year=y)]: a new object is built, so the date is checked
    again. *)
Definition replace_year (dt : datetime) (y : Z) : E datetime :=
  (_ <- check_date_fields y (month dt) (day dt);;
   ret (mkdatetime y (month dt) (day dt)
          (hour dt) (minute dt) (second dt) (microsecond dt)))%err.

Definition toordinal (dt : datetime) : Z :=
  ymd2ord (year dt) (month dt) (day dt).

(** [dt.weekday()]: Monday is 0, Saturday 5, Sunday 6. *)
Definition weekday (dt : datetime) : Z := (toordinal dt + 6) mod 7.

(** Comparison of two naive datetimes: their field tuples, in
    lexicographic order. *)
Definition fields (dt : datetime) : list Z :=
  [year dt; month dt; day dt; hour dt; minute dt; second dt; microsecond dt].

Fixpoint tuple_ltb (a b : list Z) : bool :=
  match a, b with
  | x :: a', y :: b' =>
      if x <? y then true else if y <? x then false else tuple_ltb a' b'
  | [], _ :: _ => true
  | _, _ => false
  end.

Definition datetime_ltb (a b : datetime) : bool :=
  tuple_ltb (fields a) (fields b).

(** A [timedelta], normalised by its constructor:
    [0 <= seconds < 86400] and [0 <= microseconds < 1000000]. *)
Record timedelta : Type := mktimedelta {
  days : Z; seconds : Z; microseconds : Z
}.

Definition timedelta_new (d s us : Z) : timedelta :=
  let s1 := s + us / 1000000 in
  mktimedelta (d + s1 / 86400) (s1 mod 86400) (us mod 1000000).

(** [a - b] on naive datetimes. *)
Definition datetime_sub (a b : datetime) : timedelta :=
  let secs1 := second a + minute a * 60 + hour a * 3600 in
  let secs2 := second b + minute b * 60 + hour b * 3600 in
  timedelta_new (toordinal a - toordinal b) (secs1 - secs2)
                (microsecond a - microsecond b).

(** The day after, on the calendar fields. *)
Definition next_day (dt : datetime) : datetime :=
  if day dt <? days_in_month (year dt) (month dt) then
    mkdatetime (year dt) (month dt) (day dt + 1)
      (hour dt) (minute dt) (second dt) (microsecond dt)
  else if month dt <? 12 then
    mkdatetime (year dt) (month dt + 1) 1
      (hour dt) (minute dt) (second dt) (microsecond dt)
  else
    mkdatetime (year dt + 1) 1 1
      (hour dt) (minute dt) (second dt) (microsecond dt).

Fixpoint next_days (n : nat) (dt : datetime) : datetime :=
  match n with
  | O => dt
  | S k => next_days k (next_day dt)
  end.

(** [dt + timedelta(days=n)] for [n >= 0]: the date [n] days later with
    the time of day unchanged; past 31.12.9999 it raises. *)
Definition datetime_add_days (dt : datetime) (n : nat) : E datetime :=
  let r := next_days n dt in
  if year r <=? MAXYEAR then ret r
  else raise (OverflowError (lit "date value out of range")).

(** [dt.strftime("%d.%m.%Y")]: day and month on two digits, the year on
    four (the documented form; a C library may drop the padding of a
    year below 1000). *)
Definition strftime_dmY (dt : datetime) : str :=
  zpad 2 (day dt) ++ lit "." ++ zpad 2 (month dt) ++ lit "." ++
  zpad 4 (year dt).

(** The objects the constructors accept. *)
Definition date_ok (y m d : Z) : bool :=
  ((MINYEAR <=? y) && (y <=? MAXYEAR) && (1 <=? m) && (m <=? 12) &&
   (1 <=? d) && (d <=? days_in_month y m))%bool.

Definition datetime_ok (dt : datetime) : bool :=
  (date_ok (year dt) (month dt) (day dt) &&
   (0 <=? hour dt) && (hour dt <? 24) &&
   (0 <=? minute dt) && (minute dt <? 60) &&
   (0 <=? second dt) && (second dt <? 60) &&
   (0 <=? microsecond dt) && (microsecond dt <? 1000000))%bool.

End Datetime.
Export Datetime.

(* ================================================================== *)
(** ** Regular expressions and datetime.strptime *)
(* ================================================================== *)

Module Re.

(** The fragment of [re] syntax the format needs: a literal character,
    a class [[lo-hi]], the class [\d], sequence and alternation. *)
Inductive regex : Type :=
| Chr (c : char)
| Rng (lo hi : char)
| Dec
| Seq (r1 r2 : regex)
| Alt (r1 r2 : regex).

Definition one (ok : char -> bool) (s : str) : list (str * str) :=
  match s with
  | c :: s' => if ok c then [([c], s')] else []
  | [] => []
  end.

(** All the ways [r] matches a prefix of [s], as (prefix, remainder), in
    the order a backtracking matcher tries them: the left alternative
    first, and for a sequence the choices of the first part outermost. *)
Fixpoint rmatch (r : regex) (s : str) : list (str * str) :=
  match r with
  | Chr c => one (N.eqb c) s
  | Rng lo hi => one (in_range lo hi) s
  | Dec => one char_isdecimal s
  | Seq r1 r2 =>
      flat_map (fun m1 =>
        map (fun m2 => (fst m1 ++ fst m2, snd m2)) (rmatch r2 (snd m1)))
        (rmatch r1 s)
  | Alt r1 r2 => rmatch r1 s ++ rmatch r2 s
  end.

Definition c0 : char := chr "0".
Definition c1 : char := chr "1".
Definition c2 : char := chr "2".
Definition c3 : char := chr "3".
Definition c9 : char := chr "9".

(** [%d]: 3[0-1]|[1-2]\d|0[1-9]|[1-9]| [1-9] *)
Definition re_d : regex :=
  Alt (Seq (Chr c3) (Rng c0 c1))
 (Alt (Seq (Rng c1 c2) Dec)
 (Alt (Seq (Chr c0) (Rng c1 c9))
 (Alt (Rng c1 c9)
      (Seq (Chr (chr " ")) (Rng c1 c9))))).

(** [%m]: 1[0-2]|0[1-9]|[1-9] *)
Definition re_m : regex :=
  Alt (Seq (Chr c1) (Rng c0 c2))
 (Alt (Seq (Chr c0) (Rng c1 c9))
      (Rng c1 c9)).

(** [%Y]: \d\d\d\d *)
Definition re_Y : regex := Seq Dec (Seq Dec (Seq Dec Dec)).

Definition re_dot : regex := Chr (chr ".").

(** A match of the format ["%d.%m.%Y"]: the three groups and what is
    left of the string after the match. *)
Record found : Type := mkfound {
  g_d : str; g_m : str; g_Y : str; rest : str
}.

(** The matches of [(?P<d>..)\.(?P<m>..)\.(?P<Y>..)] at the start of
    [s], in backtracking order; [re.match] returns the first.  (The
    pattern is compiled with [IGNORECASE], which changes nothing for
    digits, the dot and the blank.) *)
Definition format_matches (s : str) : list found :=
  flat_map (fun md =>
  flat_map (fun p1 =>
  flat_map (fun mm =>
  flat_map (fun p2 =>
  map (fun mY => mkfound (fst md) (fst mm) (fst mY) (snd mY))
      (rmatch re_Y (snd p2)))
      (rmatch re_dot (snd mm)))
      (rmatch re_m (snd p1)))
      (rmatch re_dot (snd md)))
      (rmatch re_d s).

End Re.
Export Re.

(** [int(s)] for a text made of optional leading blanks and decimal
    digits, the only texts the groups of the format can hold. *)
Definition is_blank (c : char) : bool :=
  (N.eqb c 32%N || in_range 9%N 13%N c)%bool.

Fixpoint lstrip (s : str) : str :=
  match s with
  | c :: s' => if is_blank c then lstrip s' else s
  | [] => []
  end.

Fixpoint digits_value (acc : Z) (s : str) : option Z :=
  match s with
  | [] => Some acc
  | c :: s' =>
      match decimal_value c with
      | Some v => digits_value (10 * acc + v) s'
      | None => None
      end
  end.

Definition py_int (s : str) : E Z :=
  match lstrip s with
  | [] => raise (ValueError (lit "invalid literal for int() with base 10"))
  | t =>
      match digits_value 0 t with
      | Some v => ret v
      | None => raise (ValueError (lit "invalid literal for int() with base 10"))
      end
  end.

(** [datetime.strptime(data_string, "%d.%m.%Y")].  The text of the two
    messages of a failed match is shortened: the program never reads it. *)
Definition strptime_dmY (data_string : str) : E datetime :=
  match format_matches data_string with
  | [] => raise (ValueError (lit "time data does not match format"))
  | f :: _ =>
      if str_bool (rest f) then
        raise (ValueError (lit "unconverted data remains: " ++ rest f))
      else
        (d <- py_int (g_d f);;
         m <- py_int (g_m f);;
         y <- py_int (g_Y f);;
         _ <- check_date_fields y m d;;
         ret (mkdatetime y m d 0 0 0 0))%err
  end.

(* ================================================================== *)
(** ** class Field and its subclasses Name, Birthday, Phone *)
(* ================================================================== *)

(** An instance of [Field] or of one of its subclasses: the attribute
    [value]. *)
Record Field (V : Type) : Type := mkField { value : V }.
Arguments mkField {V} _.
Arguments value {V} _.

Definition Name : Type := Field str.
Definition Phone : Type := Field str.
(** The value of a [Birthday] is [None] or a string. *)
Definition Birthday : Type := Field (option str).

(** Truth value of an optional string: [None] and the empty string are
    false. *)
Definition opt_str_bool (v : option str) : bool :=
  match v with
  | None => false
  | Some s => str_bool s
  end.

(** The string held by a value that is true. *)
Definition the_str (v : option str) : str :=
  match v with
  | Some s => s
  | None => []
  end.

(** [str(v)] as an f-string prints it. *)
Definition opt_str_format (v : option str) : str :=
  match v with
  | None => lit "None"
  | Some s => s
  end.

(** Truth value of an instance: neither [Field] nor a subclass defines
    [__bool__] or [__len__], so every instance is true. *)
Definition Field_bool {V} (f : Field V) : bool := true.

(** [Birthday.__init__] *)
Definition Birthday_init (v : option str) : E Birthday :=
  match v with
  | Some s =>
      if str_bool s then
        match strptime_dmY s with
        | inl (ValueError _) =>
            raise (ValueError (lit "Birthday must be in format DD.MM.YYYY"))
        | inl e => raise e
        | inr _ => ret (mkField v)
        end
      else ret (mkField v)
  | None => ret (mkField v)
  end.

(** [Birthday.__repr__] *)
Definition Birthday_repr (b : Birthday) : str :=
  if opt_str_bool (value b) then opt_str_format (value b)
  else lit "No birthday".

(** [Phone.__init__] on a [str] argument ([isinstance(number, str)]
    holds). *)
Definition Phone_init (number : str) : E Phone :=
  if (negb (isdigit number) || negb (len number =? 10))%bool then
    raise (ValueError (lit "The phone number must be a string of 10 digits"))
  else ret (mkField number).

(* ================================================================== *)
(** ** class Record *)
(* ================================================================== *)

Record RecordT : Type := mkRecord {
  name : Name;
  phones : list Phone;
  birthday : Birthday
}.

Definition set_phones (l : list Phone) (self : RecordT) : RecordT :=
  mkRecord (name self) l (birthday self).

Definition set_birthday (b : Birthday) (self : RecordT) : RecordT :=
  mkRecord (name self) (phones self) b.

(** [Record.__init__] *)
Definition Record_init (n : str) : E RecordT :=
  (b <- Birthday_init None;;
   ret (mkRecord (mkField n) [] b))%err.

(** [Record.add_phone] *)
Definition Record_add_phone (number : str) : M RecordT unit :=
  (phone <- mlift (Phone_init number);;
   self <- mget;;
   mput (set_phones (phones self ++ [phone]) self))%meth.

(** [Record.add_birthday] *)
Definition Record_add_birthday (v : option str) : M RecordT unit :=
  (b <- mlift (Birthday_init v);;
   self <- mget;;
   mput (set_birthday b self))%meth.

(** The loop of [remove_phone]: the list without the first phone whose
    value is [number], or [None] when there is none.  ([list.remove]
    takes out the first element equal to the phone found; phones compare
    by identity, so that is the phone found.) *)
Fixpoint remove_first (number : str) (l : list Phone) : option (list Phone) :=
  match l with
  | [] => None
  | phone :: l' =>
      if str_eqb (value phone) number then Some l'
      else option_map (cons phone) (remove_first number l')
  end.

(** [Record.remove_phone] *)
Definition Record_remove_phone (number : str) : M RecordT bool :=
  (self <- mget;;
   match remove_first number (phones self) with
   | Some l' => mput (set_phones l' self);; mret true
   | None => mret false
   end)%meth.

(** The loop of [find_phone]. *)
Fixpoint find_first (number : str) (l : list Phone) : option Phone :=
  match l with
  | [] => None
  | phone :: l' =>
      if str_eqb (value phone) number then Some phone
      else find_first number l'
  end.

(** [Record.find_phone] *)
Definition Record_find_phone (number : str) : M RecordT (option Phone) :=
  (self <- mget;; mret (find_first number (phones self)))%meth.

(** Truth value of what [find_phone] returns: a phone or [None]. *)
Definition opt_bool {V} (o : option (Field V)) : bool :=
  match o with
  | Some f => Field_bool f
  | None => false
  end.

(** [Record.edit_phone] *)
Definition Record_edit_phone (old_number new_number : str) : M RecordT bool :=
  (found_phone <- Record_find_phone old_number;;
   if opt_bool found_phone then
     Record_add_phone new_number;;
     Record_remove_phone old_number;;
     mret true
   else
     mraise (ValueError (lit "Old number " ++ old_number ++ lit " not found")))%meth.

(** [Record.__str__] *)
Definition Record_str (self : RecordT) : str :=
  let birthday_str :=
    if Field_bool (birthday self)
    then lit ", birthday: " ++ opt_str_format (value (birthday self))
    else [] in
  lit "Contact name: " ++ value (name self) ++ lit ", phones: " ++
  join (lit "; ") (map value (phones self)) ++ birthday_str.

(* ================================================================== *)
(** ** class AddressBook *)
(* ================================================================== *)

(** The [dict] behind the book: keys in insertion order, each at most
    once. *)
Module PyDict.

Definition dict (V : Type) : Type := list (str * V).

Fixpoint get {V} (k : str) (d : dict V) : option V :=
  match d with
  | [] => None
  | (k', v) :: d' => if str_eqb k' k then Some v else get k d'
  end.

Definition contains {V} (k : str) (d : dict V) : bool :=
  match get k d with Some _ => true | None => false end.

(** [d[k] = v]: the value is replaced in place, a new key goes last. *)
Fixpoint set {V} (k : str) (v : V) (d : dict V) : dict V :=
  match d with
  | [] => [(k, v)]
  | (k', v') :: d' =>
      if str_eqb k' k then (k', v) :: d' else (k', v') :: set k v d'
  end.

(** [del d[k]] for a key that is present. *)
Definition del {V} (k : str) (d : dict V) : dict V :=
  filter (fun kv => negb (str_eqb (fst kv) k)) d.

Definition values {V} (d : dict V) : list V := map snd d.
Definition keys {V} (d : dict V) : list str := map fst d.

End PyDict.

(** A [UserDict]: the attribute [data]. *)
Record AddressBook : Type := mkAddressBook {
  data : PyDict.dict RecordT
}.

(** [AddressBook.add_record] *)
Definition AddressBook_add_record (record : RecordT) : M AddressBook unit :=
  (self <- mget;;
   mput (mkAddressBook (PyDict.set (value (name record)) record (data self))))%meth.

(** [AddressBook.find] *)
Definition AddressBook_find (n : str) : M AddressBook (option RecordT) :=
  (self <- mget;; mret (PyDict.get n (data self)))%meth.

(** [AddressBook.delete] *)
Definition AddressBook_delete (n : str) : M AddressBook unit :=
  (self <- mget;;
   if PyDict.contains n (data self) then
     mput (mkAddressBook (PyDict.del n (data self)))
   else
     mraise (ValueError (lit "Record with name " ++ n ++ lit " not found.")))%meth.

(** One element of the list [get_upcoming_birthdays] returns: a dict with
    the keys ["name"] and ["birthday"]. *)
Record entry : Type := mkentry {
  entry_name : str;
  entry_birthday : str
}.

(** Line 99: the birthday moved to the current year. *)
Definition project (today birthday_date : datetime) : E datetime :=
  replace_year birthday_date (year today).

(** Lines 101-102: the move to next year. *)
Definition rollover (today this_year_birthday : datetime) : E datetime :=
  if datetime_ltb this_year_birthday today
  then replace_year this_year_birthday (year today + 1)
  else ret this_year_birthday.

(** Lines 104-107: the move off the weekend. *)
Definition weekend_shift (this_year_birthday : datetime) : E datetime :=
  if weekday this_year_birthday =? 5 then
    datetime_add_days this_year_birthday 2
  else if weekday this_year_birthday =? 6 then
    datetime_add_days this_year_birthday 1
  else ret this_year_birthday.

(** Line 108. *)
Definition days_until (today this_year_birthday : datetime) : Z :=
  days (datetime_sub this_year_birthday today).

(** The body of the loop of [get_upcoming_birthdays] and the loop itself:
    [today] is what [datetime.now()] returned, [upcoming_birthdays] the
    list built so far.  [continue] is the recursive call on the records
    left. *)
Fixpoint upcoming_loop (today : datetime) (records : list RecordT)
    (upcoming_birthdays : list entry) : E (list entry) :=
  match records with
  | [] => ret upcoming_birthdays
  | record :: records' =>
      if (Field_bool (birthday record) &&
          opt_str_bool (value (birthday record)))%bool then
        match strptime_dmY (the_str (value (birthday record))) with
        | inl (ValueError _) => upcoming_loop today records' upcoming_birthdays
        | inl e => raise e
        | inr birthday_date =>
            (this_year_birthday <- project today birthday_date;;
             this_year_birthday <- rollover today this_year_birthday;;
             this_year_birthday <- weekend_shift this_year_birthday;;
             let days_until_birthday := days_until today this_year_birthday in
             if ((0 <=? days_until_birthday) && (days_until_birthday <=? 7))%bool
             then
               upcoming_loop today records'
                 (upcoming_birthdays ++
                  [mkentry (value (name record))
                           (strftime_dmY this_year_birthday)])
             else upcoming_loop today records' upcoming_birthdays)%err
        end
      else upcoming_loop today records' upcoming_birthdays
  end.

(** [AddressBook.get_upcoming_birthdays], with the value of
    [datetime.now()] as an argument. *)
Definition AddressBook_get_upcoming_birthdays
    (self : AddressBook) (now : datetime) : E (list entry) :=
  let today := now in
  upcoming_loop today (PyDict.values (data self)) [].

(* ================================================================== *)
(** ** Notions used to state the properties *)
(* ================================================================== *)

(** Exactly ten ASCII decimal digits. *)
Definition ten_ascii_digits (raw : str) : bool :=
  ((len raw =? 10) && forallb is_ascii_digit raw)%bool.

(** Exactly ten characters, each a digit for [str.isdigit]. *)
Definition ten_unicode_digits (raw : str) : bool :=
  ((len raw =? 10) && forallb char_isdigit raw)%bool.

Definition dot : char := chr ".".

(** The number a text of decimal digits denotes; other characters are
    passed over. *)
Definition digit_step (acc : Z) (c : char) : Z :=
  match decimal_value c with
  | Some v => 10 * acc + v
  | None => acc
  end.

Definition number_of (s : str) : Z := fold_left digit_step s 0.

(** The strict shape DD.MM.YYYY: two ASCII digits, a dot, two ASCII
    digits, a dot, four ASCII digits. *)
Definition strict_dmY (s : str) : bool :=
  match s with
  | [d1; d2; p1; m1; m2; p2; y1; y2; y3; y4] =>
      (forallb is_ascii_digit [d1; d2; m1; m2; y1; y2; y3; y4] &&
       N.eqb p1 dot && N.eqb p2 dot)%bool
  | _ => false
  end.

Definition day_part (s : str) : str := firstn 2 s.
Definition month_part (s : str) : str := firstn 2 (skipn 3 s).
Definition year_part (s : str) : str := skipn 6 s.

(** A text of the strict shape that denotes a date of the calendar, year
    0001 to 9999. *)
Definition strict_valid (s : str) : bool :=
  (strict_dmY s &&
   date_ok (number_of (year_part s)) (number_of (month_part s))
           (number_of (day_part s)))%bool.

(** The day texts [%d] takes: one digit 1-9, alone or after a space or a
    zero; 1 or 2 and then any decimal digit; 3 and then 0 or 1. *)
Definition day_shape (d : str) : bool :=
  match d with
  | [a] => in_range c1 c9 a
  | [a; b] =>
      ((N.eqb c3 a && in_range c0 c1 b) ||
       (in_range c1 c2 a && char_isdecimal b) ||
       (N.eqb c0 a && in_range c1 c9 b) ||
       (N.eqb (chr " ") a && in_range c1 c9 b))%bool
  | _ => false
  end.

(** The month texts [%m] takes: 1-9, 01-09, 10-12. *)
Definition month_shape (m : str) : bool :=
  match m with
  | [a] => in_range c1 c9 a
  | [a; b] =>
      ((N.eqb c1 a && in_range c0 c2 b) ||
       (N.eqb c0 a && in_range c1 c9 b))%bool
  | _ => false
  end.

(** The year texts [%Y] takes: four decimal digits. *)
Definition year_shape (y : str) : bool :=
  match y with
  | [_; _; _; _] => forallb char_isdecimal y
  | _ => false
  end.

(** The texts [strptime] parses with ["%d.%m.%Y"]: day, dot, month, dot,
    year in the shapes above, denoting a date of the calendar. *)
Definition accepted_dmY (s : str) : Prop :=
  exists d m y,
    s = d ++ dot :: m ++ dot :: y /\
    day_shape d = true /\ month_shape m = true /\ year_shape y = true /\
    date_ok (number_of y) (number_of m) (number_of d) = true.

(** Lines 99-107 in one piece: the date the record is judged by. *)
Definition adjusted (today birthday_date : datetime) : E datetime :=
  (p <- project today birthday_date;;
   c <- rollover today p;;
   weekend_shift c)%err.

(** Line 110. *)
Definition in_window (today a : datetime) : bool :=
  ((0 <=? days_until today a) && (days_until today a <=? 7))%bool.

(** What the loop does with one record. *)
Inductive outcome : Type :=
| Skipped
| Raised (e : exn)
| Judged (a : datetime).

Definition examine (today : datetime) (record : RecordT) : outcome :=
  match value (birthday record) with
  | Some s =>
      if str_bool s then
        match strptime_dmY s with
        | inl (ValueError _) => Skipped
        | inl e => Raised e
        | inr birthday_date =>
            match adjusted today birthday_date with
            | inl e => Raised e
            | inr a => Judged a
            end
        end
      else Skipped
  | None => Skipped
  end.

(** The entries one record adds to the result. *)
Definition report (today : datetime) (record : RecordT) : list entry :=
  match examine today record with
  | Judged a =>
      if in_window today a
      then [mkentry (value (name record)) (strftime_dmY a)]
      else []
  | _ => []
  end.

(** What a regular expression denotes: the set of the texts it
    matches in full. *)
Fixpoint denotes (r : regex) (p : str) : Prop :=
  match r with
  | Chr c => p = [c]
  | Rng lo hi => exists x, p = [x] /\ in_range lo hi x = true
  | Dec => exists x, p = [x] /\ char_isdecimal x = true
  | Seq r1 r2 => exists p1 p2, p = p1 ++ p2 /\ denotes r1 p1 /\ denotes r2 p2
  | Alt r1 r2 => denotes r1 p \/ denotes r2 p
  end.

(** Month and day of a date of the calendar, and a time of day. *)
Definition md_ok (x : datetime) : Prop :=
  1 <= month x <= 12 /\ 1 <= day x <= days_in_month (year x) (month x).

Definition time_ok (x : datetime) : Prop :=
  0 <= hour x < 24 /\ 0 <= minute x < 60 /\ 0 <= second x < 60 /\
  0 <= microsecond x < 1000000.

Definition same_time (a b : datetime) : Prop :=
  hour a = hour b /\ minute a = minute b /\ second a = second b /\
  microsecond a = microsecond b.

(** The object [replace(year=y)] builds when it does not raise. *)
Definition with_year (x : datetime) (y : Z) : datetime :=
  mkdatetime y (month x) (day x) (hour x) (minute x) (second x) (microsecond x).

(** The number of days the weekend rule adds. *)
Definition shift_of (c : datetime) : Z :=
  if weekday c =? 5 then 2 else if weekday c =? 6 then 1 else 0.

(** The calendar day of a datetime, and midnight of that day. *)
Definition same_date (a b : datetime) : Prop :=
  year a = year b /\ month a = month b /\ day a = day b.

Definition at_midnight (a : datetime) : Prop :=
  hour a = 0 /\ minute a = 0 /\ second a = 0 /\ microsecond a = 0.

(** The messages of the two constructors. *)
Definition phone_msg : str :=
  lit "The phone number must be a string of 10 digits".
Definition birthday_msg : str := lit "Birthday must be in format DD.MM.YYYY".

(** The two messages a failed [replace] carries here. *)
Definition msg_day_out_of_range : str := lit "day is out of range for month".
Definition msg_year_10000 : str := lit "year 10000 is out of range".

(** Sample data. *)
Definition dt (y m d : Z) : datetime := mkdatetime y m d 0 0 0 0.

Definition record_of (n : str) (numbers : list str) (b : option str) : RecordT :=
  mkRecord (mkField n) (map mkField numbers) (mkField b).

Definition book_of (records : list RecordT) : AddressBook :=
  mkAddressBook (map (fun r => (value (name r), r)) records).

(** Monday 10.06.2024, half past two in the afternoon. *)
Definition monday_afternoon : datetime := mkdatetime 2024 6 10 14 30 0 0.

(** Ten times ARABIC-INDIC DIGIT ONE (U+0661). *)
Definition arabic_ones : str := repeat 0x661%N 10.

(* ================================================================== *)
(** ** AddressBook.__str__, the console view and the command loop *)
(* ================================================================== *)

(** Truth value of a dict: non-empty. *)
Definition dict_bool {V} (d : PyDict.dict V) : bool :=
  match d with [] => false | _ => true end.

Definition newline : str := [10%N].

(** [AddressBook.__str__] *)
Definition AddressBook_str (self : AddressBook) : str :=
  if negb (dict_bool (data self)) then lit "The address book is empty."
  else join newline (map Record_str (PyDict.values (data self))).

(** What the program does to the outside: a prompt written by [input], a
    line written by [print], the book written to the file by
    [save_data] (errors of the file system are left out). *)
Inductive event : Type :=
| Prompt (text : str)
| Print (line : str)
| Save (saved : AddressBook).

(** The state of [main]: the variable [book] and the events so far. *)
Record world : Type := mkworld {
  w_book : AddressBook;
  w_events : list event
}.

Definition emit (e : event) : M world unit :=
  fun w => (inr tt, mkworld (w_book w) (w_events w ++ [e])).

(** A method called on [book]. *)
Definition on_book {A} (c : M AddressBook A) : M world A :=
  fun w => let (r, b) := c (w_book w) in (r, mkworld b (w_events w)).

(** A method called on [record], the object the book holds under [key]:
    what the method does to the object shows in the book. *)
Definition on_record {A} (key : str) (record : RecordT) (c : M RecordT A)
    : M world A :=
  fun w =>
    let (r, record') := c record in
    (r, mkworld (mkAddressBook (PyDict.set key record' (data (w_book w))))
                (w_events w)).

(** [ConsoleView.show_message] *)
Definition ConsoleView_show_message (message : str) : M world unit :=
  emit (Print message).

(** [ConsoleView.get_input]: [answer] is the line the user types. *)
Definition ConsoleView_get_input (prompt answer : str) : M world str :=
  (emit (Prompt prompt);; mret answer)%meth.

(** The loop of [show_contacts]. *)
Fixpoint print_each (contacts : list RecordT) : M world unit :=
  match contacts with
  | [] => mret tt
  | contact :: contacts' =>
      (emit (Print (Record_str contact));; print_each contacts')%meth
  end.

(** [ConsoleView.show_contacts] *)
Definition ConsoleView_show_contacts (contacts : list RecordT) : M world unit :=
  match contacts with
  | [] => emit (Print (lit "The address book is empty."))
  | _ => print_each contacts
  end.

(** [save_data(book)] *)
Definition save_data : M world unit :=
  fun w => (inr tt, mkworld (w_book w) (w_events w ++ [Save (w_book w)])).

(** Truth value of a [Record]: the class defines neither [__bool__] nor
    [__len__]. *)
Definition Record_bool (r : RecordT) : bool := true.

(** [commands_list] of [main], in the order of the dict. *)
Definition commands_list : list (str * str) :=
  [ (lit "hello", lit "Greets the user.");
    (lit "add", lit "Add a new contact or phone number to an existing contact. Usage: add [name] [phone]");
    (lit "change", lit "Change an existing phone number for a contact. Usage: change [name] [old_phone] [new_phone]");
    (lit "phone", lit "Show phone numbers of a specific contact. Usage: phone [name]");
    (lit "all", lit "Display all contacts in the address book.");
    (lit "birthdays", lit "Show contacts with upcoming birthdays in the next 7 days.");
    (lit "add-birthday", lit "Add a birthday to a contact. Usage: add-birthday [name] [DD.MM.YYYY]");
    (lit "show-birthday", lit "Show the birthday of a specific contact. Usage: show-birthday [name]");
    (lit "commands", lit "Return all available commands.");
    (lit "close/exit", lit "Save the address book and exit the program.") ].

(** The loop over [commands_list.items()]. *)
Fixpoint show_commands (items : list (str * str)) : M world unit :=
  match items with
  | [] => mret tt
  | (command, description) :: items' =>
      (ConsoleView_show_message (lit "- " ++ command ++ lit ": " ++ description);;
       show_commands items')%meth
  end.

(** Lines 194-196 of [main]: a new record goes into the book. *)
Definition main_new_contact (name : str) : M world RecordT :=
  (record <- mlift (Record_init name);;
   on_book (AddressBook_add_record record);;
   ConsoleView_show_message (lit "Contact added.");;
   mret record)%meth.

(** The branch [add] of [main]: [name_answer] and [phone_answer] are the
    lines typed at the two prompts.  [record] is the object found in the
    book under [name], or the new object put there. *)
Definition main_add (name_answer phone_answer : str) : M world unit :=
  (name <- ConsoleView_get_input (lit "Enter name: ") name_answer;;
   phone <- ConsoleView_get_input (lit "Enter phone: ") phone_answer;;
   found <- on_book (AddressBook_find name);;
   record <-
     match found with
     | Some record =>
         if negb (Record_bool record) then main_new_contact name
         else mret record
     | None => main_new_contact name
     end;;
   on_record name record (Record_add_phone phone);;
   ConsoleView_show_message (lit "Phone added to the contact."))%meth.

(** How a turn of the loop ends: at the top of the loop again, or out of
    it. *)
Inductive control : Type := Continue | Break.

Fixpoint str_in (s : str) (l : list str) : bool :=
  match l with
  | [] => false
  | x :: l' => (str_eqb s x || str_in s l')%bool
  end.

(** One turn of the loop of [main].  [user_input] is the value of line
    182, the command line typed at the prompt after [.strip().lower()];
    [name_answer] and [phone_answer] are the lines the user types if the
    turn asks for them. *)
Definition main_turn (user_input name_answer phone_answer : str)
    : M world control :=
  (emit (Prompt (lit "Enter a command: "));;
   if str_in user_input [lit "close"; lit "exit"] then
     save_data;;
     ConsoleView_show_message (lit "Good bye!");;
     mret Break
   else if str_eqb user_input (lit "hello") then
     ConsoleView_show_message (lit "How can I help you?");;
     mret Continue
   else if str_eqb user_input (lit "add") then
     main_add name_answer phone_answer;;
     mret Continue
   else if str_eqb user_input (lit "all") then
     self <- mget;;
     ConsoleView_show_contacts (PyDict.values (data (w_book self)));;
     mret Continue
   else if str_eqb user_input (lit "commands") then
     ConsoleView_show_message (lit "Available commands:");;
     show_commands commands_list;;
     mret Continue
   else
     ConsoleView_show_message (lit "Invalid command.");;
     mret Continue)%meth.

(** What the user types in one turn. *)
Record turn : Type := mkturn {
  t_input : str;
  t_name : str;
  t_phone : str
}.

(** The loop of [main] over the turns of a session: it ends out of the
    loop, with an exception, or, the turns used up, at the prompt. *)
Fixpoint main_loop (turns : list turn) : M world control :=
  match turns with
  | [] => mret Continue
  | t :: turns' =>
      (c <- main_turn (t_input t) (t_name t) (t_phone t);;
       match c with
       | Break => mret Break
       | Continue => main_loop turns'
       end)%meth
  end.

(** [main]: [loaded] is what [load_data()] returned. *)
Definition main (loaded : AddressBook) (turns : list turn)
    : E control * world :=
  (ConsoleView_show_message (lit "Welcome to the assistant bot!");;
   main_loop turns)%meth (mkworld loaded []).

(** The books [add_record] builds: every key once, and every record under
    its own name. *)
Definition book_inv (b : AddressBook) : Prop :=
  NoDup (PyDict.keys (data b)) /\
  Forall (fun kv => fst kv = value (name (snd kv))) (data b).

(** The events a run added, and whether any of them is a save. *)
Definition is_save (e : event) : bool :=
  match e with Save _ => true | _ => false end.

(** The commands the loop knows. *)
Definition known_commands : list str :=
  [lit "close"; lit "exit"; lit "hello"; lit "add"; lit "all"; lit "commands"].

(** The birthdays on which the projection onto the year of the call, or
    the move to next year, fails: a 29 February asked in a year that is not
    a leap year, or after the day has begun (no two leap years follow each
    other); any birthday asked in the year 9999 after its day has begun. *)
Definition raising (now birthday_date : datetime) : Prop :=
  (month birthday_date = 2 /\ day birthday_date = 29 /\
   (is_leap (year now) = false \/
    datetime_ltb (with_year birthday_date (year now)) now = true)) \/
  (year now = 9999 /\
   datetime_ltb (with_year birthday_date (year now)) now = true).

(** A step that only adds events, none of them a save. *)
Definition saves_nothing {A} (c : M world A) : Prop :=
  forall w, exists added,
    w_events (snd (c w)) = w_events w ++ added /\
    existsb is_save added = false.

(** A step that returns and leaves the book as it was. *)
Definition keeps_book {A} (c : M world A) : Prop :=
  forall w, exists a,
    fst (c w) = inr a /\ w_book (snd (c w)) = w_book w.

(** The two prompts of the command [add]. *)
Definition asked : list event :=
  [Prompt (lit "Enter name: "); Prompt (lit "Enter phone: ")].

(** The record [Record(name)] builds. *)
Definition new_record (n : str) : RecordT :=
  mkRecord (mkField n) [] (mkField None).

(** The first line of a session. *)
Definition welcome : str := lit "Welcome to the assistant bot!".

(** A line of the listing of [commands]. *)
Definition command_line (item : str * str) : str :=
  lit "- " ++ fst item ++ lit ": " ++ snd item.

(** The commands the listing shows and the loop has no branch for. *)
Definition listed_not_handled : list str :=
  [lit "change"; lit "phone"; lit "birthdays"; lit "add-birthday";
   lit "show-birthday"; lit "close/exit"].

(* ================================================================== *)
(** ** Strings and characters *)
(* ================================================================== *)

Lemma str_eqb_eq (a b : str) : str_eqb a b = true <-> a = b.
Proof.
  revert b; induction a as [|x a IH]; intros [|y b]; simpl;
    try (split; [discriminate | discriminate]); try tauto.
  rewrite andb_true_iff, N.eqb_eq, IH.
  split; [intros [-> ->]; reflexivity | intros H; inversion H; auto].
Qed.

Lemma str_eqb_refl (a : str) : str_eqb a a = true.
Proof. apply str_eqb_eq; reflexivity. Qed.

Lemma str_eqb_neq (a b : str) : str_eqb a b = false <-> a <> b.
Proof.
  rewrite <- str_eqb_eq. destruct (str_eqb a b); split; congruence.
Qed.

Lemma in_range_iff (lo hi c : char) :
  in_range lo hi c = true <-> (lo <= c <= hi)%N.
Proof.
  unfold in_range. rewrite andb_true_iff, !N.leb_le. tauto.
Qed.

Lemma in_blocks_iff (blocks : list (char * char)) (c : char) :
  in_blocks blocks c = true <->
  exists lo hi, In (lo, hi) blocks /\ (lo <= c <= hi)%N.
Proof.
  unfold in_blocks. rewrite existsb_exists. split.
  - intros [[lo hi] [Hin Hr]]. exists lo, hi. split; [assumption|].
    apply in_range_iff; assumption.
  - intros (lo & hi & Hin & Hr). exists (lo, hi). split; [assumption|].
    apply in_range_iff; assumption.
Qed.

(** An ASCII digit is a decimal digit, hence a digit. *)
Lemma ascii_digit_isdecimal (c : char) :
  is_ascii_digit c = true -> char_isdecimal c = true.
Proof.
  intros H. apply in_range_iff in H. apply in_blocks_iff.
  exists 0x30%N, 0x39%N. split; [left; reflexivity | lia].
Qed.

Lemma isdecimal_isdigit (c : char) :
  char_isdecimal c = true -> char_isdigit c = true.
Proof. intros H. unfold char_isdigit. rewrite H. reflexivity. Qed.

(** Below U+0080 the digits are the ten ASCII digits. *)
Lemma isdigit_below_128 (c : char) :
  (c < 128)%N -> char_isdigit c = is_ascii_digit c.
Proof.
  intros Hc.
  destruct (is_ascii_digit c) eqn:Ha.
  - apply isdecimal_isdigit, ascii_digit_isdecimal; assumption.
  - destruct (char_isdigit c) eqn:Hd; [exfalso | reflexivity].
    assert (Hn : ~ (48 <= c <= 57)%N).
    { intros H. apply in_range_iff in H. unfold is_ascii_digit in Ha. congruence. }
    unfold char_isdigit, char_isdecimal in Hd.
    apply orb_true_iff in Hd.
    destruct Hd as [Hd | Hd]; apply in_blocks_iff in Hd;
      destruct Hd as (lo & hi & Hin & Hr); simpl in Hin;
      repeat (destruct Hin as [Hin | Hin];
              [inversion Hin; subst lo hi; lia |]);
      contradiction.
Qed.

(* ================================================================== *)
(** ** Phone *)
(* ================================================================== *)

Lemma ten_digits_nonempty (raw : str) :
  (len raw =? 10) = true -> str_bool raw = true.
Proof.
  destruct raw; [unfold len; simpl; discriminate | reflexivity].
Qed.

(** What the constructor decides on. *)
Lemma Phone_init_cases (raw : str) :
  Phone_init raw =
  if ten_unicode_digits raw then inr (mkField raw)
  else inl (ValueError phone_msg).
Proof.
  unfold Phone_init, ten_unicode_digits, isdigit.
  destruct (len raw =? 10) eqn:Hl.
  - rewrite (ten_digits_nonempty raw Hl). simpl.
    destruct (forallb char_isdigit raw); reflexivity.
  - rewrite andb_false_l, orb_true_r. reflexivity.
Qed.

Lemma ten_ascii_is_ten_unicode (raw : str) :
  ten_ascii_digits raw = true -> ten_unicode_digits raw = true.
Proof.
  unfold ten_ascii_digits, ten_unicode_digits.
  rewrite !andb_true_iff, !forallb_forall.
  intros [Hl Hd]. split; [assumption|].
  intros c Hc. apply isdecimal_isdigit, ascii_digit_isdecimal, Hd, Hc.
Qed.

(** C4 as the specification words it fails: ten ARABIC-INDIC DIGIT ONE
    are not ASCII digits, yet [Phone] takes them. *)
Lemma Phone_init_accepts_arabic_digits :
  ten_ascii_digits arabic_ones = false /\
  Phone_init arabic_ones = inr (mkField arabic_ones).
Proof. split; vm_compute; reflexivity. Qed.

(** C4, amended: [Phone(raw)] succeeds, storing [raw] unchanged, exactly
    when [raw] has ten characters that are all digits for [str.isdigit];
    every other string is refused with the [ValueError] of the class.
    Ten ASCII digits are always taken, and a string holding any ASCII
    character other than 0-9 (a sign, a separator, a blank) is always
    refused. *)
Theorem Phone_init_ten_unicode_digits (raw : str) :
  (Phone_init raw = inr (mkField raw) <-> ten_unicode_digits raw = true) /\
  (ten_unicode_digits raw = false <->
   Phone_init raw = inl (ValueError phone_msg)) /\
  (forall p, Phone_init raw = inr p -> value p = raw) /\
  (ten_ascii_digits raw = true -> Phone_init raw = inr (mkField raw)) /\
  (len raw <> 10 -> Phone_init raw = inl (ValueError phone_msg)) /\
  (forall c, In c raw -> (c < 128)%N -> is_ascii_digit c = false ->
             Phone_init raw = inl (ValueError phone_msg)).
Proof.
  rewrite Phone_init_cases.
  repeat split.
  - destruct (ten_unicode_digits raw); [reflexivity | discriminate].
  - intros ->; reflexivity.
  - intros ->; reflexivity.
  - destruct (ten_unicode_digits raw); [discriminate | reflexivity].
  - intros p. destruct (ten_unicode_digits raw); intros H; inversion H.
    reflexivity.
  - intros H. rewrite (ten_ascii_is_ten_unicode raw H). reflexivity.
  - intros H. unfold ten_unicode_digits.
    destruct (Z.eqb_spec (len raw) 10); [contradiction | reflexivity].
  - intros c Hin Hc Hnd.
    assert (Hf : ten_unicode_digits raw = false).
    { unfold ten_unicode_digits.
      destruct (forallb char_isdigit raw) eqn:Hall; [| apply andb_false_r].
      rewrite forallb_forall in Hall. specialize (Hall c Hin).
      rewrite (isdigit_below_128 c Hc) in Hall. congruence. }
    rewrite Hf. reflexivity.
Qed.

(* ================================================================== *)
(** ** Record: the phone list *)
(* ================================================================== *)

Lemma find_first_None (number : str) (l : list Phone) :
  find_first number l = None <-> ~ In number (map value l).
Proof.
  induction l as [|p l IH]; simpl; [tauto|].
  destruct (str_eqb (value p) number) eqn:Heq.
  - apply str_eqb_eq in Heq. split; [discriminate | intros H; exfalso; auto].
  - apply str_eqb_neq in Heq. rewrite IH. tauto.
Qed.

Lemma find_first_Some (number : str) (l : list Phone) :
  In number (map value l) -> exists p, find_first number l = Some p.
Proof.
  intros H. destruct (find_first number l) eqn:Hf; [eauto|].
  apply find_first_None in Hf. contradiction.
Qed.

(** [remove_first] takes out the first phone with the value, and only
    it. *)
Lemma remove_first_Some (number : str) (l : list Phone) :
  In number (map value l) ->
  exists l1 p l2,
    l = l1 ++ p :: l2 /\ value p = number /\
    ~ In number (map value l1) /\
    remove_first number l = Some (l1 ++ l2).
Proof.
  induction l as [|q l IH]; simpl; [intros []|].
  intros Hin.
  destruct (str_eqb (value q) number) eqn:Heq.
  - apply str_eqb_eq in Heq. exists [], q, l. simpl. auto.
  - apply str_eqb_neq in Heq.
    destruct Hin as [Hin | Hin]; [contradiction|].
    destruct (IH Hin) as (l1 & p & l2 & -> & Hv & Hn & Hr).
    exists (q :: l1), p, l2. simpl. rewrite Hr. simpl.
    repeat split; auto. intros [H | H]; auto.
Qed.

Lemma remove_first_None (number : str) (l : list Phone) :
  remove_first number l = None <-> ~ In number (map value l).
Proof.
  induction l as [|q l IH]; simpl; [tauto|].
  destruct (str_eqb (value q) number) eqn:Heq.
  - apply str_eqb_eq in Heq. split; [discriminate | intros H; exfalso; auto].
  - apply str_eqb_neq in Heq.
    destruct (remove_first number l); simpl.
    + split; [discriminate|]. intros H. exfalso.
      assert (Hn : ~ In number (map value l)) by tauto.
      apply IH in Hn. discriminate.
    + split; [|reflexivity]. intros _ [H | H]; [auto|].
      apply (proj1 IH); auto.
Qed.

Lemma remove_first_app_new (number : str) (l l' : list Phone) (p : Phone) :
  remove_first number l = Some l' ->
  remove_first number (l ++ [p]) = Some (l' ++ [p]).
Proof.
  revert l'. induction l as [|q l IH]; simpl; [discriminate|].
  intros l'. destruct (str_eqb (value q) number); [congruence|].
  destruct (remove_first number l) as [r|]; [|discriminate].
  simpl. intros H. inversion H; subst. rewrite (IH r eq_refl). reflexivity.
Qed.

(** The three ways [edit_phone] can go. *)
Lemma Record_edit_phone_cases (old new : str) (self : RecordT) :
  Record_edit_phone old new self =
  match find_first old (phones self) with
  | None =>
      (inl (ValueError (lit "Old number " ++ old ++ lit " not found")), self)
  | Some _ =>
      match Phone_init new with
      | inl e => (inl e, self)
      | inr phone =>
          match remove_first old (phones self ++ [phone]) with
          | Some l' => (inr true, set_phones l' self)
          | None => (inr true, set_phones (phones self ++ [phone]) self)
          end
      end
  end.
Proof.
  unfold Record_edit_phone, Record_find_phone, Record_add_phone,
    Record_remove_phone, mbind, mget, mret, mraise, mlift, mput.
  destruct (find_first old (phones self)); simpl; [|reflexivity].
  destruct (Phone_init new); simpl; [reflexivity|].
  destruct (remove_first old (phones self ++ [p0])); reflexivity.
Qed.

(** C6: when [old] is not among the phones of the record, [edit_phone]
    raises the [ValueError] "Old number ... not found" (the not-found
    error of the specification); and whenever [edit_phone] raises, for
    this reason or because [new] is refused by [Phone], the record, and so
    its phone list, is as it was before the call. *)
Theorem edit_phone_failure_keeps_phones (self : RecordT) (old new : str) :
  (~ In old (map value (phones self)) ->
   Record_edit_phone old new self =
   (inl (ValueError (lit "Old number " ++ old ++ lit " not found")), self)) /\
  (forall e self',
     Record_edit_phone old new self = (inl e, self') ->
     self' = self /\ phones self' = phones self).
Proof.
  rewrite Record_edit_phone_cases. split.
  - intros H. apply find_first_None in H. rewrite H. reflexivity.
  - intros e self'.
    destruct (find_first old (phones self)).
    + destruct (Phone_init new).
      * intros H; inversion H; auto.
      * destruct (remove_first old (phones self ++ [p0])); discriminate.
    + intros H; inversion H; auto.
Qed.

(** C7: when some phone of the record has the value [old] and [new] is a
    valid number (ten digits), [edit_phone] returns [True]; afterwards the
    phone list is the old one without the first phone equal to [old], and
    with [new] added at the end, so the record contains [new]. *)
Theorem edit_phone_replaces_first (self : RecordT) (old new : str) :
  In old (map value (phones self)) ->
  ten_unicode_digits new = true ->
  exists l1 p l2 self',
    phones self = l1 ++ p :: l2 /\ value p = old /\
    ~ In old (map value l1) /\
    Record_edit_phone old new self = (inr true, self') /\
    phones self' = l1 ++ l2 ++ [mkField new] /\
    name self' = name self /\ birthday self' = birthday self /\
    In new (map value (phones self')).
Proof.
  intros Hin Hnew.
  destruct (remove_first_Some old (phones self) Hin)
    as (l1 & p & l2 & Heq & Hv & Hn & Hr).
  destruct (find_first_Some old (phones self) Hin) as [q Hq].
  exists l1, p, l2, (set_phones (l1 ++ l2 ++ [mkField new]) self).
  rewrite Record_edit_phone_cases, Hq, Phone_init_cases, Hnew.
  rewrite (remove_first_app_new old _ _ (mkField new) Hr).
  rewrite <- app_assoc. simpl.
  repeat split; auto.
  rewrite !map_app. simpl. apply in_or_app. right.
  apply in_or_app. right. left. reflexivity.
Qed.

(** The example of the specification: one phone, replaced. *)
Lemma edit_phone_replaces_first_example :
  let john := record_of (lit "John") [lit "1111111111"] None in
  In (lit "1111111111") (map value (phones john)) /\
  ten_unicode_digits (lit "2222222222") = true /\
  exists self',
    Record_edit_phone (lit "1111111111") (lit "2222222222") john =
    (inr true, self') /\
    In (lit "2222222222") (map value (phones self')) /\
    ~ In (lit "1111111111") (map value (phones self')).
Proof.
  intros john.
  assert (Hold : In (lit "1111111111") (map value (phones john)))
    by (left; reflexivity).
  assert (Hnew : ten_unicode_digits (lit "2222222222") = true)
    by (vm_compute; reflexivity).
  split; [exact Hold|]. split; [exact Hnew|].
  destruct (edit_phone_replaces_first john
              (lit "1111111111") (lit "2222222222") Hold Hnew)
    as (l1 & p & l2 & self' & Heq & Hv & Hn & Hrun & Hph & _ & _ & Hin).
  - exists self'. split; [exact Hrun|]. split; [exact Hin|].
    assert (Hl1 : l1 = []).
    { destruct l1 as [|x l1]; [reflexivity|].
      simpl in Heq. inversion Heq as [[Hx Hl]].
      destruct l1; discriminate. }
    subst l1. simpl in Heq. inversion Heq; subst.
    rewrite Hph. simpl. intros [H | []]. discriminate.
Defined.

(** The not-found case of the specification's example: the call raises
    and the phone list is unchanged. *)
Lemma edit_phone_failure_example :
  Record_edit_phone (lit "9999999999") (lit "2222222222")
    (record_of (lit "John") [lit "1111111111"] None) =
  (inl (ValueError (lit "Old number 9999999999 not found")),
   record_of (lit "John") [lit "1111111111"] None).
Proof.
  apply (proj1 (edit_phone_failure_keeps_phones
                  (record_of (lit "John") [lit "1111111111"] None)
                  (lit "9999999999") (lit "2222222222"))).
  simpl. intros [H | []]. discriminate.
Defined.

(* ================================================================== *)
(** ** Record: __str__ *)
(* ================================================================== *)

(** The summary always ends with the birthday part, whatever the
    birthday holds. *)
Lemma Record_str_always_birthday (self : RecordT) :
  Record_str self =
  lit "Contact name: " ++ value (name self) ++ lit ", phones: " ++
  join (lit "; ") (map value (phones self)) ++
  lit ", birthday: " ++ opt_str_format (value (birthday self)).
Proof. reflexivity. Qed.

(** C8, where the code departs from the specification: a record without a
    birthday is printed with the text ", birthday: None". *)
Theorem Record_str_no_birthday :
  Record_init (lit "John") = inr (record_of (lit "John") [] None) /\
  Record_str (record_of (lit "John") [lit "1234567890"] None) =
  lit "Contact name: John, phones: 1234567890, birthday: None" /\
  Record_str (record_of (lit "John") [lit "1234567890"; lit "5555555555"] None) =
  lit "Contact name: John, phones: 1234567890; 5555555555, birthday: None".
Proof. repeat split. Qed.

(* ================================================================== *)
(** ** AddressBook: find and delete *)
(* ================================================================== *)

Lemma get_None_iff {V} (k : str) (d : PyDict.dict V) :
  PyDict.get k d = None <-> ~ In k (PyDict.keys d).
Proof.
  induction d as [|[k' v] d IH]; simpl; [tauto|].
  destruct (str_eqb k' k) eqn:Heq.
  - apply str_eqb_eq in Heq. split; [discriminate | intros H; exfalso; auto].
  - apply str_eqb_neq in Heq. rewrite IH. tauto.
Qed.

Lemma contains_iff {V} (k : str) (d : PyDict.dict V) :
  PyDict.contains k d = true <-> In k (PyDict.keys d).
Proof.
  unfold PyDict.contains.
  destruct (PyDict.get k d) eqn:Hg.
  - split; [intros _ | reflexivity].
    destruct (in_dec (list_eq_dec N.eq_dec) k (PyDict.keys d)) as [H | H];
      [assumption|].
    apply get_None_iff in H. congruence.
  - apply get_None_iff in Hg. split; [discriminate | contradiction].
Qed.

Lemma get_del_same {V} (k : str) (d : PyDict.dict V) :
  PyDict.get k (PyDict.del k d) = None.
Proof.
  apply get_None_iff. unfold PyDict.keys, PyDict.del.
  intros H. apply in_map_iff in H. destruct H as [[k' v] [Hk Hin]].
  apply filter_In in Hin. destruct Hin as [_ Hf]. simpl in *. subst k'.
  rewrite str_eqb_refl in Hf. discriminate.
Qed.

Lemma get_del_other {V} (k k' : str) (d : PyDict.dict V) :
  k' <> k -> PyDict.get k' (PyDict.del k d) = PyDict.get k' d.
Proof.
  intros Hne. induction d as [|[k0 v] d IH]; simpl; [reflexivity|].
  destruct (str_eqb k0 k) eqn:H0; simpl.
  - apply str_eqb_eq in H0. subst k0.
    assert (Hf : str_eqb k k' = false) by (apply str_eqb_neq; congruence).
    rewrite Hf. exact IH.
  - destruct (str_eqb k0 k'); [reflexivity | exact IH].
Qed.

(** Assignment keeps the keys distinct, and the value is then found. *)
Lemma set_keys_In {V} (k k' : str) (v : V) (d : PyDict.dict V) :
  In k' (PyDict.keys (PyDict.set k v d)) -> k' = k \/ In k' (PyDict.keys d).
Proof.
  induction d as [|[k0 v0] d IH]; cbn [PyDict.set PyDict.keys map fst].
  - intros [E | []]. left. congruence.
  - destruct (str_eqb k0 k); cbn [PyDict.keys map fst].
    + intros H. right. exact H.
    + intros [E | H]; [right; left; exact E|].
      destruct (IH H) as [E | Hin]; [left; exact E | right; right; exact Hin].
Qed.

Lemma set_keys_NoDup {V} (k : str) (v : V) (d : PyDict.dict V) :
  NoDup (PyDict.keys d) -> NoDup (PyDict.keys (PyDict.set k v d)).
Proof.
  induction d as [|[k0 v0] d IH]; cbn [PyDict.set PyDict.keys map fst].
  - intros _. constructor; [intros [] | constructor].
  - intros H. inversion H as [|? ? Hn Hd]; subst.
    destruct (str_eqb k0 k) eqn:H0; cbn [PyDict.keys map fst].
    + constructor; assumption.
    + apply str_eqb_neq in H0. constructor; [|apply IH; assumption].
      intros Hin. apply set_keys_In in Hin.
      destruct Hin as [E | Hin]; [congruence | contradiction].
Qed.

Lemma get_set_same {V} (k : str) (v : V) (d : PyDict.dict V) :
  PyDict.get k (PyDict.set k v d) = Some v.
Proof.
  induction d as [|[k0 v0] d IH]; cbn [PyDict.set PyDict.get].
  - rewrite str_eqb_refl. reflexivity.
  - destruct (str_eqb k0 k) eqn:H0; cbn [PyDict.get]; rewrite H0;
      [reflexivity | exact IH].
Qed.

(** Deleting keeps the keys distinct and in order, and takes one entry
    out of a dict whose keys are distinct. *)
Lemma del_keys_NoDup {V} (k : str) (d : PyDict.dict V) :
  NoDup (PyDict.keys d) -> NoDup (PyDict.keys (PyDict.del k d)).
Proof.
  induction d as [|[k0 v] d IH]; simpl; [auto|].
  intros H. inversion H as [|? ? Hn Hd]; subst.
  destruct (str_eqb k0 k); simpl; [auto|].
  constructor; [|auto].
  intros Hin. apply Hn. unfold PyDict.keys, PyDict.del in *.
  apply in_map_iff in Hin. destruct Hin as [kv [Hk Hin]].
  apply filter_In in Hin. apply in_map_iff. exists kv. tauto.
Qed.

Lemma del_length_NoDup {V} (k : str) (d : PyDict.dict V) :
  NoDup (PyDict.keys d) -> In k (PyDict.keys d) ->
  S (List.length (PyDict.del k d)) = List.length d.
Proof.
  induction d as [|[k0 v] d IH]; simpl; [intros _ []|].
  intros H Hin. inversion H as [|? ? Hn Hd]; subst.
  destruct (str_eqb k0 k) eqn:H0; simpl.
  - apply str_eqb_eq in H0. subst k0. f_equal.
    clear IH H Hin Hd. induction d as [|[k1 v1] d IH]; simpl; [reflexivity|].
    simpl in Hn.
    assert (Hf : str_eqb k1 k = false) by (apply str_eqb_neq; tauto).
    rewrite Hf. simpl. f_equal. apply IH. tauto.
  - apply str_eqb_neq in H0. f_equal. apply IH; [assumption|].
    destruct Hin; [contradiction | assumption].
Qed.

(** C10: [delete(name)] raises the [ValueError] "Record with name ... not
    found." (the not-found error of the specification), leaving the book
    as it was, when [name] is not a key of the book; when it is, [delete]
    returns, a [find] of that name in the book afterwards returns [None],
    and every other name is found as before. *)
Theorem delete_then_find (self : AddressBook) (n : str) :
  (~ In n (PyDict.keys (data self)) ->
   AddressBook_delete n self =
   (inl (ValueError (lit "Record with name " ++ n ++ lit " not found.")),
    self)) /\
  (In n (PyDict.keys (data self)) ->
   exists self',
     AddressBook_delete n self = (inr tt, self') /\
     AddressBook_find n self' = (inr None, self') /\
     forall n', n' <> n ->
       fst (AddressBook_find n' self') = fst (AddressBook_find n' self)).
Proof.
  unfold AddressBook_delete, AddressBook_find, mbind, mget, mret, mraise, mput.
  simpl. split.
  - intros H.
    destruct (PyDict.contains n (data self)) eqn:Hc; [|reflexivity].
    apply contains_iff in Hc. contradiction.
  - intros H. apply contains_iff in H. rewrite H.
    eexists. split; [reflexivity|]. simpl. split.
    + rewrite get_del_same. reflexivity.
    + intros n' Hne. rewrite (get_del_other n n' _ Hne). reflexivity.
Qed.

(** A book with two records: deleting one, then looking both up. *)
Lemma delete_then_find_example :
  let book := book_of [record_of (lit "Ann") [] None;
                       record_of (lit "Bob") [] None] in
  In (lit "Ann") (PyDict.keys (data book)) /\
  exists self',
    AddressBook_delete (lit "Ann") book = (inr tt, self') /\
    AddressBook_find (lit "Ann") self' = (inr None, self').
Proof.
  intros book.
  assert (Hin : In (lit "Ann") (PyDict.keys (data book))).
  { simpl. left. reflexivity. }
  split; [exact Hin|].
  destruct (proj2 (delete_then_find book (lit "Ann")) Hin)
    as (self' & Hd & Hf & _).
  exists self'. split; assumption.
Defined.

(* ================================================================== *)
(** ** The calendar *)
(* ================================================================== *)

Lemma is_leap_cases (y : Z) :
  (is_leap y = true /\ (y mod 4 = 0 /\ (y mod 100 <> 0 \/ y mod 400 = 0))) \/
  (is_leap y = false /\ (y mod 4 <> 0 \/ (y mod 100 = 0 /\ y mod 400 <> 0))).
Proof.
  unfold is_leap.
  destruct (Z.eqb_spec (y mod 4) 0), (Z.eqb_spec (y mod 100) 0),
    (Z.eqb_spec (y mod 400) 0); simpl; tauto.
Qed.

Lemma days_before_year_succ (y : Z) :
  days_before_year (y + 1) =
  days_before_year y + 365 + (if is_leap y then 1 else 0).
Proof.
  unfold days_before_year. cbv zeta.
  replace (y + 1 - 1) with y by lia.
  destruct (is_leap_cases y) as [[-> H] | [-> H]];
    Z.div_mod_to_equations; lia.
Qed.

Lemma month_cases (m : Z) :
  1 <= m <= 12 ->
  m = 1 \/ m = 2 \/ m = 3 \/ m = 4 \/ m = 5 \/ m = 6 \/
  m = 7 \/ m = 8 \/ m = 9 \/ m = 10 \/ m = 11 \/ m = 12.
Proof. lia. Qed.

Ltac split_month H :=
  apply month_cases in H;
  repeat (destruct H as [H | H]; [subst | ]); [.. | subst].

Ltac fold_consts :=
  repeat match goal with
         | |- context [Z.pos ?a + Z.pos ?b] =>
             let v := eval cbv in (Z.pos a + Z.pos b) in
             change (Z.pos a + Z.pos b) with v
         end.

Lemma next_day_toordinal (x : datetime) :
  md_ok x -> toordinal (next_day x) = toordinal x + 1.
Proof.
  destruct x as [y m d h mi s us].
  unfold md_ok, toordinal, next_day, ymd2ord, days_in_month, days_before_month.
  cbn [year month day hour minute second microsecond].
  intros [Hm Hd].
  split_month Hm;
    destruct (is_leap y) eqn:Hl; cbn -[days_before_year Z.add Z.ltb] in *;
    match goal with
    | |- context [?a <? ?b] => destruct (Z.ltb_spec a b)
    end;
    fold_consts;
    cbn -[days_before_year Z.add]; try rewrite days_before_year_succ;
    try rewrite Hl; try lia.
Qed.

Lemma next_day_md_ok (x : datetime) : md_ok x -> md_ok (next_day x).
Proof.
  destruct x as [y m d h mi s us].
  unfold md_ok, next_day, days_in_month.
  cbn [year month day hour minute second microsecond].
  intros [Hm Hd].
  split_month Hm;
    destruct (is_leap y) eqn:Hl; cbn -[Z.add Z.ltb Z.le is_leap] in *;
    match goal with
    | |- context [?a <? ?b] => destruct (Z.ltb_spec a b)
    end;
    fold_consts;
    cbn -[Z.add Z.le is_leap]; try rewrite Hl; cbn -[Z.add Z.le is_leap]; try lia.
Qed.

Lemma next_day_time (x : datetime) :
  hour (next_day x) = hour x /\ minute (next_day x) = minute x /\
  second (next_day x) = second x /\ microsecond (next_day x) = microsecond x /\
  year x <= year (next_day x).
Proof.
  unfold next_day.
  destruct (day x <? days_in_month (year x) (month x));
    [| destruct (month x <? 12)]; simpl; repeat split; lia.
Qed.

Lemma days_before_year_upper (y : Z) :
  y <= 9999 -> days_before_year y <= 3651694.
Proof. unfold days_before_year. cbv zeta. intros H. Z.div_mod_to_equations. lia. Qed.

Lemma days_before_year_lower (y : Z) :
  10000 <= y -> 3652059 <= days_before_year y.
Proof. unfold days_before_year. cbv zeta. intros H. Z.div_mod_to_equations. lia. Qed.

Lemma days_before_year_pos (y : Z) :
  1 <= y -> 0 <= days_before_year y.
Proof. unfold days_before_year. cbv zeta. intros H. Z.div_mod_to_equations. lia. Qed.

(** Day of the year: between 1 and 365, or 366 in a leap year. *)
Lemma day_of_year_bounds (y m d : Z) :
  1 <= m <= 12 -> 1 <= d <= days_in_month y m ->
  1 <= days_before_month y m + d <= 365 + (if is_leap y then 1 else 0).
Proof.
  unfold days_in_month, days_before_month. intros Hm Hd.
  split_month Hm; destruct (is_leap y); cbn -[Z.add Z.le] in *; lia.
Qed.

Lemma toordinal_bounds (x : datetime) :
  md_ok x -> 1 <= year x <= 9999 -> 1 <= toordinal x <= MAXORDINAL.
Proof.
  intros [Hm Hd] Hy. unfold toordinal, ymd2ord, MAXORDINAL.
  pose proof (day_of_year_bounds _ _ _ Hm Hd) as Hb.
  pose proof (days_before_year_pos (year x) (proj1 Hy)) as Hp.
  split; [lia|].
  destruct (Z.eq_dec (year x) 9999) as [E | E].
  - rewrite E in *. change (is_leap 9999) with false in Hb.
    change (days_before_year 9999) with 3651694. lia.
  - pose proof (days_before_year_succ (year x)) as Hs.
    pose proof (days_before_year_upper (year x + 1) ltac:(lia)).
    destruct (is_leap (year x)); lia.
Qed.

Lemma toordinal_beyond (x : datetime) :
  md_ok x -> 10000 <= year x -> MAXORDINAL < toordinal x.
Proof.
  intros [Hm Hd] Hy. unfold toordinal, ymd2ord, MAXORDINAL.
  pose proof (day_of_year_bounds _ _ _ Hm Hd) as Hb.
  pose proof (days_before_year_lower (year x) Hy). lia.
Qed.

Lemma date_ok_iff (y m d : Z) :
  date_ok y m d = true <->
  1 <= y <= 9999 /\ 1 <= m <= 12 /\ 1 <= d <= days_in_month y m.
Proof.
  unfold date_ok, MINYEAR, MAXYEAR.
  rewrite !andb_true_iff, !Z.leb_le. tauto.
Qed.

Lemma datetime_ok_iff (x : datetime) :
  datetime_ok x = true <-> 1 <= year x <= 9999 /\ md_ok x /\ time_ok x.
Proof.
  unfold datetime_ok, md_ok, time_ok.
  rewrite !andb_true_iff, date_ok_iff, !Z.leb_le, !Z.ltb_lt. tauto.
Qed.

Lemma next_days_spec (n : nat) (x : datetime) :
  md_ok x ->
  md_ok (next_days n x) /\
  toordinal (next_days n x) = toordinal x + Z.of_nat n /\
  same_time (next_days n x) x /\
  year x <= year (next_days n x).
Proof.
  revert x. induction n as [|n IH]; intros x Hx.
  - simpl. unfold same_time. repeat split; try tauto; try lia; apply Hx.
  - cbn [next_days].
    destruct (IH (next_day x) (next_day_md_ok x Hx)) as (Hm & Ho & Ht & Hy).
    pose proof (next_day_toordinal x Hx) as Ho1.
    pose proof (next_day_time x) as (T1 & T2 & T3 & T4 & T5).
    unfold same_time in *. repeat split; try tauto; try lia; try apply Hm.
Qed.

Lemma datetime_add_days_spec (x : datetime) (n : nat) :
  datetime_ok x = true ->
  toordinal x + Z.of_nat n <= MAXORDINAL ->
  exists a,
    datetime_add_days x n = inr a /\ datetime_ok a = true /\
    toordinal a = toordinal x + Z.of_nat n /\ same_time a x.
Proof.
  intros Hx Hmax. apply datetime_ok_iff in Hx. destruct Hx as (Hy & Hmd & Ht).
  destruct (next_days_spec n x Hmd) as (Hm & Ho & Hs & Hyy).
  unfold datetime_add_days. cbv zeta.
  assert (Hle : year (next_days n x) <= 9999).
  { destruct (Z_le_gt_dec (year (next_days n x)) 9999) as [H | H]; [assumption|].
    pose proof (toordinal_beyond _ Hm ltac:(lia)). lia. }
  unfold MAXYEAR. destruct (Z.leb_spec (year (next_days n x)) 9999); [|lia].
  exists (next_days n x).
  split; [reflexivity|]. split; [|split; assumption].
  apply datetime_ok_iff. unfold time_ok, same_time in *.
  destruct Hs as (E1 & E2 & E3 & E4). rewrite E1, E2, E3, E4.
  repeat split; try apply Hm; try apply Ht; lia.
Qed.

Lemma weekend_shift_spec (c : datetime) :
  datetime_ok c = true ->
  exists a,
    weekend_shift c = inr a /\ datetime_ok a = true /\
    toordinal a = toordinal c + shift_of c /\ same_time a c /\
    (shift_of c = 0 -> a = c).
Proof.
  intros Hc.
  pose proof (proj1 (datetime_ok_iff c) Hc) as (Hy & Hmd & Ht).
  pose proof (toordinal_bounds c Hmd Hy) as Hb.
  unfold weekend_shift, shift_of, weekday, MAXORDINAL in *.
  destruct (Z.eqb_spec ((toordinal c + 6) mod 7) 5) as [H5 | H5].
  - destruct (datetime_add_days_spec c 2 Hc) as (a & Ha & Hok & Ho & Hs).
    { unfold MAXORDINAL. change (Z.of_nat 2) with 2. Z.div_mod_to_equations. lia. }
    exists a. repeat split; try assumption; try apply Hs. lia.
  - destruct (Z.eqb_spec ((toordinal c + 6) mod 7) 6) as [H6 | H6].
    + destruct (datetime_add_days_spec c 1 Hc) as (a & Ha & Hok & Ho & Hs).
      { unfold MAXORDINAL. change (Z.of_nat 1) with 1. Z.div_mod_to_equations. lia. }
      exists a. repeat split; try assumption; try apply Hs. lia.
    + exists c. unfold same_time. repeat split; auto. lia.
Qed.

(* ================================================================== *)
(** ** Range checks and what strptime returns *)
(* ================================================================== *)

Lemma check_date_fields_cases (y m d : Z) :
  (date_ok y m d = true /\ check_date_fields y m d = inr tt) \/
  (date_ok y m d = false /\
   ((~ 1 <= y <= 9999 /\
     check_date_fields y m d =
     inl (ValueError (lit "year " ++ str_of_int y ++ lit " is out of range"))) \/
    (1 <= y <= 9999 /\ ~ 1 <= m <= 12 /\
     check_date_fields y m d = inl (ValueError (lit "month must be in 1..12"))) \/
    (1 <= y <= 9999 /\ 1 <= m <= 12 /\ ~ 1 <= d <= days_in_month y m /\
     check_date_fields y m d = inl (ValueError msg_day_out_of_range)))).
Proof.
  unfold check_date_fields, date_ok, MINYEAR, MAXYEAR, msg_day_out_of_range.
  destruct (Z.leb_spec 1 y), (Z.leb_spec y 9999), (Z.leb_spec 1 m),
    (Z.leb_spec m 12), (Z.leb_spec 1 d), (Z.leb_spec d (days_in_month y m));
    cbn [andb negb];
    first [ left; split; reflexivity
          | right; split; [reflexivity|];
            first [ left; split; [lia | reflexivity]
                  | right; left; split; [lia|]; split; [lia | reflexivity]
                  | right; right; split; [lia|]; split; [lia|];
                    split; [lia | reflexivity] ] ].
Qed.

Lemma py_int_ValueError (s : str) (e : exn) :
  py_int s = inl e -> exists msg, e = ValueError msg.
Proof.
  unfold py_int. destruct (lstrip s); [intros H; inversion H; eauto|].
  destruct (digits_value 0 (c :: s0)); intros H; inversion H; eauto.
Qed.

Lemma check_date_fields_ValueError (y m d : Z) (e : exn) :
  check_date_fields y m d = inl e -> exists msg, e = ValueError msg.
Proof.
  destruct (check_date_fields_cases y m d)
    as [[_ H] | [_ [(_ & H) | [(_ & _ & H) | (_ & _ & _ & H)]]]];
    rewrite H; intros E; inversion E; eauto.
Qed.

(** [strptime] raises nothing but [ValueError]. *)
Lemma strptime_ValueError (s : str) (e : exn) :
  strptime_dmY s = inl e -> exists msg, e = ValueError msg.
Proof.
  unfold strptime_dmY.
  destruct (format_matches s) as [|f l]; [intros H; inversion H; eauto|].
  destruct (str_bool (rest f)); [intros H; inversion H; eauto|].
  destruct (py_int (g_d f)) eqn:Hd; cbn [bind];
    [intros H; inversion H; subst; eapply py_int_ValueError; eauto|].
  destruct (py_int (g_m f)) eqn:Hm; cbn [bind];
    [intros H; inversion H; subst; eapply py_int_ValueError; eauto|].
  destruct (py_int (g_Y f)) eqn:Hy; cbn [bind];
    [intros H; inversion H; subst; eapply py_int_ValueError; eauto|].
  destruct (check_date_fields z1 z0 z) eqn:Hc; cbn [bind];
    [intros H; inversion H; subst; eapply check_date_fields_ValueError; eauto|].
  discriminate.
Qed.

(** What [strptime] returns is a date of the calendar at midnight. *)
Lemma strptime_datetime_ok (s : str) (bd : datetime) :
  strptime_dmY s = inr bd -> datetime_ok bd = true /\ at_midnight bd.
Proof.
  unfold strptime_dmY.
  destruct (format_matches s) as [|f l]; [discriminate|].
  destruct (str_bool (rest f)); [discriminate|].
  destruct (py_int (g_d f)); cbn [bind]; [discriminate|].
  destruct (py_int (g_m f)); cbn [bind]; [discriminate|].
  destruct (py_int (g_Y f)); cbn [bind]; [discriminate|].
  destruct (check_date_fields_cases z1 z0 z)
    as [[Hok H] | [_ [(_ & H) | [(_ & _ & H) | (_ & _ & _ & H)]]]];
    rewrite H; cbn [bind]; try discriminate.
  intros E. inversion E; subst. unfold datetime_ok, at_midnight. simpl.
  rewrite Hok. auto.
Qed.

(* ================================================================== *)
(** ** The loop of get_upcoming_birthdays *)
(* ================================================================== *)

(** One turn of the loop, by what happens to the record. *)
Lemma upcoming_loop_step (today : datetime) (record : RecordT)
    (records : list RecordT) (acc : list entry) :
  upcoming_loop today (record :: records) acc =
  match examine today record with
  | Skipped => upcoming_loop today records acc
  | Raised e => inl e
  | Judged a =>
      upcoming_loop today records
        (if in_window today a
         then acc ++ [mkentry (value (name record)) (strftime_dmY a)]
         else acc)
  end.
Proof.
  unfold examine, adjusted, in_window. cbn [upcoming_loop Field_bool andb].
  destruct (value (birthday record)) as [s|]; cbn [opt_str_bool the_str];
    [|reflexivity].
  destruct (str_bool s); [|reflexivity].
  destruct (strptime_dmY s) as [[msg|msg]|bd]; try reflexivity.
  destruct (project today bd) as [e|p]; cbn [bind]; [reflexivity|].
  destruct (rollover today p) as [e|c]; cbn [bind]; [reflexivity|].
  destruct (weekend_shift c) as [e|a]; cbn [bind]; [reflexivity|].
  destruct ((0 <=? days_until today a) && (days_until today a <=? 7))%bool;
    reflexivity.
Qed.

Lemma upcoming_loop_returns (today : datetime) (records : list RecordT) :
  (forall r e, In r records -> examine today r <> Raised e) ->
  forall acc,
    upcoming_loop today records acc =
    inr (acc ++ flat_map (report today) records).
Proof.
  induction records as [|r records IH]; intros Hno acc.
  - simpl. rewrite app_nil_r. reflexivity.
  - rewrite upcoming_loop_step. cbn [flat_map]. unfold report at 1.
    assert (Hr : forall e, examine today r <> Raised e)
      by (intros e; apply Hno; left; reflexivity).
    assert (Hrest : forall r' e, In r' records -> examine today r' <> Raised e)
      by (intros r' e Hin; apply Hno; right; assumption).
    destruct (examine today r) as [|e|a].
    + apply IH; assumption.
    + exfalso. apply (Hr e). reflexivity.
    + rewrite IH by assumption.
      destruct (in_window today a); [rewrite <- app_assoc|]; reflexivity.
Qed.

Lemma upcoming_loop_raises (today : datetime) (records : list RecordT) :
  forall acc r e0,
    In r records -> examine today r = Raised e0 ->
    exists r' e,
      In r' records /\ examine today r' = Raised e /\
      upcoming_loop today records acc = inl e.
Proof.
  induction records as [|r1 records IH]; intros acc r e0 Hin Hr; [destruct Hin|].
  rewrite upcoming_loop_step.
  destruct (examine today r1) as [|e|a] eqn:H1.
  - destruct Hin as [<- | Hin]; [congruence|].
    destruct (IH acc r e0 Hin Hr) as (r' & e & Hin' & He & Hl).
    exists r', e. simpl; auto.
  - exists r1, e. simpl; auto.
  - destruct Hin as [<- | Hin]; [congruence|].
    destruct (IH (if in_window today a
                  then acc ++ [mkentry (value (name r1)) (strftime_dmY a)]
                  else acc) r e0 Hin Hr) as (r' & e & Hin' & He & Hl).
    exists r', e. simpl; auto.
Qed.

(** If the loop returns, no record raised. *)
Lemma upcoming_loop_inr (today : datetime) (records : list RecordT) :
  forall acc res,
    upcoming_loop today records acc = inr res ->
    forall r e, In r records -> examine today r <> Raised e.
Proof.
  intros acc res Hres r e Hin Hr.
  destruct (upcoming_loop_raises today records acc r e Hin Hr)
    as (r' & e' & _ & _ & Hl). congruence.
Qed.

(** [replace(year=y)] when only the day can be out of range. *)
(* ================================================================== *)
(** ** Projection, year rule and weekend rule *)
(* ================================================================== *)

Lemma replace_year_day (x : datetime) (y : Z) :
  1 <= y <= 9999 -> 1 <= month x <= 12 -> 1 <= day x ->
  replace_year x y =
  if day x <=? days_in_month y (month x) then inr (with_year x y)
  else inl (ValueError msg_day_out_of_range).
Proof.
  intros Hy Hm Hd. unfold replace_year.
  destruct (check_date_fields_cases y (month x) (day x))
    as [[Hok H] | [_ [(Hn & H) | [(_ & Hn & H) | (_ & _ & Hn & H)]]]];
    try (exfalso; lia); rewrite H; cbn [bind].
  - apply date_ok_iff in Hok.
    destruct (Z.leb_spec (day x) (days_in_month y (month x))); [reflexivity | lia].
  - destruct (Z.leb_spec (day x) (days_in_month y (month x))); [lia | reflexivity].
Qed.

Lemma days_in_month_not_leap (y m : Z) :
  is_leap y = false -> days_in_month y m = DAYS_IN_MONTH m.
Proof. unfold days_in_month. intros ->. rewrite andb_false_r. reflexivity. Qed.

Lemma days_in_month_ge (y m : Z) : DAYS_IN_MONTH m <= days_in_month y m.
Proof.
  unfold days_in_month.
  destruct (Z.eqb_spec m 2) as [-> | _]; [|cbn [andb]; lia].
  destruct (is_leap y); cbn; lia.
Qed.

Lemma with_year_ok (x : datetime) (y : Z) :
  datetime_ok x = true -> 1 <= y <= 9999 ->
  day x <= days_in_month y (month x) ->
  datetime_ok (with_year x y) = true.
Proof.
  intros Hx Hy Hd. apply datetime_ok_iff in Hx. apply datetime_ok_iff.
  unfold md_ok, time_ok, with_year in *. simpl. tauto.
Qed.

(** The projection raises only for a day the current year lacks. *)
Lemma project_cases (today bd : datetime) :
  datetime_ok today = true -> datetime_ok bd = true ->
  project today bd =
  if day bd <=? days_in_month (year today) (month bd)
  then inr (with_year bd (year today))
  else inl (ValueError msg_day_out_of_range).
Proof.
  intros Ht Hb. apply datetime_ok_iff in Ht. apply datetime_ok_iff in Hb.
  unfold md_ok in *. apply replace_year_day; tauto.
Qed.

Lemma rollover_cases (today p : datetime) :
  datetime_ok today = true -> datetime_ok p = true -> year p = year today ->
  (datetime_ltb p today = false /\ rollover today p = inr p) \/
  (datetime_ltb p today = true /\
   (rollover today p = inr (with_year p (year today + 1)) /\
    datetime_ok (with_year p (year today + 1)) = true \/
    rollover today p = inl (ValueError msg_day_out_of_range) /\
    is_leap (year today) = true \/
    rollover today p = inl (ValueError msg_year_10000) /\
    year today = 9999)).
Proof.
  intros Ht Hp Hy. unfold rollover.
  destruct (datetime_ltb p today); [right | left; auto].
  split; [reflexivity|].
  pose proof (proj1 (datetime_ok_iff today) Ht) as (Hty & _ & _).
  pose proof (proj1 (datetime_ok_iff p) Hp) as (Hpy & Hpm & _).
  unfold md_ok in Hpm.
  destruct (Z.eq_dec (year today) 9999) as [E | E].
  - right. right. rewrite E. split; reflexivity.
  - rewrite replace_year_day by lia.
    destruct (Z.leb_spec (day p) (days_in_month (year today + 1) (month p))).
    + left. split; [reflexivity|]. apply with_year_ok; [assumption | lia | assumption].
    + right. left. split; [reflexivity|].
      destruct (is_leap (year today)) eqn:Hl; [reflexivity | exfalso].
      rewrite Hy in Hpm. rewrite (days_in_month_not_leap _ _ Hl) in Hpm.
      pose proof (days_in_month_ge (year today + 1) (month p)). lia.
Qed.

(** Whatever the loop raises is one of two [ValueError]s of [replace]. *)
Lemma examine_raised (today : datetime) (r : RecordT) (e : exn) :
  datetime_ok today = true ->
  examine today r = Raised e ->
  e = ValueError msg_day_out_of_range \/
  (year today = 9999 /\ e = ValueError msg_year_10000).
Proof.
  intros Ht. unfold examine, adjusted.
  destruct (value (birthday r)) as [s|]; [|discriminate].
  destruct (str_bool s); [|discriminate].
  destruct (strptime_dmY s) as [e0|bd] eqn:Hs.
  { destruct (strptime_ValueError s e0 Hs) as [msg ->]. discriminate. }
  destruct (strptime_datetime_ok s bd Hs) as [Hb _].
  rewrite (project_cases today bd Ht Hb).
  destruct (Z.leb_spec (day bd) (days_in_month (year today) (month bd)));
    cbn [bind]; [|intros E; inversion E; auto].
  pose proof (proj1 (datetime_ok_iff today) Ht) as (Hty & _ & _).
  assert (Hp : datetime_ok (with_year bd (year today)) = true)
    by (apply with_year_ok; assumption).
  destruct (rollover_cases today (with_year bd (year today)) Ht Hp eq_refl)
    as [[_ Hr] | [_ [[Hr Hok] | [[Hr _] | [Hr Hy]]]]]; rewrite Hr; cbn [bind];
    try (intros E; inversion E; auto; fail).
  - destruct (weekend_shift_spec _ Hp) as (a & -> & _). discriminate.
  - destruct (weekend_shift_spec _ Hok) as (a & -> & _). discriminate.
Qed.

Lemma strptime_nonempty (s : str) (bd : datetime) :
  strptime_dmY s = inr bd -> str_bool s = true.
Proof. destruct s; [discriminate | reflexivity]. Qed.

(** C2: a date that has gone through the year rule and falls on a
    Saturday is moved forward exactly two days, one that falls on a Sunday
    exactly one day (both land on a Monday), any other date is left as it
    is; the time of day is kept and the move never raises.  The move is
    made once, on the outcome of the year rule, and its outcome goes
    straight to the day count and to the reported text: the year rule is
    not applied again. *)
Theorem weekend_shift_once (c : datetime) :
  datetime_ok c = true ->
  exists a,
    weekend_shift c = inr a /\ datetime_ok a = true /\ same_time a c /\
    (weekday c = 5 -> toordinal a = toordinal c + 2 /\ weekday a = 0) /\
    (weekday c = 6 -> toordinal a = toordinal c + 1 /\ weekday a = 0) /\
    (weekday c <> 5 -> weekday c <> 6 -> a = c) /\
    (forall today bd,
       (p <- project today bd;; rollover today p)%err = inr c ->
       adjusted today bd = inr a) /\
    (forall today record s bd records acc,
       value (birthday record) = Some s -> strptime_dmY s = inr bd ->
       (p <- project today bd;; rollover today p)%err = inr c ->
       upcoming_loop today (record :: records) acc =
       upcoming_loop today records
         (if in_window today a
          then acc ++ [mkentry (value (name record)) (strftime_dmY a)]
          else acc)).
Proof.
  intros Hc.
  destruct (weekend_shift_spec c Hc) as (a & Ha & Hok & Ho & Hs & Hsame).
  assert (Hadj : forall today bd,
             (p <- project today bd;; rollover today p)%err = inr c ->
             adjusted today bd = inr a).
  { intros today bd H. unfold adjusted.
    destruct (project today bd) as [e|p]; cbn [bind] in *; [discriminate|].
    rewrite H. cbn [bind]. exact Ha. }
  exists a. unfold shift_of in *.
  split; [exact Ha|]. split; [exact Hok|]. split; [exact Hs|].
  split; [|split; [|split; [|split]]].
  - intros H5. rewrite H5 in *. cbn in Ho. split; [exact Ho|].
    unfold weekday in *. rewrite Ho. Z.div_mod_to_equations. lia.
  - intros H6. rewrite H6 in *. cbn in Ho. split; [exact Ho|].
    unfold weekday in *. rewrite Ho. Z.div_mod_to_equations. lia.
  - intros N5 N6. apply Hsame.
    destruct (Z.eqb_spec (weekday c) 5); [contradiction|].
    destruct (Z.eqb_spec (weekday c) 6); [contradiction | reflexivity].
  - exact Hadj.
  - intros today record s bd records acc Hv Hp Hr.
    rewrite upcoming_loop_step. unfold examine.
    rewrite Hv, (strptime_nonempty s bd Hp), Hp, (Hadj today bd Hr).
    reflexivity.
Qed.

(** C9: when the book holds a record whose birthday text parses to a
    29 February and the current year is not a leap year, the projection of
    that date onto the current year raises [ValueError], the [try] around
    the parse does not cover it, and the call raises instead of returning:
    that same error, or, in the year 9999 only, the [ValueError] of an
    earlier record whose date could not be moved to the year 10000. *)
Theorem leap_day_birthday_raises (self : AddressBook) (now : datetime)
    (k s : str) (record : RecordT) (bd : datetime) :
  datetime_ok now = true -> is_leap (year now) = false ->
  In (k, record) (data self) ->
  value (birthday record) = Some s -> strptime_dmY s = inr bd ->
  month bd = 2 -> day bd = 29 ->
  project now bd = inl (ValueError msg_day_out_of_range) /\
  (AddressBook_get_upcoming_birthdays self now =
     inl (ValueError msg_day_out_of_range) \/
   year now = 9999 /\
   AddressBook_get_upcoming_birthdays self now =
     inl (ValueError msg_year_10000)).
Proof.
  intros Hnow Hleap Hin Hv Hs Hm Hd.
  destruct (strptime_datetime_ok s bd Hs) as [Hb _].
  assert (Hproj : project now bd = inl (ValueError msg_day_out_of_range)).
  { rewrite (project_cases now bd Hnow Hb).
    rewrite (days_in_month_not_leap _ _ Hleap), Hm, Hd. reflexivity. }
  split; [exact Hproj|].
  assert (Hex : examine now record = Raised (ValueError msg_day_out_of_range)).
  { unfold examine, adjusted.
    rewrite Hv, (strptime_nonempty s bd Hs), Hs, Hproj. reflexivity. }
  assert (Hin' : In record (PyDict.values (data self))).
  { unfold PyDict.values. apply in_map_iff. exists (k, record). auto. }
  unfold AddressBook_get_upcoming_birthdays. cbv zeta.
  destruct (upcoming_loop_raises now _ [] record _ Hin' Hex)
    as (r' & e & _ & He & Hl).
  rewrite Hl.
  destruct (examine_raised now r' e Hnow He) as [-> | [Hy ->]]; auto.
Qed.

(** The result, when the call returns: the reports of the records, in the
    order of the book. *)
Lemma get_upcoming_birthdays_result (self : AddressBook) (now : datetime)
    (res : list entry) :
  AddressBook_get_upcoming_birthdays self now = inr res ->
  res = flat_map (report now) (PyDict.values (data self)) /\
  forall en,
    In en res <->
    exists r a,
      In r (PyDict.values (data self)) /\
      examine now r = Judged a /\ in_window now a = true /\
      en = mkentry (value (name r)) (strftime_dmY a).
Proof.
  unfold AddressBook_get_upcoming_birthdays. cbv zeta. intros H.
  pose proof (upcoming_loop_inr now _ [] res H) as Hno.
  rewrite (upcoming_loop_returns now _ Hno []) in H.
  inversion H as [Hres]. cbn [app]. split; [reflexivity|].
  intros en. rewrite in_flat_map. split.
  - intros (r & Hin & Hen). unfold report in Hen.
    destruct (examine now r) as [|e|a] eqn:Hex; try destruct Hen.
    destruct (in_window now a) eqn:Hw; [|destruct Hen].
    destruct Hen as [<- | []]. exists r, a. auto.
  - intros (r & a & Hin & Hex & Hw & ->). exists r. split; [assumption|].
    unfold report. rewrite Hex, Hw. left. reflexivity.
Qed.

(** The call returns exactly when no record raises. *)
Lemma get_upcoming_birthdays_returns (self : AddressBook) (now : datetime) :
  (exists res, AddressBook_get_upcoming_birthdays self now = inr res) <->
  (forall r e, In r (PyDict.values (data self)) -> examine now r <> Raised e).
Proof.
  unfold AddressBook_get_upcoming_birthdays. cbv zeta. split.
  - intros [res H]. exact (upcoming_loop_inr now _ [] res H).
  - intros H. eexists. apply upcoming_loop_returns. exact H.
Qed.

(* ================================================================== *)
(** ** The time of day of the call *)
(* ================================================================== *)

Lemma datetime_ltb_on_the_day (today p : datetime) :
  time_ok today -> same_date p today -> at_midnight p ->
  (at_midnight today -> datetime_ltb p today = false) /\
  (~ at_midnight today -> datetime_ltb p today = true).
Proof.
  destruct today as [y m d h mi s us], p as [y' m' d' h' mi' s' us'].
  unfold time_ok, same_date, at_midnight, datetime_ltb, fields.
  cbn [year month day hour minute second microsecond tuple_ltb].
  intros (Hh & Hmi & Hs & Hus) (-> & -> & ->) (-> & -> & -> & ->).
  rewrite !Z.ltb_irrefl.
  destruct (Z.ltb_spec 0 h), (Z.ltb_spec h 0), (Z.ltb_spec 0 mi),
    (Z.ltb_spec mi 0), (Z.ltb_spec 0 s), (Z.ltb_spec s 0),
    (Z.ltb_spec 0 us), (Z.ltb_spec us 0);
    split; intros Hz; try reflexivity; try lia; exfalso; apply Hz; lia.
Qed.

(** A birthday that falls on the day of the call is moved to next year
    unless the clock reads midnight exactly. *)
Lemma rollover_on_the_day (today p : datetime) :
  datetime_ok today = true -> same_date p today -> at_midnight p ->
  (at_midnight today -> rollover today p = inr p) /\
  (~ at_midnight today ->
   rollover today p = replace_year p (year today + 1)).
Proof.
  intros Ht Hd Hp. apply datetime_ok_iff in Ht. destruct Ht as (_ & _ & Ht).
  destruct (datetime_ltb_on_the_day today p Ht Hd Hp) as [H0 H1].
  unfold rollover. split; intros H.
  - rewrite (H0 H). reflexivity.
  - rewrite (H1 H). reflexivity.
Qed.

(** The whole days from the call to a date at midnight: the difference of
    the calendar days at midnight, one less at any other time. *)
Lemma days_until_from_clock (today a : datetime) :
  time_ok today -> at_midnight a ->
  (at_midnight today -> days_until today a = toordinal a - toordinal today) /\
  (~ at_midnight today ->
   days_until today a = toordinal a - toordinal today - 1).
Proof.
  unfold time_ok, at_midnight, days_until, datetime_sub, timedelta_new.
  intros (Hh & Hmi & Hs & Hus) (-> & -> & -> & ->). cbn [days].
  split.
  - intros (-> & -> & -> & ->). cbn. lia.
  - intros Hn.
    assert (Hpos : 0 < second today + minute today * 60 + hour today * 3600
                   \/ 0 < microsecond today).
    { destruct (Z.eq_dec (hour today) 0), (Z.eq_dec (minute today) 0),
        (Z.eq_dec (second today) 0), (Z.eq_dec (microsecond today) 0);
        lia. }
    Z.div_mod_to_equations. lia.
Qed.

(* ---------------- regular expressions ---------------- *)

(* ================================================================== *)
(** ** The format %d.%m.%Y *)
(* ================================================================== *)

Lemma in_one (ok : char -> bool) (s p r : str) :
  In (p, r) (one ok s) <-> exists x, s = x :: r /\ p = [x] /\ ok x = true.
Proof.
  unfold one. destruct s as [|c s].
  - split; [intros [] | intros (x & H & _); discriminate].
  - destruct (ok c) eqn:Hc.
    + split.
      * intros [H | []]. inversion H; subst. exists c. auto.
      * intros (x & H & -> & _). inversion H; subst. left. reflexivity.
    + split; [intros [] |].
      intros (x & H & _ & Hx). inversion H; subst. congruence.
Qed.

(** The matcher finds exactly the prefixes the expression denotes. *)
Lemma rmatch_denotes (r : regex) :
  forall s p rest,
    In (p, rest) (rmatch r s) <-> s = p ++ rest /\ denotes r p.
Proof.
  induction r as [c | lo hi | | r1 IH1 r2 IH2 | r1 IH1 r2 IH2];
    intros s p rest; cbn [rmatch denotes].
  - rewrite in_one. split.
    + intros (x & -> & -> & Hx). apply N.eqb_eq in Hx. subst.
      split; reflexivity.
    + intros [-> ->]. exists c. rewrite N.eqb_refl.
      repeat split; reflexivity.
  - rewrite in_one. split.
    + intros (x & -> & -> & Hx). split; [reflexivity | eauto].
    + intros [-> (x & -> & Hx)]. exists x. repeat split; auto.
  - rewrite in_one. split.
    + intros (x & -> & -> & Hx). split; [reflexivity | eauto].
    + intros [-> (x & -> & Hx)]. exists x. repeat split; auto.
  - rewrite in_flat_map. split.
    + intros ([p1 s1] & H1 & H2). apply in_map_iff in H2.
      destruct H2 as ([p2 s2] & Heq & H2). cbn [fst snd] in *.
      inversion Heq; subst. apply IH1 in H1. apply IH2 in H2.
      destruct H1 as [-> D1], H2 as [-> D2].
      split; [rewrite app_assoc; reflexivity | eauto].
    + intros [-> (p1 & p2 & -> & D1 & D2)].
      exists (p1, p2 ++ rest). split.
      * apply IH1. split; [rewrite app_assoc; reflexivity | assumption].
      * apply in_map_iff. exists (p2, rest). cbn [fst snd].
        split; [reflexivity|]. apply IH2. auto.
  - rewrite in_app_iff, IH1, IH2. tauto.
Qed.

Ltac break_denotes :=
  repeat match goal with
         | H : _ \/ _ |- _ => destruct H as [H | H]
         | H : _ /\ _ |- _ => destruct H
         | H : exists _, _ |- _ => destruct H
         end; subst.

Lemma denotes_re_d (p : str) : denotes re_d p <-> day_shape p = true.
Proof.
  unfold re_d. cbn [denotes]. split.
  - intros H. break_denotes; cbn [app day_shape];
      repeat match goal with
             | H : _ = true |- _ => rewrite H; clear H
             end;
      rewrite ?N.eqb_refl; cbn [andb orb]; rewrite ?orb_true_r; reflexivity.
  - destruct p as [|a [|b [|c p]]]; cbn [day_shape]; try discriminate.
    + intros H. right; right; right; left. eauto.
    + rewrite !orb_true_iff, !andb_true_iff, !N.eqb_eq.
      intros [[[[<- H] | [H1 H2]] | [<- H]] | [<- H]].
      * left. exists [c3], [b]. repeat split; eauto.
      * right; left. exists [a], [b]. repeat split; eauto.
      * right; right; left. exists [c0], [b]. repeat split; eauto.
      * right; right; right; right. exists [chr " "], [b]. repeat split; eauto.
Qed.

Lemma denotes_re_m (p : str) : denotes re_m p <-> month_shape p = true.
Proof.
  unfold re_m. cbn [denotes]. split.
  - intros H. break_denotes; cbn [app month_shape];
      repeat match goal with
             | H : _ = true |- _ => rewrite H; clear H
             end;
      rewrite ?N.eqb_refl; cbn [andb orb]; rewrite ?orb_true_r; reflexivity.
  - destruct p as [|a [|b [|c p]]]; cbn [month_shape]; try discriminate.
    + intros H. right; right. eauto.
    + rewrite !orb_true_iff, !andb_true_iff, !N.eqb_eq.
      intros [[<- H] | [<- H]].
      * left. exists [c1], [b]. repeat split; eauto.
      * right; left. exists [c0], [b]. repeat split; eauto.
Qed.

Lemma denotes_re_Y (p : str) : denotes re_Y p <-> year_shape p = true.
Proof.
  unfold re_Y. cbn [denotes]. split.
  - intros H. break_denotes. cbn [app year_shape forallb].
      repeat match goal with
             | H : _ = true |- _ => rewrite H; clear H
             end. reflexivity.
  - destruct p as [|a [|b [|c [|d [|e p]]]]]; cbn [year_shape]; try discriminate.
    cbn [forallb]. rewrite !andb_true_iff. intros (Ha & Hb & Hc & Hd & _).
    exists [a], [b; c; d]. split; [reflexivity|]. split; [eauto|].
    exists [b], [c; d]. split; [reflexivity|]. split; [eauto|].
    exists [c], [d]. split; [reflexivity|]. split; eauto.
Qed.

Lemma in_format_matches (s : str) (f : found) :
  In f (format_matches s) <->
  s = g_d f ++ dot :: g_m f ++ dot :: g_Y f ++ rest f /\
  day_shape (g_d f) = true /\ month_shape (g_m f) = true /\
  year_shape (g_Y f) = true.
Proof.
  unfold format_matches. split.
  - intros H.
    apply in_flat_map in H. destruct H as ([d s1] & Hd & H).
    apply in_flat_map in H. destruct H as ([q1 s2] & H1 & H).
    apply in_flat_map in H. destruct H as ([m s3] & Hm & H).
    apply in_flat_map in H. destruct H as ([q2 s4] & H2 & H).
    apply in_map_iff in H. destruct H as ([y s5] & <- & Hy).
    cbn [fst snd g_d g_m g_Y rest] in *.
    apply rmatch_denotes in Hd, H1, Hm, H2, Hy.
    destruct Hd as [-> Hd], H1 as [-> H1], Hm as [-> Hm], H2 as [-> H2],
      Hy as [-> Hy].
    unfold re_dot in H1, H2. cbn [denotes] in H1, H2. subst q1 q2.
    fold dot.
    apply denotes_re_d in Hd. apply denotes_re_m in Hm.
    apply denotes_re_Y in Hy. auto.
  - destruct f as [d m y r]. cbn [g_d g_m g_Y rest].
    intros (-> & Hd & Hm & Hy).
    apply denotes_re_d in Hd. apply denotes_re_m in Hm.
    apply denotes_re_Y in Hy.
    apply in_flat_map. exists (d, dot :: m ++ dot :: y ++ r).
    split; [apply rmatch_denotes; auto|]. cbn [fst snd].
    apply in_flat_map. exists ([dot], m ++ dot :: y ++ r).
    split; [apply rmatch_denotes; split; reflexivity|]. cbn [fst snd].
    apply in_flat_map. exists (m, dot :: y ++ r).
    split; [apply rmatch_denotes; auto|]. cbn [fst snd].
    apply in_flat_map. exists ([dot], y ++ r).
    split; [apply rmatch_denotes; split; reflexivity|]. cbn [fst snd].
    apply in_map_iff. exists (y, r). cbn [fst snd].
    split; [reflexivity|]. apply rmatch_denotes; auto.
Qed.

Lemma decimal_above_dot (c : char) :
  char_isdecimal c = true -> (48 <= c)%N.
Proof.
  unfold char_isdecimal. intros H. apply in_blocks_iff in H.
  destruct H as (lo & hi & Hin & Hr). simpl in Hin.
  repeat (destruct Hin as [Hin | Hin]; [inversion Hin; subst lo hi; lia |]).
  contradiction.
Qed.

Lemma range_is_ascii_digit (lo hi a : char) :
  (48 <= lo)%N -> (hi <= 57)%N ->
  in_range lo hi a = true -> is_ascii_digit a = true.
Proof.
  intros Hlo Hhi H. apply in_range_iff in H. apply in_range_iff. lia.
Qed.

Lemma range_isdecimal (lo hi a : char) :
  (48 <= lo)%N -> (hi <= 57)%N ->
  in_range lo hi a = true -> char_isdecimal a = true.
Proof.
  intros Hlo Hhi H. apply ascii_digit_isdecimal.
  apply (range_is_ascii_digit lo hi); assumption.
Qed.

(** The characters of a day, month or year text: decimal digits, but for
    the blank that may open a day. *)
Lemma day_shape_chars (d : str) :
  day_shape d = true ->
  forallb char_isdecimal d = true /\ d <> [] \/
  exists a, d = [chr " "; a] /\ char_isdecimal a = true.
Proof.
  destruct d as [|a [|b [|c d]]]; cbn [day_shape]; try discriminate.
  - intros H. left. cbn [forallb].
    rewrite (range_isdecimal c1 c9 a) by (assumption || (vm_compute; discriminate)).
    split; [reflexivity | discriminate].
  - rewrite !orb_true_iff, !andb_true_iff, !N.eqb_eq.
    intros [[[[<- H] | [H1 H2]] | [<- H]] | [<- H]].
    + left. cbn [forallb].
      rewrite (range_isdecimal c0 c1 b) by (assumption || (vm_compute; discriminate)).
      split; [reflexivity | discriminate].
    + left. cbn [forallb]. rewrite H2.
      rewrite (range_isdecimal c1 c2 a) by (assumption || (vm_compute; discriminate)).
      split; [reflexivity | discriminate].
    + left. cbn [forallb].
      rewrite (range_isdecimal c1 c9 b) by (assumption || (vm_compute; discriminate)).
      split; [reflexivity | discriminate].
    + right. exists b. split; [reflexivity|].
      apply (range_isdecimal c1 c9); (assumption || (vm_compute; discriminate)).
Qed.

Lemma month_shape_chars (m : str) :
  month_shape m = true -> forallb char_isdecimal m = true /\ m <> [].
Proof.
  destruct m as [|a [|b [|c m]]]; cbn [month_shape]; try discriminate.
  - intros H. cbn [forallb].
    rewrite (range_isdecimal c1 c9 a) by (assumption || (vm_compute; discriminate)).
    split; [reflexivity | discriminate].
  - rewrite !orb_true_iff, !andb_true_iff, !N.eqb_eq.
    intros [[<- H] | [<- H]]; cbn [forallb].
    + rewrite (range_isdecimal c0 c2 b) by (assumption || (vm_compute; discriminate)).
      split; [reflexivity | discriminate].
    + rewrite (range_isdecimal c1 c9 b) by (assumption || (vm_compute; discriminate)).
      split; [reflexivity | discriminate].
Qed.

Lemma year_shape_chars (y : str) :
  year_shape y = true ->
  forallb char_isdecimal y = true /\ List.length y = 4%nat.
Proof.
  destruct y as [|a [|b [|c [|d [|e y]]]]]; cbn [year_shape]; try discriminate.
  auto.
Qed.

Lemma decimals_no_dot (t : str) :
  forallb char_isdecimal t = true -> ~ In dot t.
Proof.
  rewrite forallb_forall. intros H Hin.
  pose proof (decimal_above_dot dot (H dot Hin)) as Hge.
  vm_compute in Hge. apply Hge. reflexivity.
Qed.

Lemma day_shape_no_dot (d : str) : day_shape d = true -> ~ In dot d.
Proof.
  intros H. destruct (day_shape_chars d H) as [[Hd _] | (a & -> & Ha)].
  - apply decimals_no_dot; assumption.
  - intros [Hin | Hin]; [discriminate|].
    apply (decimals_no_dot [a]); [cbn [forallb]; rewrite Ha; reflexivity|].
    assumption.
Qed.

Lemma month_shape_no_dot (m : str) : month_shape m = true -> ~ In dot m.
Proof.
  intros H. apply decimals_no_dot. apply month_shape_chars; assumption.
Qed.

Lemma split_at_dot (a a' b b' : str) :
  ~ In dot a -> ~ In dot a' ->
  a ++ dot :: b = a' ++ dot :: b' -> a = a' /\ b = b'.
Proof.
  revert a'. induction a as [|x a IH]; intros [|x' a'] Ha Ha' H;
    cbn [app] in H; inversion H; subst.
  - auto.
  - exfalso. apply Ha'. left. reflexivity.
  - exfalso. apply Ha. left. reflexivity.
  - destruct (IH a') as [-> ->]; auto.
    + intros Hin. apply Ha. right. assumption.
    + intros Hin. apply Ha'. right. assumption.
Qed.

Lemma app_same_length {A} (a a' b b' : list A) :
  List.length a = List.length a' -> a ++ b = a' ++ b' -> a = a' /\ b = b'.
Proof.
  revert a'. induction a as [|x a IH]; intros [|x' a'] Hl H;
    try discriminate; cbn [app] in *.
  - auto.
  - inversion H; subst. inversion Hl as [Hl'].
    destruct (IH a' Hl' H2) as [-> ->]. auto.
Qed.

(** The format matches a string in one way at most. *)
Lemma format_matches_unique (s : str) (f f' : found) :
  In f (format_matches s) -> In f' (format_matches s) -> f = f'.
Proof.
  intros H H'. apply in_format_matches in H, H'.
  destruct H as (Hs & Hd & Hm & Hy), H' as (Hs' & Hd' & Hm' & Hy').
  destruct f as [d m y r], f' as [d' m' y' r']. cbn [g_d g_m g_Y rest] in *.
  rewrite Hs in Hs'.
  apply split_at_dot in Hs'; try (apply day_shape_no_dot; assumption).
  destruct Hs' as [-> Hs'].
  apply split_at_dot in Hs'; try (apply month_shape_no_dot; assumption).
  destruct Hs' as [-> Hs'].
  apply app_same_length in Hs'.
  - destruct Hs' as [-> ->]. reflexivity.
  - apply year_shape_chars in Hy, Hy'. destruct Hy as [_ ->], Hy' as [_ ->].
    reflexivity.
Qed.

(* ================================================================== *)
(** ** The numbers of the groups *)
(* ================================================================== *)

Lemma block_value_some (blocks : list (char * char)) (c : char) :
  in_blocks blocks c = true -> exists v, block_value blocks c = Some v.
Proof.
  unfold in_blocks. induction blocks as [|[lo hi] blocks IH];
    cbn [existsb block_value fst snd]; [discriminate|].
  destruct (in_range lo hi c); [eauto | exact IH].
Qed.

Lemma digits_value_fold (t : str) :
  forallb char_isdecimal t = true ->
  forall acc, digits_value acc t = Some (fold_left digit_step t acc).
Proof.
  induction t as [|c t IH]; cbn [forallb digits_value fold_left];
    [reflexivity|].
  rewrite andb_true_iff. intros [Hc Ht] acc.
  destruct (block_value_some decimal_blocks c Hc) as [v Hv].
  unfold digit_step at 2. unfold decimal_value. rewrite Hv. apply IH, Ht.
Qed.

Lemma decimal_not_blank (c : char) :
  char_isdecimal c = true -> is_blank c = false.
Proof.
  intros H. apply decimal_above_dot in H. unfold is_blank.
  destruct (N.eqb_spec c 32%N); [lia|]. cbn [orb].
  destruct (in_range 9%N 13%N c) eqn:Hr; [|reflexivity].
  apply in_range_iff in Hr. lia.
Qed.

Lemma py_int_decimals (t : str) :
  t <> [] -> forallb char_isdecimal t = true -> py_int t = inr (number_of t).
Proof.
  intros Hne Hd. unfold py_int.
  destruct t as [|c t]; [contradiction|].
  pose proof Hd as Hd'. cbn [forallb] in Hd'. apply andb_true_iff in Hd'.
  cbn [lstrip]. rewrite (decimal_not_blank c (proj1 Hd')).
  rewrite (digits_value_fold _ Hd). reflexivity.
Qed.

Lemma py_int_day (d : str) :
  day_shape d = true -> py_int d = inr (number_of d).
Proof.
  intros H. destruct (day_shape_chars d H) as [[Hd Hne] | (a & -> & Ha)].
  - apply py_int_decimals; assumption.
  - unfold py_int. cbn [lstrip].
    change (is_blank (chr " ")) with true. cbv iota.
    rewrite (decimal_not_blank a Ha).
    rewrite (digits_value_fold [a]) by (cbn [forallb]; rewrite Ha; reflexivity).
    reflexivity.
Qed.

(** A text of the three parts is parsed by its parts. *)
Lemma strptime_parts (d m y : str) :
  day_shape d = true -> month_shape m = true -> year_shape y = true ->
  strptime_dmY (d ++ dot :: m ++ dot :: y) =
  if date_ok (number_of y) (number_of m) (number_of d)
  then inr (dt (number_of y) (number_of m) (number_of d))
  else
    match check_date_fields (number_of y) (number_of m) (number_of d) with
    | inl e => inl e
    | inr _ => inr (dt (number_of y) (number_of m) (number_of d))
    end.
Proof.
  intros Hd Hm Hy.
  assert (Hin : In (mkfound d m y []) (format_matches (d ++ dot :: m ++ dot :: y))).
  { apply in_format_matches. cbn [g_d g_m g_Y rest]. rewrite app_nil_r. auto. }
  unfold strptime_dmY.
  destruct (format_matches (d ++ dot :: m ++ dot :: y)) as [|f l] eqn:Hf;
    [destruct Hin|].
  assert (Ef : f = mkfound d m y []).
  { apply (format_matches_unique (d ++ dot :: m ++ dot :: y));
      rewrite Hf; [left; reflexivity | exact Hin]. }
  subst f. cbn [rest g_d g_m g_Y str_bool].
  rewrite (py_int_day d Hd). cbn [bind].
  rewrite (py_int_decimals m) by (apply month_shape_chars; assumption).
  cbn [bind].
  destruct (year_shape_chars y Hy) as [Hyd Hyl].
  rewrite (py_int_decimals y) by (try assumption; destruct y; discriminate).
  cbn [bind].
  destruct (check_date_fields_cases (number_of y) (number_of m) (number_of d))
    as [[Hok H] | [Hok _]]; rewrite Hok.
  - rewrite H. reflexivity.
  - destruct (check_date_fields (number_of y) (number_of m) (number_of d));
      reflexivity.
Qed.

(** [strptime] returns exactly on the accepted texts. *)
Lemma strptime_accepted (s : str) :
  (exists bd, strptime_dmY s = inr bd) <-> accepted_dmY s.
Proof.
  split.
  - intros [bd H]. unfold strptime_dmY in H.
    destruct (format_matches s) as [|f l] eqn:Hf; [discriminate|].
    assert (Hin : In f (format_matches s)) by (rewrite Hf; left; reflexivity).
    apply in_format_matches in Hin. destruct Hin as (Hs & Hd & Hm & Hy).
    destruct (rest f) eqn:Hr; cbn [str_bool] in H; [|discriminate].
    rewrite (py_int_day _ Hd) in H. cbn [bind] in H.
    rewrite (py_int_decimals (g_m f)) in H
      by (apply month_shape_chars; assumption).
    cbn [bind] in H.
    destruct (year_shape_chars _ Hy) as [Hyd Hyl].
    rewrite (py_int_decimals (g_Y f)) in H
      by (try assumption; destruct (g_Y f); discriminate).
    cbn [bind] in H.
    destruct (check_date_fields_cases (number_of (g_Y f)) (number_of (g_m f))
                (number_of (g_d f)))
      as [[Hok _] | [_ [(_ & E) | [(_ & _ & E) | (_ & _ & _ & E)]]]];
      try (rewrite E in H; discriminate).
    exists (g_d f), (g_m f), (g_Y f). rewrite app_nil_r in Hs. auto.
  - intros (d & m & y & -> & Hd & Hm & Hy & Hok).
    rewrite (strptime_parts d m y Hd Hm Hy), Hok. eauto.
Qed.

Lemma strptime_rejected (s : str) :
  ~ accepted_dmY s -> exists msg, strptime_dmY s = inl (ValueError msg).
Proof.
  intros Hn. destruct (strptime_dmY s) as [e|bd] eqn:H.
  - destruct (strptime_ValueError s e H) as [msg ->]. eauto.
  - exfalso. apply Hn. apply strptime_accepted. eauto.
Qed.

(* ================================================================== *)
(** ** Birthday *)
(* ================================================================== *)

Lemma decimal_value_ascii (c : char) :
  is_ascii_digit c = true -> decimal_value c = Some (Z.of_N c - 48).
Proof.
  intros H. unfold decimal_value, decimal_blocks. cbn [block_value].
  change (in_range 48%N 57%N c) with (is_ascii_digit c). rewrite H.
  apply in_range_iff in H. f_equal.
  rewrite N.mod_small by lia. lia.
Qed.

Lemma number_of_two (a b : char) :
  is_ascii_digit a = true -> is_ascii_digit b = true ->
  number_of [a; b] = 10 * (Z.of_N a - 48) + (Z.of_N b - 48).
Proof.
  intros Ha Hb. unfold number_of. cbn [fold_left]. unfold digit_step.
  rewrite (decimal_value_ascii a Ha), (decimal_value_ascii b Hb). lia.
Qed.

Lemma days_in_month_le_31 (y m : Z) : days_in_month y m <= 31.
Proof.
  unfold days_in_month.
  destruct ((m =? 2) && is_leap y)%bool; [lia|].
  destruct m as [|p|p]; cbn; try lia.
  do 4 (try destruct p as [p|p|]; cbn; try lia).
Qed.

Lemma strict_day_shape (a b : char) (y m : Z) :
  is_ascii_digit a = true -> is_ascii_digit b = true ->
  1 <= number_of [a; b] <= days_in_month y m ->
  day_shape [a; b] = true.
Proof.
  intros Ha Hb Hr. rewrite (number_of_two a b Ha Hb) in Hr.
  pose proof (days_in_month_le_31 y m) as H31.
  cbn [day_shape]. rewrite (ascii_digit_isdecimal b Hb).
  apply in_range_iff in Ha, Hb.
  rewrite !orb_true_iff, !andb_true_iff, !N.eqb_eq, !in_range_iff.
  change c0 with 48%N. change c1 with 49%N. change c2 with 50%N.
  change c3 with 51%N. change c9 with 57%N. change (chr " ") with 32%N.
  lia.
Qed.

Lemma strict_month_shape (a b : char) :
  is_ascii_digit a = true -> is_ascii_digit b = true ->
  1 <= number_of [a; b] <= 12 ->
  month_shape [a; b] = true.
Proof.
  intros Ha Hb Hr. rewrite (number_of_two a b Ha Hb) in Hr.
  cbn [month_shape]. apply in_range_iff in Ha, Hb.
  rewrite !orb_true_iff, !andb_true_iff, !N.eqb_eq, !in_range_iff.
  change c0 with 48%N. change c1 with 49%N. change c2 with 50%N.
  change c9 with 57%N.
  lia.
Qed.

(** Every strict DD.MM.YYYY text of a date of the calendar is accepted. *)
Lemma strict_valid_accepted (s : str) :
  strict_valid s = true -> accepted_dmY s.
Proof.
  unfold strict_valid, strict_dmY.
  destruct s as [|d1 [|d2 [|p1 [|m1 [|m2 [|p2 [|y1 [|y2 [|y3 [|y4 [|z s]]]]]]]]]]];
    try discriminate.
  cbn [day_part month_part year_part firstn skipn forallb].
  rewrite !andb_true_iff, !N.eqb_eq.
  intros [[[(D1 & D2 & M1 & M2 & Y1 & Y2 & Y3 & Y4 & _) P1] P2] Hok].
  subst p1 p2. pose proof (proj1 (date_ok_iff _ _ _) Hok) as (Hy & Hm & Hd).
  exists [d1; d2], [m1; m2], [y1; y2; y3; y4].
  split; [reflexivity|].
  split; [eapply strict_day_shape; eassumption|].
  split; [apply strict_month_shape; assumption|].
  split; [|exact Hok].
  cbn [year_shape forallb].
  rewrite !ascii_digit_isdecimal by assumption. reflexivity.
Qed.

Lemma Birthday_init_cases (s : str) :
  s <> [] ->
  Birthday_init (Some s) =
  match strptime_dmY s with
  | inl _ => inl (ValueError birthday_msg)
  | inr _ => inr (mkField (Some s))
  end.
Proof.
  intros Hne. unfold Birthday_init.
  destruct s as [|c s]; [contradiction|]. cbn [str_bool].
  destruct (strptime_dmY (c :: s)) as [e|bd] eqn:H; [|reflexivity].
  destruct (strptime_ValueError _ e H) as [msg ->]. reflexivity.
Qed.

(** C5 as the specification words it fails: "1.2.2000" is not of the shape
    two digits, two digits, four digits, yet [Birthday] takes it. *)
Lemma Birthday_init_accepts_short_day_month :
  strict_dmY (lit "1.2.2000") = false /\
  Birthday_init (Some (lit "1.2.2000")) = inr (mkField (Some (lit "1.2.2000"))).
Proof. split; vm_compute; reflexivity. Qed.

(** C5, amended: [Birthday(raw)] gives the no-birthday value when [raw]
    is [None] or empty; for a non-empty [raw] it succeeds, keeping [raw],
    exactly when [raw] is a day, a dot, a month, a dot and a year as
    [strptime] reads them with "%d.%m.%Y" (a day of one or two digits, a
    month of one or two digits, a year of exactly four digits) denoting a
    date of the calendar in the years 0001 to 9999; every text of the
    strict shape DD.MM.YYYY denoting such a date is among them; any other
    non-empty text, such as 31.02.2000, is refused with the [ValueError]
    of the class. *)
Theorem Birthday_init_accepted (s : str) :
  (Birthday_init None = inr (mkField None) /\
   Birthday_init (Some []) = inr (mkField (Some [])) /\
   Birthday_repr (mkField None) = lit "No birthday" /\
   Birthday_repr (mkField (Some [])) = lit "No birthday") /\
  (s <> [] ->
   (Birthday_init (Some s) = inr (mkField (Some s)) <-> accepted_dmY s) /\
   (~ accepted_dmY s ->
    Birthday_init (Some s) = inl (ValueError birthday_msg))) /\
  (strict_valid s = true ->
   Birthday_init (Some s) = inr (mkField (Some s))) /\
  Birthday_init (Some (lit "31.02.2000")) = inl (ValueError birthday_msg).
Proof.
  split; [repeat split|]. split; [|split; [|reflexivity]].
  - intros Hne. rewrite (Birthday_init_cases s Hne). split.
    + split.
      * destruct (strptime_dmY s) as [e|bd] eqn:H; [discriminate|].
        intros _. apply strptime_accepted. eauto.
      * intros Ha. apply strptime_accepted in Ha. destruct Ha as [bd ->].
        reflexivity.
    + intros Hn. destruct (strptime_rejected s Hn) as [msg ->]. reflexivity.
  - intros Hs. pose proof (strict_valid_accepted s Hs) as Ha.
    assert (Hne : s <> []) by (intros ->; discriminate).
    rewrite (Birthday_init_cases s Hne).
    apply strptime_accepted in Ha. destruct Ha as [bd ->]. reflexivity.
Qed.

(** The window of the query in calendar days: today to today + 7 when
    the clock reads midnight, today + 1 to today + 8 at any other time. *)
Lemma in_window_calendar_days (today a : datetime) :
  time_ok today -> at_midnight a ->
  (at_midnight today ->
   (in_window today a = true <->
    0 <= toordinal a - toordinal today <= 7)) /\
  (~ at_midnight today ->
   (in_window today a = true <->
    1 <= toordinal a - toordinal today <= 8)).
Proof.
  intros Ht Ha.
  destruct (days_until_from_clock today a Ht Ha) as [H0 H1].
  unfold in_window. rewrite andb_true_iff, !Z.leb_le.
  split; intros Hm; [rewrite (H0 Hm) | rewrite (H1 Hm)]; lia.
Qed.

(** The date a record is judged by is a date of the calendar at
    midnight. *)
Lemma adjusted_at_midnight (today bd a : datetime) :
  datetime_ok today = true -> datetime_ok bd = true -> at_midnight bd ->
  adjusted today bd = inr a -> datetime_ok a = true /\ at_midnight a.
Proof.
  intros Ht Hb Hmid. unfold adjusted.
  rewrite (project_cases today bd Ht Hb).
  destruct (Z.leb_spec (day bd) (days_in_month (year today) (month bd)));
    cbn [bind]; [|discriminate].
  pose proof (proj1 (datetime_ok_iff today) Ht) as (Hty & _ & _).
  assert (Hp : datetime_ok (with_year bd (year today)) = true)
    by (apply with_year_ok; assumption).
  assert (Hshift : forall c, datetime_ok c = true -> at_midnight c ->
            weekend_shift c = inr a -> datetime_ok a = true /\ at_midnight a).
  { intros c Hc Hcm Hw.
    destruct (weekend_shift_spec c Hc) as (a' & Ha' & Hok & _ & Hs & _).
    rewrite Ha' in Hw. inversion Hw; subst a'.
    split; [exact Hok|]. unfold at_midnight, same_time in *.
    destruct Hs as (-> & -> & -> & ->). exact Hcm. }
  destruct (rollover_cases today (with_year bd (year today)) Ht Hp eq_refl)
    as [[_ Hr] | [_ [[Hr Hok] | [[Hr _] | [Hr Hy]]]]]; rewrite Hr; cbn [bind];
    try discriminate.
  - apply Hshift; [exact Hp | exact Hmid].
  - apply Hshift; [exact Hok | exact Hmid].
Qed.

(* ================================================================== *)
(** ** The birthday query on sample books *)
(* ================================================================== *)

(** A Saturday: 15.06.2024 is moved to Monday 17.06.2024. *)
Lemma weekend_shift_once_saturday :
  datetime_ok (dt 2024 6 15) = true /\
  weekday (dt 2024 6 15) = 5 /\
  exists a,
    weekend_shift (dt 2024 6 15) = inr a /\
    toordinal a = toordinal (dt 2024 6 15) + 2 /\ weekday a = 0.
Proof.
  assert (Hok : datetime_ok (dt 2024 6 15) = true) by reflexivity.
  assert (H5 : weekday (dt 2024 6 15) = 5) by reflexivity.
  split; [exact Hok|]. split; [exact H5|].
  destruct (weekend_shift_once (dt 2024 6 15) Hok)
    as (a & Ha & _ & _ & Hsat & _).
  exists a. split; [exact Ha|]. exact (Hsat H5).
Defined.

(** A book with a birthday on 29 February, asked in 2023. *)
Lemma leap_day_birthday_raises_in_2023 :
  let leo := record_of (lit "Leo") [] (Some (lit "29.02.2000")) in
  let book := book_of [record_of (lit "Ann") [] (Some (lit "12.06.1990")); leo] in
  datetime_ok (dt 2023 6 10) = true /\
  is_leap 2023 = false /\
  strptime_dmY (lit "29.02.2000") = inr (dt 2000 2 29) /\
  AddressBook_get_upcoming_birthdays book (dt 2023 6 10) =
  inl (ValueError msg_day_out_of_range).
Proof.
  intros leo book.
  assert (Hok : datetime_ok (dt 2023 6 10) = true) by reflexivity.
  assert (Hl : is_leap (year (dt 2023 6 10)) = false) by reflexivity.
  assert (Hs : strptime_dmY (lit "29.02.2000") = inr (dt 2000 2 29))
    by (vm_compute; reflexivity).
  assert (Hin : In (lit "Leo", leo) (data book))
    by (right; left; reflexivity).
  split; [exact Hok|]. split; [exact Hl|]. split; [exact Hs|].
  destruct (leap_day_birthday_raises book (dt 2023 6 10) (lit "Leo")
              (lit "29.02.2000") leo (dt 2000 2 29)
              Hok Hl Hin eq_refl Hs eq_refl eq_refl)
    as [_ [H | [Hy _]]]; [exact H | discriminate Hy].
Defined.

(** C1, where the code departs from the specification: at half past two in the
    afternoon of 10.06.2024 a birthday of 10.06.1990 is projected onto
    10.06.2024, the day of the call, and is then moved to 10.06.2025,
    because midnight of that day is before the time of the call; the
    record is not reported. *)
Theorem rollover_moves_birthday_of_today :
  strptime_dmY (lit "10.06.1990") = inr (dt 1990 6 10) /\
  project monday_afternoon (dt 1990 6 10) = inr (dt 2024 6 10) /\
  same_date (dt 2024 6 10) monday_afternoon /\
  rollover monday_afternoon (dt 2024 6 10) = inr (dt 2025 6 10) /\
  rollover (dt 2024 6 10) (dt 2024 6 10) = inr (dt 2024 6 10) /\
  AddressBook_get_upcoming_birthdays
    (book_of [record_of (lit "Ann") [] (Some (lit "10.06.1990"))])
    monday_afternoon = inr [].
Proof.
  split; [vm_compute; reflexivity|].
  split; [reflexivity|].
  split; [repeat split|].
  split; [reflexivity|].
  split; [reflexivity|].
  vm_compute; reflexivity.
Qed.

(** C3, where the code departs from the specification.  In 2023 Ann's birthday
    of 12.06 is two days after 10.06 and she alone would be reported, but
    with Leo's 29.02.2000 in the book the call raises and reports nobody.
    At half past two in the afternoon of 10.06.2024, Ann's birthday of
    10.06 is not reported, and Bob's of 18.06, eight calendar days later,
    is. *)
Theorem get_upcoming_birthdays_departures :
  let ann := record_of (lit "Ann") [] (Some (lit "12.06.1990")) in
  let leo := record_of (lit "Leo") [] (Some (lit "29.02.2000")) in
  let ann' := record_of (lit "Ann") [] (Some (lit "10.06.1990")) in
  let bob := record_of (lit "Bob") [] (Some (lit "18.06.1990")) in
  (report (dt 2023 6 10) ann = [mkentry (lit "Ann") (lit "12.06.2023")] /\
   AddressBook_get_upcoming_birthdays (book_of [ann]) (dt 2023 6 10) =
     inr [mkentry (lit "Ann") (lit "12.06.2023")] /\
   AddressBook_get_upcoming_birthdays (book_of [ann; leo]) (dt 2023 6 10) =
     inl (ValueError msg_day_out_of_range)) /\
  (AddressBook_get_upcoming_birthdays (book_of [ann'; bob]) monday_afternoon =
     inr [mkentry (lit "Bob") (lit "18.06.2024")] /\
   toordinal (dt 2024 6 10) - toordinal monday_afternoon = 0 /\
   toordinal (dt 2024 6 18) - toordinal monday_afternoon = 8 /\
   AddressBook_get_upcoming_birthdays (book_of [ann'; bob]) (dt 2024 6 10) =
     inr [mkentry (lit "Ann") (lit "10.06.2024")]).
Proof.
  intros ann leo ann' bob.
  split; [split; [|split] | split; [|split; [|split]]];
    vm_compute; reflexivity.
Qed.

(** The example of the specification: on Monday 10.06.2024 a birthday of
    12.06 is reported as 12.06.2024 and one of 15.06, a Saturday, as
    17.06.2024; a record without a birthday is not reported. *)
Lemma get_upcoming_birthdays_example :
  AddressBook_get_upcoming_birthdays
    (book_of [record_of (lit "Ann") [] (Some (lit "12.06.1990"));
              record_of (lit "Bob") [] (Some (lit "15.06.1985"));
              record_of (lit "Cid") [] None])
    monday_afternoon =
  inr [mkentry (lit "Ann") (lit "12.06.2024");
       mkentry (lit "Bob") (lit "17.06.2024")].
Proof. vm_compute; reflexivity. Qed.

(* ================================================================== *)
(** ** Record: adding, removing and finding a phone *)
(* ================================================================== *)

Lemma find_first_app_new (m : str) (l : list Phone) (p : Phone) :
  find_first m (l ++ [p]) =
  match find_first m l with
  | Some q => Some q
  | None => if str_eqb (value p) m then Some p else None
  end.
Proof.
  induction l as [|q l IH]; cbn [app find_first]; [reflexivity|].
  destruct (str_eqb (value q) m); [reflexivity | exact IH].
Qed.

Lemma find_first_value (m : str) (l : list Phone) (p : Phone) :
  find_first m l = Some p -> value p = m /\ In p l.
Proof.
  induction l as [|q l IH]; cbn [find_first]; [discriminate|].
  destruct (str_eqb (value q) m) eqn:Hq.
  - intros H. inversion H; subst. apply str_eqb_eq in Hq. split; [assumption | left; reflexivity].
  - intros H. destruct (IH H). split; [assumption | right; assumption].
Qed.

Lemma Record_add_phone_cases (number : str) (self : RecordT) :
  Record_add_phone number self =
  if ten_unicode_digits number
  then (inr tt, set_phones (phones self ++ [mkField number]) self)
  else (inl (ValueError phone_msg), self).
Proof.
  unfold Record_add_phone, mbind, mlift, mget, mput.
  rewrite Phone_init_cases. destruct (ten_unicode_digits number); reflexivity.
Qed.

(** X1: [Record.add_phone] with a number [Phone] accepts appends one phone
    holding that number at the end of the list and leaves the name and
    the birthday alone; afterwards the number is found, and the search
    for any other number gives what it gave before.  With a number
    [Phone] refuses, it raises the [ValueError] of [Phone] and the record
    is as it was. *)
Theorem add_phone_appends (self : RecordT) (number : str) :
  (ten_unicode_digits number = true ->
   exists self',
     Record_add_phone number self = (inr tt, self') /\
     phones self' = phones self ++ [mkField number] /\
     name self' = name self /\ birthday self' = birthday self /\
     (exists p, find_first number (phones self') = Some p /\ value p = number) /\
     (forall m, m <> number ->
        find_first m (phones self') = find_first m (phones self))) /\
  (ten_unicode_digits number = false ->
   Record_add_phone number self = (inl (ValueError phone_msg), self)).
Proof.
  rewrite Record_add_phone_cases. split; intros H; rewrite H; [|reflexivity].
  eexists. split; [reflexivity|]. cbn [set_phones phones name birthday].
  repeat split.
  - rewrite find_first_app_new. cbn [value].
    destruct (find_first number (phones self)) as [q|] eqn:Hq.
    + exists q. split; [reflexivity|]. apply (find_first_value _ _ _ Hq).
    + rewrite str_eqb_refl. eexists. split; reflexivity.
  - intros m Hm. rewrite find_first_app_new. cbn [value].
    destruct (find_first m (phones self)); [reflexivity|].
    assert (Hf : str_eqb number m = false) by (apply str_eqb_neq; congruence).
    rewrite Hf. reflexivity.
Qed.

Lemma Record_remove_phone_cases (number : str) (self : RecordT) :
  Record_remove_phone number self =
  match remove_first number (phones self) with
  | Some l' => (inr true, set_phones l' self)
  | None => (inr false, self)
  end.
Proof.
  unfold Record_remove_phone, mbind, mget, mput, mret.
  destruct (remove_first number (phones self)); reflexivity.
Qed.

(** X2: [Record.remove_phone] takes out the first phone holding the
    number, and only that one, and returns [True]; every other phone stays
    in its place, and the name and the birthday are untouched.  When no
    phone holds the number it returns [False] and the record is as it
    was; it never raises. *)
Theorem remove_phone_first_only (self : RecordT) (number : str) :
  (In number (map value (phones self)) ->
   exists l1 p l2 self',
     phones self = l1 ++ p :: l2 /\ value p = number /\
     ~ In number (map value l1) /\
     Record_remove_phone number self = (inr true, self') /\
     phones self' = l1 ++ l2 /\
     name self' = name self /\ birthday self' = birthday self) /\
  (~ In number (map value (phones self)) ->
   Record_remove_phone number self = (inr false, self)).
Proof.
  rewrite Record_remove_phone_cases. split; intros H.
  - destruct (remove_first_Some number (phones self) H)
      as (l1 & p & l2 & Heq & Hv & Hn & Hr).
    exists l1, p, l2. rewrite Hr. eexists. repeat split; eauto.
  - apply remove_first_None in H. rewrite H. reflexivity.
Qed.

Lemma set_phones_same (self : RecordT) : set_phones (phones self) self = self.
Proof. destruct self; reflexivity. Qed.

Lemma remove_first_app_fresh (number : str) (l : list Phone) (p : Phone) :
  ~ In number (map value l) -> value p = number ->
  remove_first number (l ++ [p]) = Some l.
Proof.
  intros Hn Hp. induction l as [|q l IH]; cbn [app remove_first].
  - rewrite Hp, str_eqb_refl. reflexivity.
  - cbn [map] in Hn.
    assert (Hq : str_eqb (value q) number = false)
      by (apply str_eqb_neq; intros E; apply Hn; left; exact E).
    rewrite Hq, IH; [reflexivity|]. intros H. apply Hn. right. exact H.
Qed.

(** X3: adding a valid number and then removing it.  On a record that
    did not hold the number, the record is back as it was.  On a record
    that held it, the first old occurrence is the one taken out, and the
    new phone stays at the end of the list. *)
Theorem add_then_remove_phone (self : RecordT) (number : str) :
  ten_unicode_digits number = true ->
  (~ In number (map value (phones self)) ->
   (Record_add_phone number;; Record_remove_phone number)%meth self =
   (inr true, self)) /\
  (In number (map value (phones self)) ->
   exists l1 p l2 self',
     phones self = l1 ++ p :: l2 /\ value p = number /\
     ~ In number (map value l1) /\
     (Record_add_phone number;; Record_remove_phone number)%meth self =
     (inr true, self') /\
     phones self' = l1 ++ l2 ++ [mkField number]).
Proof.
  intros Hv. unfold mbind. rewrite Record_add_phone_cases, Hv.
  cbv beta iota. rewrite Record_remove_phone_cases.
  cbn [set_phones phones name birthday].
  split; intros H.
  - pose proof (remove_first_app_fresh number (phones self) (mkField number)
                  H eq_refl) as E.
    unfold Phone in *. rewrite E. destruct self; reflexivity.
  - destruct (remove_first_Some number (phones self) H)
      as (l1 & p & l2 & Heq & Hp & Hn & Hr).
    pose proof (remove_first_app_new number _ _ (mkField number) Hr) as E.
    unfold Phone in *. rewrite E.
    exists l1, p, l2. eexists. repeat split; eauto.
    cbn [phones]. rewrite <- app_assoc. reflexivity.
Qed.

Lemma add_then_remove_phone_example :
  ten_unicode_digits (lit "5555555555") = true /\
  (Record_add_phone (lit "5555555555");;
   Record_remove_phone (lit "5555555555"))%meth
    (record_of (lit "John") [lit "1234567890"] None) =
  (inr true, record_of (lit "John") [lit "1234567890"] None).
Proof.
  assert (H : ten_unicode_digits (lit "5555555555") = true) by reflexivity.
  split; [exact H|].
  apply (add_then_remove_phone
           (record_of (lit "John") [lit "1234567890"] None) _ H).
  cbv. intros [E | []]. discriminate E.
Defined.

(** X4: [Record.find_phone] leaves the record as it is and returns the
    first phone holding the number, a value that is true where
    [edit_phone] tests it, or [None] when no phone holds the number. *)
Theorem find_phone_first (self : RecordT) (number : str) :
  exists found,
    Record_find_phone number self = (inr found, self) /\
    (In number (map value (phones self)) ->
     exists l1 p l2,
       phones self = l1 ++ p :: l2 /\ value p = number /\
       ~ In number (map value l1) /\ found = Some p /\
       opt_bool found = true) /\
    (~ In number (map value (phones self)) ->
     found = None /\ opt_bool found = false).
Proof.
  exists (find_first number (phones self)).
  split; [reflexivity|]. split.
  - generalize (phones self) as l.
    induction l as [|q l IH]; [intros []|].
    cbn [map In find_first]. intros Hin.
    destruct (str_eqb (value q) number) eqn:Heq.
    + apply str_eqb_eq in Heq. exists [], q, l. cbn. auto.
    + apply str_eqb_neq in Heq.
      destruct Hin as [Hin | Hin]; [contradiction|].
      destruct (IH Hin) as (l1 & p & l2 & -> & Hp & Hn & Hf & Hb).
      exists (q :: l1), p, l2. cbn [app map In].
      repeat split; auto. intros [H | H]; auto.
  - intros Hn. apply find_first_None in Hn. rewrite Hn. auto.
Qed.

(* ================================================================== *)
(** ** Record.add_birthday and the value of a Birthday *)
(* ================================================================== *)

Lemma Record_add_birthday_cases (v : option str) (self : RecordT) :
  Record_add_birthday v self =
  match Birthday_init v with
  | inr b => (inr tt, set_birthday b self)
  | inl e => (inl e, self)
  end.
Proof.
  unfold Record_add_birthday, mbind, mlift, mget, mput.
  destruct (Birthday_init v); reflexivity.
Qed.

(** X5: [Record.add_birthday] stores [None] and the empty string
    without parsing anything; it stores a non-empty text [strptime]
    accepts, replacing the birthday the record had; and on a non-empty
    text [strptime] rejects it raises the [ValueError] of [Birthday] and
    leaves the record, with the birthday it had, as it was. *)
Theorem add_birthday_replaces (self : RecordT) (s : str) :
  Record_add_birthday None self = (inr tt, set_birthday (mkField None) self) /\
  Record_add_birthday (Some []) self =
    (inr tt, set_birthday (mkField (Some [])) self) /\
  (s <> [] -> accepted_dmY s ->
   Record_add_birthday (Some s) self =
   (inr tt, set_birthday (mkField (Some s)) self)) /\
  (s <> [] -> ~ accepted_dmY s ->
   Record_add_birthday (Some s) self = (inl (ValueError birthday_msg), self)).
Proof.
  split; [reflexivity|]. split; [reflexivity|].
  rewrite Record_add_birthday_cases. split; intros Hne Ha;
    rewrite (Birthday_init_cases s Hne).
  - apply strptime_accepted in Ha. destruct Ha as [bd ->]. reflexivity.
  - destruct (strptime_rejected s Ha) as [msg ->]. reflexivity.
Qed.

(** X6: what a constructed [Birthday] holds.  The value is the
    argument, verbatim.  A value that is false ([None] or the empty
    string) is printed by [__repr__] as "No birthday", and the birthday
    query passes over a record with it.  A value that is true is printed
    as it is, and [strptime] parses it to a valid date at midnight, so
    the parse in [get_upcoming_birthdays] cannot fail on it. *)
Theorem birthday_value_parses (v : option str) (b : Birthday) :
  Birthday_init v = inr b ->
  value b = v /\
  (opt_str_bool v = false -> Birthday_repr b = lit "No birthday") /\
  (opt_str_bool v = true ->
   Birthday_repr b = the_str v /\
   exists bd,
     strptime_dmY (the_str v) = inr bd /\
     datetime_ok bd = true /\ at_midnight bd) /\
  (forall today r,
     birthday r = b ->
     (examine today r = Skipped <-> opt_str_bool v = false)).
Proof.
  intros H.
  assert (Hv : value b = v).
  { unfold Birthday_init in H. destruct v as [s|]; [|inversion H; reflexivity].
    destruct (str_bool s); [|inversion H; reflexivity].
    destruct (strptime_dmY s) as [[m|m]|bd]; inversion H; reflexivity. }
  assert (Hp : opt_str_bool v = true ->
               exists bd, strptime_dmY (the_str v) = inr bd /\
                          datetime_ok bd = true /\ at_midnight bd).
  { intros Ht. destruct v as [s|]; [|discriminate]. cbn in Ht. cbn [the_str].
    unfold Birthday_init in H. rewrite Ht in H.
    destruct (strptime_dmY s) as [[m|m]|bd] eqn:Hs; try discriminate.
    exists bd. split; [reflexivity|]. apply (strptime_datetime_ok s bd Hs). }
  split; [exact Hv|]. split; [|split].
  - intros Hf. unfold Birthday_repr. rewrite Hv, Hf. reflexivity.
  - intros Ht. split; [|exact (Hp Ht)].
    unfold Birthday_repr. rewrite Hv, Ht. destruct v; [reflexivity | discriminate].
  - intros today r Hr. unfold examine. rewrite Hr, Hv.
    destruct v as [s|]; cbn [opt_str_bool]; [|tauto].
    destruct (str_bool s) eqn:Hb; [|tauto].
    destruct (Hp Hb) as (bd & Hs & _). cbn [the_str] in Hs. rewrite Hs.
    destruct (adjusted today bd); split; discriminate.
Qed.

Lemma birthday_value_parses_example :
  Birthday_init (Some (lit "15.06.1990")) =
    inr (mkField (Some (lit "15.06.1990"))) /\
  exists bd,
    strptime_dmY (lit "15.06.1990") = inr bd /\
    datetime_ok bd = true /\ at_midnight bd.
Proof.
  assert (H : Birthday_init (Some (lit "15.06.1990")) =
              inr (mkField (Some (lit "15.06.1990"))))
    by (vm_compute; reflexivity).
  split; [exact H|].
  destruct (birthday_value_parses _ _ H) as (_ & _ & Hp & _).
  destruct (Hp eq_refl) as (_ & bd & Hbd). exists bd. exact Hbd.
Defined.

(* ================================================================== *)
(** ** AddressBook: the dict of records *)
(* ================================================================== *)

Lemma get_set_other {V} (k k' : str) (v : V) (d : PyDict.dict V) :
  k' <> k -> PyDict.get k' (PyDict.set k v d) = PyDict.get k' d.
Proof.
  intros Hne. induction d as [|[k0 v0] d IH]; cbn [PyDict.set PyDict.get].
  - assert (Hf : str_eqb k k' = false) by (apply str_eqb_neq; congruence).
    rewrite Hf. reflexivity.
  - destruct (str_eqb k0 k) eqn:H0; cbn [PyDict.get].
    + apply str_eqb_eq in H0. subst k0.
      assert (Hf : str_eqb k k' = false) by (apply str_eqb_neq; congruence).
      rewrite Hf. reflexivity.
    + destruct (str_eqb k0 k'); [reflexivity | exact IH].
Qed.

Lemma set_present_keys {V} (k : str) (v : V) (d : PyDict.dict V) :
  In k (PyDict.keys d) ->
  PyDict.keys (PyDict.set k v d) = PyDict.keys d /\
  List.length (PyDict.set k v d) = List.length d.
Proof.
  induction d as [|[k0 v0] d IH]; cbn [PyDict.set PyDict.keys map fst];
    [intros []|].
  intros Hin. destruct (str_eqb k0 k) eqn:H0; cbn [PyDict.keys map fst length].
  - split; reflexivity.
  - apply str_eqb_neq in H0. destruct Hin as [E | Hin]; [contradiction|].
    destruct (IH Hin) as [Hk Hl]. unfold PyDict.keys in Hk.
    split; [f_equal; exact Hk | simpl; apply (f_equal S); exact Hl].
Qed.

Lemma set_absent {V} (k : str) (v : V) (d : PyDict.dict V) :
  ~ In k (PyDict.keys d) -> PyDict.set k v d = d ++ [(k, v)].
Proof.
  induction d as [|[k0 v0] d IH]; cbn [PyDict.set PyDict.keys map fst app];
    [reflexivity|].
  intros Hn.
  assert (H0 : str_eqb k0 k = false) by (apply str_eqb_neq; intros E; apply Hn; left; exact E).
  rewrite H0, IH; [reflexivity|]. intros H. apply Hn. right. exact H.
Qed.

(** X7: [AddressBook.add_record] never raises; afterwards [find] on the
    name of the record returns that record, and [find] on any other name
    returns what it returned before.  A name already in the book keeps
    its place among the keys (the record under it is replaced); a new
    name goes to the end. *)
Theorem add_record_then_find (self : AddressBook) (record : RecordT) :
  exists self',
    AddressBook_add_record record self = (inr tt, self') /\
    fst (AddressBook_find (value (name record)) self') = inr (Some record) /\
    (forall n, n <> value (name record) ->
       fst (AddressBook_find n self') = fst (AddressBook_find n self)) /\
    (In (value (name record)) (PyDict.keys (data self)) ->
     PyDict.keys (data self') = PyDict.keys (data self)) /\
    (~ In (value (name record)) (PyDict.keys (data self)) ->
     data self' = data self ++ [(value (name record), record)]).
Proof.
  eexists. split; [reflexivity|].
  unfold AddressBook_find, mbind, mget, mret. cbn [fst data].
  split; [rewrite get_set_same; reflexivity|].
  split; [intros n Hn; rewrite (get_set_other _ n _ _ Hn); reflexivity|].
  split.
  - intros H. apply set_present_keys. exact H.
  - intros H. apply set_absent. exact H.
Qed.

Lemma get_In {V} (k : str) (v : V) (d : PyDict.dict V) :
  PyDict.get k d = Some v -> In (k, v) d.
Proof.
  induction d as [|[k0 v0] d IH]; cbn [PyDict.get]; [discriminate|].
  destruct (str_eqb k0 k) eqn:H0.
  - apply str_eqb_eq in H0. intros H. inversion H; subst. left. reflexivity.
  - intros H. right. apply IH. exact H.
Qed.

Lemma set_Forall {V} (P : str * V -> Prop) (k : str) (v : V) (d : PyDict.dict V) :
  P (k, v) -> Forall P d -> Forall P (PyDict.set k v d).
Proof.
  intros Hk. induction d as [|[k0 v0] d IH]; cbn [PyDict.set].
  - intros _. constructor; [exact Hk | constructor].
  - intros H. inversion H as [|? ? H0 Hd]; subst.
    destruct (str_eqb k0 k) eqn:E.
    + apply str_eqb_eq in E. subst k0. constructor; assumption.
    + constructor; [assumption | apply IH; assumption].
Qed.

Lemma del_Forall {V} (P : str * V -> Prop) (k : str) (d : PyDict.dict V) :
  Forall P d -> Forall P (PyDict.del k d).
Proof.
  unfold PyDict.del. rewrite !Forall_forall. intros H x Hx.
  apply filter_In in Hx. apply H, Hx.
Qed.

Lemma book_inv_empty : book_inv (mkAddressBook []).
Proof. split; constructor. Qed.

Lemma book_inv_set (b : AddressBook) (r : RecordT) :
  book_inv b ->
  book_inv (mkAddressBook (PyDict.set (value (name r)) r (data b))).
Proof.
  intros [Hn Hf]. split; cbn [data].
  - apply set_keys_NoDup. exact Hn.
  - apply set_Forall; [reflexivity | exact Hf].
Qed.

(** X8: on a book whose keys are pairwise distinct and where every
    record is stored under its own name, [add_record] and [delete] (also
    when it raises) give a book of that kind again, and [find] returns
    only records whose name is the name asked for. *)
Theorem book_inv_kept (self : AddressBook) :
  book_inv self ->
  (forall record, book_inv (snd (AddressBook_add_record record self))) /\
  (forall n, book_inv (snd (AddressBook_delete n self))) /\
  (forall n record,
     fst (AddressBook_find n self) = inr (Some record) ->
     value (name record) = n).
Proof.
  intros Hinv. split; [|split].
  - intros record. apply book_inv_set. exact Hinv.
  - intros n. unfold AddressBook_delete, mbind, mget, mput, mraise.
    destruct (PyDict.contains n (data self)); cbn [snd]; [|exact Hinv].
    destruct Hinv as [Hn Hf]. split; cbn [data].
    + apply del_keys_NoDup. exact Hn.
    + apply del_Forall. exact Hf.
  - intros n record H. unfold AddressBook_find, mbind, mget, mret in H.
    cbn [fst] in H. inversion H as [Hg]. apply get_In in Hg.
    destruct Hinv as [_ Hf]. rewrite Forall_forall in Hf.
    specialize (Hf _ Hg). cbn in Hf. congruence.
Qed.

Lemma book_inv_kept_example :
  book_inv (book_of [record_of (lit "John") [] None;
                     record_of (lit "Ann") [] None]) /\
  book_inv (snd (AddressBook_delete (lit "John")
                   (book_of [record_of (lit "John") [] None;
                             record_of (lit "Ann") [] None]))).
Proof.
  assert (H : book_inv (book_of [record_of (lit "John") [] None;
                                 record_of (lit "Ann") [] None])).
  { split.
    - cbv. repeat constructor; intros H;
        repeat (destruct H as [H | H]; [discriminate H|]); exact H.
    - repeat constructor. }
  split; [exact H|].
  exact (proj1 (proj2 (book_inv_kept _ H)) (lit "John")).
Defined.

Lemma del_absent {V} (k : str) (d : PyDict.dict V) :
  ~ In k (PyDict.keys d) -> PyDict.del k d = d.
Proof.
  induction d as [|[k0 v0] d IH]; cbn [PyDict.del filter PyDict.keys map fst];
    [reflexivity|].
  intros Hn.
  assert (H0 : str_eqb k0 k = false) by (apply str_eqb_neq; intros E; apply Hn; left; exact E).
  cbn [fst]. rewrite H0. cbn [negb]. f_equal. apply IH.
  intros H. apply Hn. right. exact H.
Qed.

Lemma del_app {V} (k : str) (d1 d2 : PyDict.dict V) :
  PyDict.del k (d1 ++ d2) = PyDict.del k d1 ++ PyDict.del k d2.
Proof. unfold PyDict.del. apply filter_app. Qed.

(** X9: [AddressBook.delete] of a name in the book takes out the entry
    of that name and nothing else: the entries before it and after it
    stay, in their order. *)
Theorem delete_takes_one_out (self : AddressBook) (n : str) (record : RecordT)
    (d1 d2 : PyDict.dict RecordT) :
  NoDup (PyDict.keys (data self)) ->
  data self = d1 ++ (n, record) :: d2 ->
  AddressBook_delete n self = (inr tt, mkAddressBook (d1 ++ d2)).
Proof.
  intros Hnd Heq.
  assert (Hin : In n (PyDict.keys (data self))).
  { rewrite Heq. unfold PyDict.keys. rewrite map_app. apply in_or_app.
    right. left. reflexivity. }
  unfold AddressBook_delete, mbind, mget, mput.
  rewrite (proj2 (contains_iff n (data self)) Hin). cbv beta iota.
  f_equal. f_equal. rewrite Heq in Hnd |- *.
  unfold PyDict.keys in Hnd. rewrite map_app in Hnd. cbn [map fst] in Hnd.
  apply NoDup_remove_2 in Hnd.
  rewrite del_app.
  change ((n, record) :: d2) with ([(n, record)] ++ d2). rewrite del_app.
  rewrite (del_absent n d1), (del_absent n d2).
  - cbn [PyDict.del filter fst]. rewrite str_eqb_refl. reflexivity.
  - intros H. apply Hnd. apply in_or_app. right. exact H.
  - intros H. apply Hnd. apply in_or_app. left. exact H.
Qed.

Lemma delete_takes_one_out_example :
  AddressBook_delete (lit "Ann")
    (book_of [record_of (lit "John") [] None;
              record_of (lit "Ann") [] None;
              record_of (lit "Bob") [] None]) =
  (inr tt, book_of [record_of (lit "John") [] None;
                    record_of (lit "Bob") [] None]).
Proof.
  apply (delete_takes_one_out
           (book_of [record_of (lit "John") [] None;
                     record_of (lit "Ann") [] None;
                     record_of (lit "Bob") [] None])
           (lit "Ann") (record_of (lit "Ann") [] None)
           [(lit "John", record_of (lit "John") [] None)]
           [(lit "Bob", record_of (lit "Bob") [] None)]).
  - cbv. repeat constructor; intros H;
      repeat (destruct H as [H | H]; [discriminate H|]); exact H.
  - reflexivity.
Defined.

(** X10: adding a record under a name the book does not hold and then
    deleting that name gives the book back as it was. *)
Theorem add_record_then_delete (self : AddressBook) (record : RecordT) :
  ~ In (value (name record)) (PyDict.keys (data self)) ->
  (AddressBook_add_record record;;
   AddressBook_delete (value (name record)))%meth self = (inr tt, self).
Proof.
  intros Hn. unfold mbind, AddressBook_add_record, mget, mput. cbv beta iota.
  unfold AddressBook_delete, mbind, mget, mput. cbn [data].
  rewrite (set_absent _ record _ Hn).
  assert (Hc : PyDict.contains (value (name record))
                 (data self ++ [(value (name record), record)]) = true).
  { apply contains_iff. unfold PyDict.keys. rewrite map_app.
    apply in_or_app. right. left. reflexivity. }
  rewrite Hc. rewrite del_app, (del_absent _ _ Hn).
  cbn [PyDict.del filter fst]. rewrite str_eqb_refl. cbn [negb].
  rewrite app_nil_r. destruct self; reflexivity.
Qed.

Lemma add_record_then_delete_example :
  (AddressBook_add_record (record_of (lit "Ann") [] None);;
   AddressBook_delete (lit "Ann"))%meth
    (book_of [record_of (lit "John") [] None]) =
  (inr tt, book_of [record_of (lit "John") [] None]).
Proof.
  apply (add_record_then_delete
           (book_of [record_of (lit "John") [] None])
           (record_of (lit "Ann") [] None)).
  cbv. intros [E | []]. discriminate E.
Defined.

(* ================================================================== *)
(** ** get_upcoming_birthdays: what it returns and when it raises *)
(* ================================================================== *)

Lemma days_before_year_mono (a b : Z) :
  a <= b -> days_before_year a <= days_before_year b.
Proof.
  unfold days_before_year. cbv zeta. intros H. Z.div_mod_to_equations. lia.
Qed.

Lemma days_before_month_step (y m m' : Z) :
  1 <= m -> m < m' -> m' <= 12 ->
  days_before_month y m + days_in_month y m <= days_before_month y m'.
Proof.
  intros H1 H2 H3. unfold days_before_month, days_in_month.
  assert (Hm : 1 <= m <= 12) by lia. assert (Hm' : 1 <= m' <= 12) by lia.
  split_month Hm; split_month Hm'; try lia;
    destruct (is_leap y); cbn -[Z.add Z.le]; lia.
Qed.

(** A date at midnight that is not before the clock is on a later day,
    or on the day of the clock while it reads midnight. *)
Lemma not_before_ordinal (today c : datetime) :
  datetime_ok today = true -> datetime_ok c = true -> at_midnight c ->
  datetime_ltb c today = false ->
  toordinal today < toordinal c \/
  (toordinal today = toordinal c /\ at_midnight today).
Proof.
  intros Ht Hc Hmid.
  apply datetime_ok_iff in Ht, Hc.
  destruct Ht as (Hty & [Htm Htd] & (Hh & Hmi & Hs & Hus)).
  destruct Hc as (Hcy & [Hcm Hcd] & _).
  destruct Hmid as (C1 & C2 & C3 & C4).
  unfold datetime_ltb, fields, tuple_ltb, toordinal, ymd2ord, at_midnight.
  rewrite C1, C2, C3, C4.
  pose proof (day_of_year_bounds _ _ _ Htm Htd) as Bt.
  pose proof (day_of_year_bounds _ _ _ Hcm Hcd) as Bc.
  destruct (Z.ltb_spec (year c) (year today)); [discriminate|].
  destruct (Z.ltb_spec (year today) (year c)).
  { intros _. left.
    pose proof (days_before_year_succ (year today)) as Hs1.
    pose proof (days_before_year_mono (year today + 1) (year c) ltac:(lia)).
    destruct (is_leap (year today)); lia. }
  assert (Ey : year c = year today) by lia. rewrite Ey in *.
  destruct (Z.ltb_spec (month c) (month today)); [discriminate|].
  destruct (Z.ltb_spec (month today) (month c)).
  { intros _. left.
    pose proof (days_before_month_step (year today) (month today) (month c)
                  ltac:(lia) ltac:(lia) ltac:(lia)). lia. }
  assert (Em : month c = month today) by lia. rewrite Em in *.
  destruct (Z.ltb_spec (day c) (day today)); [discriminate|].
  destruct (Z.ltb_spec (day today) (day c)); [intros _; left; lia|].
  assert (Ed : day c = day today) by lia. rewrite Ed in *.
  destruct (Z.ltb_spec 0 (hour today)); [discriminate|].
  destruct (Z.ltb_spec (hour today) 0); [lia|].
  destruct (Z.ltb_spec 0 (minute today)); [discriminate|].
  destruct (Z.ltb_spec (minute today) 0); [lia|].
  destruct (Z.ltb_spec 0 (second today)); [discriminate|].
  destruct (Z.ltb_spec (second today) 0); [lia|].
  destruct (Z.ltb_spec 0 (microsecond today)); [discriminate|].
  intros _. right. repeat split; lia.
Qed.

Lemma datetime_ltb_next_year (today p : datetime) :
  datetime_ltb (with_year p (year today + 1)) today = false.
Proof.
  unfold datetime_ltb, fields, with_year. cbn [year tuple_ltb].
  destruct (Z.ltb_spec (year today + 1) (year today)); [lia|].
  destruct (Z.ltb_spec (year today) (year today + 1)); [reflexivity | lia].
Qed.

(** The date a record is judged by: the projection or its move to next
    year, never before the clock, then moved off the weekend. *)
Lemma adjusted_steps (today bd a : datetime) :
  datetime_ok today = true -> datetime_ok bd = true -> at_midnight bd ->
  adjusted today bd = inr a ->
  exists c,
    datetime_ok c = true /\ at_midnight c /\
    datetime_ltb c today = false /\ weekend_shift c = inr a /\
    project today bd = inr (with_year bd (year today)) /\
    (datetime_ltb (with_year bd (year today)) today = false /\
     c = with_year bd (year today) \/
     datetime_ltb (with_year bd (year today)) today = true /\
     c = with_year bd (year today + 1)).
Proof.
  intros Ht Hb Hmid. unfold adjusted.
  rewrite (project_cases today bd Ht Hb).
  destruct (Z.leb_spec (day bd) (days_in_month (year today) (month bd)));
    cbn [bind]; [|discriminate].
  pose proof (proj1 (datetime_ok_iff today) Ht) as (Hty & _ & _).
  assert (Hp : datetime_ok (with_year bd (year today)) = true)
    by (apply with_year_ok; assumption).
  destruct (rollover_cases today (with_year bd (year today)) Ht Hp eq_refl)
    as [[Hlt Hr] | [Hlt [[Hr Hok] | [[Hr _] | [Hr Hy]]]]]; rewrite Hr;
    cbn [bind]; try discriminate; intros Hw.
  - exists (with_year bd (year today)). repeat split; try assumption;
      try apply Hmid. left. split; [assumption | reflexivity].
  - exists (with_year bd (year today + 1)). repeat split; try assumption;
      try apply Hmid.
    + apply datetime_ltb_next_year.
    + right. split; [assumption | reflexivity].
Qed.

Lemma examine_judged (today : datetime) (r : RecordT) (a : datetime) :
  examine today r = Judged a ->
  exists s bd,
    value (birthday r) = Some s /\ s <> [] /\
    strptime_dmY s = inr bd /\ adjusted today bd = inr a.
Proof.
  unfold examine. destruct (value (birthday r)) as [s|]; [|discriminate].
  destruct s as [|ch s]; [discriminate|]. cbn [str_bool].
  destruct (strptime_dmY (ch :: s)) as [[m|m]|bd] eqn:Hs; try discriminate.
  destruct (adjusted today bd) as [e|a'] eqn:Ha; [discriminate|].
  intros H. inversion H; subst. exists (ch :: s), bd.
  split; [reflexivity|]. split; [discriminate|]. split; [exact Hs | exact Ha].
Qed.

Lemma judged_facts (today : datetime) (r : RecordT) (a : datetime) :
  datetime_ok today = true -> examine today r = Judged a ->
  datetime_ok a = true /\ at_midnight a /\
  0 <= weekday a <= 4 /\ 0 <= days_until today a.
Proof.
  intros Ht Hex.
  destruct (examine_judged today r a Hex) as (s & bd & _ & _ & Hs & Ha).
  destruct (strptime_datetime_ok s bd Hs) as [Hb Hmid].
  destruct (adjusted_steps today bd a Ht Hb Hmid Ha)
    as (c & Hc & Hcm & Hlt & Hw & _).
  destruct (weekend_shift_spec c Hc) as (a' & Ha' & Hok & Ho & Hst & _).
  rewrite Ha' in Hw. inversion Hw; subst a'.
  assert (Hamid : at_midnight a).
  { unfold at_midnight, same_time in *. destruct Hst as (-> & -> & -> & ->).
    exact Hcm. }
  split; [exact Hok|]. split; [exact Hamid|].
  assert (Hsh : 0 <= shift_of c <= 2 /\ 0 <= weekday a <= 4).
  { unfold shift_of, weekday in *. rewrite Ho.
    destruct (Z.eqb_spec ((toordinal c + 6) mod 7) 5);
      [| destruct (Z.eqb_spec ((toordinal c + 6) mod 7) 6)];
      Z.div_mod_to_equations; lia. }
  split; [apply Hsh|].
  pose proof (proj1 (datetime_ok_iff today) Ht) as (_ & _ & Htime).
  destruct (days_until_from_clock today a Htime Hamid) as [D0 D1].
  destruct (not_before_ordinal today c Ht Hc Hcm Hlt) as [Hlt' | [Heq Hm]].
  - assert (Hdec : at_midnight today \/ ~ at_midnight today).
    { unfold at_midnight.
      destruct (Z.eq_dec (hour today) 0), (Z.eq_dec (minute today) 0),
        (Z.eq_dec (second today) 0), (Z.eq_dec (microsecond today) 0); tauto. }
    destruct Hdec as [Hm | Hm]; [rewrite (D0 Hm) | rewrite (D1 Hm)]; lia.
  - rewrite (D0 Hm). lia.
Qed.

Lemma report_length (today : datetime) (r : RecordT) :
  (List.length (report today r) <= 1)%nat.
Proof.
  unfold report. destruct (examine today r); cbn; try lia.
  destruct (in_window today a); cbn; lia.
Qed.

Lemma flat_map_length_le {A B} (f : A -> list B) (l : list A) :
  (forall x, (List.length (f x) <= 1)%nat) ->
  (List.length (flat_map f l) <= List.length l)%nat.
Proof.
  intros H. induction l as [|x l IH]; cbn [flat_map List.length]; [lia|].
  rewrite List.length_app. specialize (H x). lia.
Qed.

(** X11: whenever [get_upcoming_birthdays] returns, the list is made of
    the reports of the records, in the order of the book: at most one
    entry per record, so never more entries than records; an entry is in
    the list exactly when it is the name of a record together with the
    text of the date that record is judged by, that date being at most 7
    (whole) days after the time of the call; and a record with no
    birthday, or an empty one, gives no entry. *)
Theorem upcoming_birthdays_listed (self : AddressBook) (now : datetime)
    (res : list entry) :
  datetime_ok now = true ->
  AddressBook_get_upcoming_birthdays self now = inr res ->
  res = flat_map (report now) (PyDict.values (data self)) /\
  (List.length res <= List.length (data self))%nat /\
  (forall en,
     In en res <->
     exists r a,
       In r (PyDict.values (data self)) /\
       examine now r = Judged a /\ days_until now a <= 7 /\
       en = mkentry (value (name r)) (strftime_dmY a)) /\
  (forall r, In r (PyDict.values (data self)) ->
     opt_str_bool (value (birthday r)) = false -> report now r = []).
Proof.
  intros Hnow H.
  destruct (get_upcoming_birthdays_result self now res H) as [Hres Hiff].
  split; [exact Hres|]. split; [|split].
  - rewrite Hres.
    etransitivity; [apply flat_map_length_le, report_length|].
    unfold PyDict.values. rewrite length_map. lia.
  - intros en. rewrite Hiff. split.
    + intros (r & a & Hin & Hex & Hw & ->). exists r, a.
      unfold in_window in Hw. apply andb_true_iff in Hw.
      rewrite !Z.leb_le in Hw. repeat split; tauto.
    + intros (r & a & Hin & Hex & Hd & ->). exists r, a.
      repeat split; try assumption.
      destruct (judged_facts now r a Hnow Hex) as (_ & _ & _ & H0).
      unfold in_window. apply andb_true_iff. rewrite !Z.leb_le. lia.
  - intros r _ Hf. unfold report, examine.
    destruct (value (birthday r)) as [s|]; [|reflexivity].
    cbn in Hf. rewrite Hf. reflexivity.
Qed.

Lemma upcoming_birthdays_listed_example :
  datetime_ok (dt 2024 6 10) = true /\
  AddressBook_get_upcoming_birthdays
    (book_of [record_of (lit "Ann") [] (Some (lit "12.06.1990"));
              record_of (lit "Bob") [] None])
    (dt 2024 6 10) = inr [mkentry (lit "Ann") (lit "12.06.2024")] /\
  [mkentry (lit "Ann") (lit "12.06.2024")] =
  flat_map (report (dt 2024 6 10))
    [record_of (lit "Ann") [] (Some (lit "12.06.1990"));
     record_of (lit "Bob") [] None].
Proof.
  assert (Hok : datetime_ok (dt 2024 6 10) = true) by reflexivity.
  assert (Hr : AddressBook_get_upcoming_birthdays
                 (book_of [record_of (lit "Ann") [] (Some (lit "12.06.1990"));
                           record_of (lit "Bob") [] None])
                 (dt 2024 6 10) = inr [mkentry (lit "Ann") (lit "12.06.2024")])
    by (vm_compute; reflexivity).
  split; [exact Hok|]. split; [exact Hr|].
  exact (proj1 (upcoming_birthdays_listed _ _ _ Hok Hr)).
Defined.

(** X12: every entry [get_upcoming_birthdays] returns carries the text
    of a valid date at midnight that falls on a day from Monday to
    Friday, never on a Saturday or a Sunday, and lies between 0 and 7
    whole days after the time of the call. *)
Theorem upcoming_birthdays_on_weekdays (self : AddressBook) (now : datetime)
    (res : list entry) (en : entry) :
  datetime_ok now = true ->
  AddressBook_get_upcoming_birthdays self now = inr res ->
  In en res ->
  exists a,
    entry_birthday en = strftime_dmY a /\
    datetime_ok a = true /\ at_midnight a /\
    0 <= weekday a <= 4 /\
    0 <= days_until now a <= 7.
Proof.
  intros Hnow H Hin.
  destruct (get_upcoming_birthdays_result self now res H) as [_ Hiff].
  apply Hiff in Hin. destruct Hin as (r & a & _ & Hex & Hw & ->).
  destruct (judged_facts now r a Hnow Hex) as (Hok & Hmid & Hwd & H0).
  unfold in_window in Hw. apply andb_true_iff in Hw.
  rewrite !Z.leb_le in Hw.
  exists a. cbn [entry_birthday].
  split; [reflexivity|]. split; [exact Hok|]. split; [exact Hmid|].
  split; lia.
Qed.

Lemma upcoming_birthdays_on_weekdays_example :
  datetime_ok (dt 2024 6 10) = true /\
  AddressBook_get_upcoming_birthdays
    (book_of [record_of (lit "Ann") [] (Some (lit "15.06.1990"))])
    (dt 2024 6 10) = inr [mkentry (lit "Ann") (lit "17.06.2024")] /\
  exists a,
    lit "17.06.2024" = strftime_dmY a /\
    datetime_ok a = true /\ at_midnight a /\
    0 <= weekday a <= 4 /\
    0 <= days_until (dt 2024 6 10) a <= 7.
Proof.
  assert (Hok : datetime_ok (dt 2024 6 10) = true) by reflexivity.
  assert (Hr : AddressBook_get_upcoming_birthdays
                 (book_of [record_of (lit "Ann") [] (Some (lit "15.06.1990"))])
                 (dt 2024 6 10) = inr [mkentry (lit "Ann") (lit "17.06.2024")])
    by (vm_compute; reflexivity).
  split; [exact Hok|]. split; [exact Hr|].
  exact (upcoming_birthdays_on_weekdays _ _ _
           (mkentry (lit "Ann") (lit "17.06.2024")) Hok Hr
           (or_introl eq_refl)).
Defined.

Lemma is_leap_succ (y : Z) : is_leap y = true -> is_leap (y + 1) = false.
Proof.
  intros H. destruct (is_leap_cases y) as [[_ Hy] | [Hf _]]; [|congruence].
  destruct (is_leap_cases (y + 1)) as [[_ Hy'] | [Hf' _]]; [|exact Hf'].
  exfalso. Z.div_mod_to_equations. lia.
Qed.

(** The only day a year can lack is 29 February. *)
Lemma day_beyond_month (y y' m d : Z) :
  1 <= m <= 12 -> d <= days_in_month y m -> days_in_month y' m < d ->
  m = 2 /\ d = 29 /\ is_leap y = true /\ is_leap y' = false.
Proof.
  unfold days_in_month. intros Hm.
  destruct (Z.eqb_spec m 2) as [-> | Hne]; cbn [andb].
  - destruct (is_leap y), (is_leap y'); cbn; lia.
  - lia.
Qed.

Lemma leap_day_in_month (y : Z) :
  days_in_month y 2 = if is_leap y then 29 else 28.
Proof. unfold days_in_month. destruct (is_leap y); reflexivity. Qed.

Lemma examine_raised_iff (now : datetime) (r : RecordT) :
  datetime_ok now = true ->
  ((exists e, examine now r = Raised e) <->
   exists s bd,
     value (birthday r) = Some s /\ strptime_dmY s = inr bd /\
     raising now bd).
Proof.
  intros Hnow.
  pose proof (proj1 (datetime_ok_iff now) Hnow) as (Hy & _ & _).
  split.
  - intros [e He]. unfold examine in He.
    destruct (value (birthday r)) as [s|]; [|discriminate].
    destruct (str_bool s); [|discriminate].
    destruct (strptime_dmY s) as [e0|bd] eqn:Hs.
    { destruct (strptime_ValueError s e0 Hs) as [msg ->]. discriminate. }
    exists s, bd. split; [reflexivity|]. split; [exact Hs|].
    destruct (strptime_datetime_ok s bd Hs) as [Hb Hmid].
    pose proof (proj1 (datetime_ok_iff bd) Hb) as (Hby & [Hbm Hbd] & _).
    unfold adjusted in He. rewrite (project_cases now bd Hnow Hb) in He.
    destruct (Z.leb_spec (day bd) (days_in_month (year now) (month bd)))
      as [Hle | Hgt]; cbn [bind] in He.
    + assert (Hp : datetime_ok (with_year bd (year now)) = true)
        by (apply with_year_ok; assumption).
      unfold rollover in He.
      destruct (datetime_ltb (with_year bd (year now)) now) eqn:Hlt.
      * destruct (Z.eq_dec (year now) 9999) as [E | E];
          [right; split; [exact E | exact Hlt]|].
        rewrite replace_year_day in He
          by (cbn [with_year month day]; lia).
        cbn [with_year month day] in He.
        destruct (Z.leb_spec (day bd) (days_in_month (year now + 1) (month bd)))
          as [Hle' | Hgt']; cbn [bind] in He.
        -- exfalso.
           assert (Hok : datetime_ok (with_year (with_year bd (year now)) (year now + 1)) = true).
           { apply with_year_ok; [exact Hp | lia | exact Hle']. }
           destruct (weekend_shift_spec _ Hok) as (a & Ha & _).
           rewrite Ha in He. discriminate.
        -- destruct (day_beyond_month _ _ _ _ Hbm Hle Hgt') as (Em & Ed & _).
           left. repeat split; auto.
      * cbn [bind ret] in He.
        destruct (weekend_shift_spec _ Hp) as (a & Ha & _).
        rewrite Ha in He. discriminate.
    + destruct (day_beyond_month _ _ _ _ Hbm (proj2 Hbd) Hgt) as (Em & Ed & _ & Hl).
      left. repeat split; auto.
  - intros (s & bd & Hv & Hs & Hr).
    destruct (strptime_datetime_ok s bd Hs) as [Hb Hmid].
    pose proof (proj1 (datetime_ok_iff bd) Hb) as (Hby & [Hbm Hbd] & _).
    unfold examine, adjusted.
    rewrite Hv, (strptime_nonempty s bd Hs), Hs.
    rewrite (project_cases now bd Hnow Hb).
    destruct (Z.leb_spec (day bd) (days_in_month (year now) (month bd)))
      as [Hle | Hgt]; cbn [bind]; [|eauto].
    assert (Hlt : datetime_ltb (with_year bd (year now)) now = true /\
                  (year now = 9999 \/
                   month bd = 2 /\ day bd = 29 /\ is_leap (year now) = true)).
    { destruct Hr as [(Em & Ed & [Hl | Hlt]) | [E Hlt]].
      - exfalso. rewrite Em, Ed, leap_day_in_month, Hl in Hle. lia.
      - split; [exact Hlt|]. right. repeat split; auto.
        destruct (is_leap (year now)) eqn:Hl; [reflexivity|].
        exfalso. rewrite Em, Ed, leap_day_in_month, Hl in Hle. lia.
      - split; [exact Hlt|]. left. exact E. }
    destruct Hlt as [Hlt Hwhy]. unfold rollover. rewrite Hlt.
    destruct (Z.eq_dec (year now) 9999) as [E | E].
    + rewrite E.
      change (replace_year (with_year bd 9999) (9999 + 1))
        with (@inl exn datetime (ValueError msg_year_10000)).
      cbn [bind]. eauto.
    + destruct Hwhy as [E' | (Em & Ed & Hl)]; [contradiction|].
      rewrite replace_year_day by (cbn [with_year month day]; lia).
      cbn [with_year month day].
      rewrite Em, Ed, leap_day_in_month, (is_leap_succ _ Hl).
      change (29 <=? 28) with false. cbn [bind]. eauto.
Qed.

(** X13: [get_upcoming_birthdays] raises exactly when the book holds a
    record whose birthday text parses and is either a 29 February, asked
    in a year that is not a leap year or after that day has begun, or
    asked in the year 9999 after the day of the birthday has begun.  The
    exception is then the [ValueError] of [replace]: "day is out of range
    for month", or, in the year 9999 only, "year 10000 is out of
    range". *)
Theorem upcoming_birthdays_raises_iff (self : AddressBook) (now : datetime) :
  datetime_ok now = true ->
  ((exists e, AddressBook_get_upcoming_birthdays self now = inl e) <->
   exists r s bd,
     In r (PyDict.values (data self)) /\
     value (birthday r) = Some s /\ strptime_dmY s = inr bd /\
     raising now bd) /\
  (forall e,
     AddressBook_get_upcoming_birthdays self now = inl e ->
     e = ValueError msg_day_out_of_range \/
     year now = 9999 /\ e = ValueError msg_year_10000).
Proof.
  intros Hnow. split; [split|].
  - intros [e He].
    destruct (AddressBook_get_upcoming_birthdays self now) as [e'|res] eqn:Hc;
      [|discriminate].
    assert (Hex : exists r e0, In r (PyDict.values (data self)) /\
                               examine now r = Raised e0).
    { destruct (List.Exists_dec
                  (fun r => exists e0, examine now r = Raised e0)
                  (PyDict.values (data self))) as [Hyes | Hno].
      - intros r. destruct (examine now r) as [|e0|a]; eauto;
          right; intros [e1 H1]; discriminate.
      - apply Exists_exists in Hyes. destruct Hyes as (r & Hin & e0 & H0). eauto.
      - exfalso.
        assert (Hret : exists res, AddressBook_get_upcoming_birthdays self now = inr res).
        { apply get_upcoming_birthdays_returns. intros r e0 Hin Hr.
          apply Hno. apply Exists_exists. eauto. }
        destruct Hret as [res Hres]. congruence. }
    destruct Hex as (r & e0 & Hin & Hr).
    destruct (proj1 (examine_raised_iff now r Hnow) (ex_intro _ e0 Hr))
      as (s & bd & Hv & Hs & Hraise).
    exists r, s, bd. auto.
  - intros (r & s & bd & Hin & Hv & Hs & Hraise).
    destruct (proj2 (examine_raised_iff now r Hnow))
      as [e0 Hr]; [eauto|].
    unfold AddressBook_get_upcoming_birthdays. cbv zeta.
    destruct (upcoming_loop_raises now _ [] r e0 Hin Hr) as (r' & e & _ & _ & Hl).
    eauto.
  - intros e He. unfold AddressBook_get_upcoming_birthdays in He. cbv zeta in He.
    destruct (List.Exists_dec
                (fun r => exists e0, examine now r = Raised e0)
                (PyDict.values (data self))) as [Hyes | Hno].
    + intros r. destruct (examine now r) as [|e0|a]; eauto;
        right; intros [e1 H1]; discriminate.
    + apply Exists_exists in Hyes. destruct Hyes as (r & Hin & e0 & H0).
      destruct (upcoming_loop_raises now _ [] r e0 Hin H0)
        as (r' & e' & _ & He' & Hl).
      rewrite Hl in He. inversion He; subst e'.
      exact (examine_raised now r' e Hnow He').
    + exfalso.
      rewrite (upcoming_loop_returns now (PyDict.values (data self))) in He;
        [discriminate|].
      intros r e0 Hin Hr. apply Hno. apply Exists_exists. eauto.
Qed.

Lemma upcoming_birthdays_raises_iff_example :
  datetime_ok (dt 2023 6 10) = true /\
  ((exists e,
      AddressBook_get_upcoming_birthdays
        (book_of [record_of (lit "Leo") [] (Some (lit "29.02.2000"))])
        (dt 2023 6 10) = inl e) <->
   exists r s bd,
     In r [record_of (lit "Leo") [] (Some (lit "29.02.2000"))] /\
     value (birthday r) = Some s /\ strptime_dmY s = inr bd /\
     raising (dt 2023 6 10) bd).
Proof.
  assert (Hok : datetime_ok (dt 2023 6 10) = true) by reflexivity.
  split; [exact Hok|].
  exact (proj1 (upcoming_birthdays_raises_iff
                  (book_of [record_of (lit "Leo") [] (Some (lit "29.02.2000"))])
                  _ Hok)).
Defined.

Lemma tuple_ltb_irrefl (l : list Z) : tuple_ltb l l = false.
Proof.
  induction l as [|x l IH]; cbn [tuple_ltb]; [reflexivity|].
  rewrite Z.ltb_irrefl. exact IH.
Qed.

Lemma year_later_ordinal (y m d : Z) :
  365 <= ymd2ord (y + 1) m d - ymd2ord y m d.
Proof.
  unfold ymd2ord, days_before_month. rewrite days_before_year_succ.
  destruct (is_leap y) eqn:Hl.
  - rewrite (is_leap_succ y Hl). destruct (2 <? m); cbn [andb]; lia.
  - destruct (is_leap (y + 1)), (2 <? m); cbn [andb]; lia.
Qed.

Lemma report_of_judged (today : datetime) (r : RecordT) (a : datetime) :
  examine today r = Judged a ->
  (in_window today a = true ->
   report today r = [mkentry (value (name r)) (strftime_dmY a)]) /\
  (in_window today a = false -> report today r = []).
Proof.
  intros H. unfold report. rewrite H. split; intros ->; reflexivity.
Qed.

(** X14: the window in calendar days, for a record that is judged by
    the date [a].  When the clock reads midnight, [a] is today or later
    and the record is reported exactly when [a] is at most 7 days after
    today.  At any other time of day, [a] is tomorrow or later and the
    record is reported exactly when [a] is at most 8 days after today.
    A record gives no entry or this one entry. *)
Theorem upcoming_window_in_calendar_days (now : datetime) (r : RecordT)
    (a : datetime) :
  datetime_ok now = true -> examine now r = Judged a ->
  (at_midnight now ->
   0 <= toordinal a - toordinal now /\
   (report now r = [mkentry (value (name r)) (strftime_dmY a)] <->
    toordinal a - toordinal now <= 7)) /\
  (~ at_midnight now ->
   1 <= toordinal a - toordinal now /\
   (report now r = [mkentry (value (name r)) (strftime_dmY a)] <->
    toordinal a - toordinal now <= 8)) /\
  (report now r = [] \/
   report now r = [mkentry (value (name r)) (strftime_dmY a)]).
Proof.
  intros Hnow Hex.
  destruct (judged_facts now r a Hnow Hex) as (Hok & Hmid & _ & H0).
  pose proof (proj1 (datetime_ok_iff now) Hnow) as (_ & _ & Htime).
  destruct (days_until_from_clock now a Htime Hmid) as [D0 D1].
  destruct (report_of_judged now r a Hex) as [Rt Rf].
  assert (Hrep : forall bound,
            (in_window now a = true <-> days_until now a <= bound) ->
            (report now r = [mkentry (value (name r)) (strftime_dmY a)] <->
             days_until now a <= bound)).
  { intros bound Hb. rewrite <- Hb.
    destruct (in_window now a); [rewrite (Rt eq_refl) | rewrite (Rf eq_refl)];
      split; congruence. }
  assert (Hw : in_window now a = true <-> days_until now a <= 7).
  { unfold in_window. rewrite andb_true_iff, !Z.leb_le. lia. }
  split; [|split].
  - intros Hm. rewrite (Hrep 7 Hw), (D0 Hm) in *. split; [lia | tauto].
  - intros Hm. rewrite (Hrep 7 Hw), (D1 Hm) in *. split; [lia|]. lia.
  - destruct (in_window now a); [right; apply Rt | left; apply Rf]; reflexivity.
Qed.

Lemma upcoming_window_in_calendar_days_example :
  datetime_ok monday_afternoon = true /\
  examine monday_afternoon
    (record_of (lit "Bob") [] (Some (lit "18.06.1990"))) =
    Judged (dt 2024 6 18) /\
  (report monday_afternoon
     (record_of (lit "Bob") [] (Some (lit "18.06.1990"))) = [] \/
   report monday_afternoon
     (record_of (lit "Bob") [] (Some (lit "18.06.1990"))) =
   [mkentry (lit "Bob") (strftime_dmY (dt 2024 6 18))]).
Proof.
  assert (Hok : datetime_ok monday_afternoon = true) by reflexivity.
  assert (Hex : examine monday_afternoon
                  (record_of (lit "Bob") [] (Some (lit "18.06.1990"))) =
                Judged (dt 2024 6 18)) by (vm_compute; reflexivity).
  split; [exact Hok|]. split; [exact Hex|].
  exact (proj2 (proj2 (upcoming_window_in_calendar_days _ _ _ Hok Hex))).
Defined.

(** X15: a record whose birthday falls on the day of the call.  When
    the clock reads midnight, the record is reported, with today's date
    moved off the weekend.  At any other time of day the loop passes over
    it, or raises: the birthday is moved to next year. *)
Theorem birthday_on_the_day (now : datetime) (r : RecordT) (s : str)
    (bd : datetime) :
  datetime_ok now = true ->
  value (birthday r) = Some s -> strptime_dmY s = inr bd ->
  month bd = month now -> day bd = day now ->
  (at_midnight now ->
   exists a,
     weekend_shift now = inr a /\
     forall records acc,
       upcoming_loop now (r :: records) acc =
       upcoming_loop now records
         (acc ++ [mkentry (value (name r)) (strftime_dmY a)])) /\
  (~ at_midnight now ->
   forall records acc,
     upcoming_loop now (r :: records) acc = upcoming_loop now records acc \/
     exists e, upcoming_loop now (r :: records) acc = inl e).
Proof.
  intros Hnow Hv Hs Em Ed.
  destruct (strptime_datetime_ok s bd Hs) as [Hb Hmid].
  pose proof (proj1 (datetime_ok_iff now) Hnow) as (Hy & [Hnm Hnd] & Htime).
  assert (Hproj : project now bd = inr (with_year bd (year now))).
  { rewrite (project_cases now bd Hnow Hb), Em, Ed.
    destruct (Z.leb_spec (day now) (days_in_month (year now) (month now)));
      [reflexivity | lia]. }
  assert (Hp : datetime_ok (with_year bd (year now)) = true).
  { apply with_year_ok; [assumption | assumption |]. rewrite Em, Ed. lia. }
  assert (Hsame : same_date (with_year bd (year now)) now).
  { unfold same_date, with_year. cbn. auto. }
  assert (Hpm : at_midnight (with_year bd (year now))) by exact Hmid.
  destruct (rollover_on_the_day now _ Hnow Hsame Hpm) as [R0 R1].
  assert (Hexam : forall x,
            adjusted now bd = x ->
            examine now r = match x with inl e => Raised e | inr a => Judged a end).
  { intros x <-. unfold examine. rewrite Hv, (strptime_nonempty s bd Hs), Hs.
    reflexivity. }
  split; intros Hm.
  - assert (Enow : with_year bd (year now) = now).
    { destruct now as [y m d h mi sc us], bd as [y' m' d' h' mi' sc' us'].
      unfold at_midnight in *. cbn in *.
      destruct Hm as (-> & -> & -> & ->), Hmid as (-> & -> & -> & ->).
      subst. reflexivity. }
    destruct (weekend_shift_spec now Hnow) as (a & Ha & Hok & Ho & Hst & _).
    exists a. split; [exact Ha|]. intros records acc.
    rewrite upcoming_loop_step.
    rewrite (Hexam (inr a)).
    + assert (Hamid : at_midnight a).
      { unfold at_midnight, same_time in *.
        destruct Hst as (-> & -> & -> & ->). exact Hm. }
      destruct (days_until_from_clock now a Htime Hamid) as [D0 _].
      assert (Hw : in_window now a = true).
      { unfold in_window. rewrite (D0 Hm), Ho.
        assert (Hsh : 0 <= shift_of now <= 2).
        { unfold shift_of. destruct (weekday now =? 5); [lia|].
          destruct (weekday now =? 6); lia. }
        apply andb_true_iff. rewrite !Z.leb_le. lia. }
      rewrite Hw. reflexivity.
    + unfold adjusted. rewrite Hproj. cbn [bind].
      rewrite (R0 Hm). cbn [bind]. rewrite Enow. exact Ha.
  - intros records acc. rewrite upcoming_loop_step.
    destruct (adjusted now bd) as [e|a] eqn:Ha.
    + rewrite (Hexam _ eq_refl). right. eauto.
    + rewrite (Hexam _ eq_refl). left.
      assert (Hw : in_window now a = false); [|rewrite Hw; reflexivity].
      unfold adjusted in Ha. rewrite Hproj in Ha. cbn [bind] in Ha.
      rewrite (R1 Hm) in Ha.
      destruct (replace_year (with_year bd (year now)) (year now + 1))
        as [e|c] eqn:Hc; cbn [bind] in Ha; [discriminate|].
      assert (Ec : c = with_year bd (year now + 1) /\ datetime_ok c = true).
      { unfold replace_year in Hc.
        destruct (check_date_fields_cases (year now + 1)
                    (month (with_year bd (year now)))
                    (day (with_year bd (year now))))
          as [[Hok H] | [_ [(_ & H) | [(_ & _ & H) | (_ & _ & _ & H)]]]];
          rewrite H in Hc; cbn [bind] in Hc; try discriminate.
        inversion Hc; subst c. split; [reflexivity|].
        apply date_ok_iff in Hok. cbn [with_year month day] in Hok.
        apply with_year_ok; [exact Hb | tauto | tauto]. }
      destruct Ec as [-> Hcok].
      destruct (weekend_shift_spec _ Hcok) as (a' & Ha' & Hok & Ho & Hst & _).
      rewrite Ha' in Ha. inversion Ha; subst a'.
      assert (Hamid : at_midnight a).
      { unfold at_midnight, same_time in *.
        destruct Hst as (-> & -> & -> & ->). exact Hmid. }
      destruct (days_until_from_clock now a Htime Hamid) as [_ D1].
      unfold in_window. rewrite (D1 Hm), Ho.
      pose proof (year_later_ordinal (year now) (month now) (day now)) as Hyr.
      assert (Hsh : 0 <= shift_of (with_year bd (year now + 1))).
      { unfold shift_of.
        destruct (weekday (with_year bd (year now + 1)) =? 5); [lia|].
        destruct (weekday (with_year bd (year now + 1)) =? 6); lia. }
      unfold toordinal in *. cbn [with_year year month day] in *.
      rewrite Em, Ed.
      destruct (Z.leb_spec
                  (ymd2ord (year now + 1) (month now) (day now) +
                   shift_of (with_year bd (year now + 1)) -
                   ymd2ord (year now) (month now) (day now) - 1) 7);
        [lia|]. apply andb_false_r.
Qed.

Lemma birthday_on_the_day_example :
  datetime_ok (dt 2024 6 10) = true /\
  strptime_dmY (lit "10.06.1990") = inr (dt 1990 6 10) /\
  (at_midnight (dt 2024 6 10) ->
   exists a,
     weekend_shift (dt 2024 6 10) = inr a /\
     forall records acc,
       upcoming_loop (dt 2024 6 10)
         (record_of (lit "Ann") [] (Some (lit "10.06.1990")) :: records) acc =
       upcoming_loop (dt 2024 6 10) records
         (acc ++ [mkentry (lit "Ann") (strftime_dmY a)])).
Proof.
  assert (Hok : datetime_ok (dt 2024 6 10) = true) by reflexivity.
  assert (Hp : strptime_dmY (lit "10.06.1990") = inr (dt 1990 6 10))
    by (vm_compute; reflexivity).
  split; [exact Hok|]. split; [exact Hp|].
  exact (proj1 (birthday_on_the_day (dt 2024 6 10)
                  (record_of (lit "Ann") [] (Some (lit "10.06.1990")))
                  (lit "10.06.1990") (dt 1990 6 10)
                  Hok eq_refl Hp eq_refl eq_refl)).
Defined.

Lemma digit_char_ascii (k : Z) :
  0 <= k <= 9 ->
  is_ascii_digit (digit_char k) = true /\
  decimal_value (digit_char k) = Some k.
Proof.
  intros Hk.
  assert (Ha : is_ascii_digit (digit_char k) = true).
  { apply in_range_iff. unfold digit_char. lia. }
  split; [exact Ha|]. rewrite (decimal_value_ascii _ Ha).
  f_equal. unfold digit_char. lia.
Qed.

Lemma zpad_2 (n : Z) :
  zpad 2 n = [digit_char ((n / 10) mod 10); digit_char (n mod 10)].
Proof. reflexivity. Qed.

Lemma zpad_4 (n : Z) :
  zpad 4 n = [digit_char ((n / 10 / 10 / 10) mod 10);
              digit_char ((n / 10 / 10) mod 10);
              digit_char ((n / 10) mod 10); digit_char (n mod 10)].
Proof. reflexivity. Qed.

Lemma zpad_2_number (n : Z) :
  0 <= n <= 99 ->
  forallb is_ascii_digit (zpad 2 n) = true /\ number_of (zpad 2 n) = n.
Proof.
  intros Hn. rewrite zpad_2.
  destruct (digit_char_ascii ((n / 10) mod 10)) as [A1 V1];
    [Z.div_mod_to_equations; lia|].
  destruct (digit_char_ascii (n mod 10)) as [A2 V2];
    [Z.div_mod_to_equations; lia|].
  cbn [forallb]. rewrite A1, A2. split; [reflexivity|].
  unfold number_of. cbn [fold_left]. unfold digit_step. rewrite V1, V2.
  Z.div_mod_to_equations. lia.
Qed.

Lemma zpad_4_number (n : Z) :
  0 <= n <= 9999 ->
  forallb is_ascii_digit (zpad 4 n) = true /\ number_of (zpad 4 n) = n.
Proof.
  intros Hn. rewrite zpad_4.
  destruct (digit_char_ascii ((n / 10 / 10 / 10) mod 10)) as [A1 V1];
    [Z.div_mod_to_equations; lia|].
  destruct (digit_char_ascii ((n / 10 / 10) mod 10)) as [A2 V2];
    [Z.div_mod_to_equations; lia|].
  destruct (digit_char_ascii ((n / 10) mod 10)) as [A3 V3];
    [Z.div_mod_to_equations; lia|].
  destruct (digit_char_ascii (n mod 10)) as [A4 V4];
    [Z.div_mod_to_equations; lia|].
  cbn [forallb]. rewrite A1, A2, A3, A4. split; [reflexivity|].
  unfold number_of. cbn [fold_left]. unfold digit_step.
  rewrite V1, V2, V3, V4. Z.div_mod_to_equations. lia.
Qed.

(** The text [strftime] writes for a date at midnight is parsed back to
    that date. *)
Lemma strptime_strftime (a : datetime) :
  datetime_ok a = true -> at_midnight a ->
  strptime_dmY (strftime_dmY a) = inr a /\
  strict_valid (strftime_dmY a) = true.
Proof.
  intros Hok Hmid.
  pose proof (proj1 (datetime_ok_iff a) Hok) as (Hy & [Hm Hd] & _).
  pose proof (days_in_month_le_31 (year a) (month a)) as H31.
  destruct (zpad_2_number (day a) ltac:(lia)) as [Ad Nd].
  destruct (zpad_2_number (month a) ltac:(lia)) as [Am Nm].
  destruct (zpad_4_number (year a) ltac:(lia)) as [Ay Ny].
  assert (Hdate : date_ok (year a) (month a) (day a) = true)
    by (apply date_ok_iff; tauto).
  assert (Sd : day_shape (zpad 2 (day a)) = true).
  { rewrite zpad_2 in *. cbn [forallb] in Ad. apply andb_true_iff in Ad.
    destruct Ad as [A1 A2]. apply andb_true_iff in A2.
    apply (strict_day_shape _ _ (year a) (month a)); try tauto. rewrite Nd. lia. }
  assert (Sm : month_shape (zpad 2 (month a)) = true).
  { rewrite zpad_2 in *. cbn [forallb] in Am. apply andb_true_iff in Am.
    destruct Am as [A1 A2]. apply andb_true_iff in A2.
    apply strict_month_shape; try tauto. rewrite Nm. lia. }
  assert (Sy : year_shape (zpad 4 (year a)) = true).
  { rewrite zpad_4 in *. cbn [year_shape]. cbn [forallb] in Ay |- *.
    repeat (apply andb_true_iff in Ay; destruct Ay as [?A Ay]).
    rewrite !ascii_digit_isdecimal by assumption. reflexivity. }
  split.
  - unfold strftime_dmY.
    change (zpad 2 (day a) ++ lit "." ++ zpad 2 (month a) ++ lit "." ++
            zpad 4 (year a))
      with (zpad 2 (day a) ++ dot :: zpad 2 (month a) ++ dot :: zpad 4 (year a)).
    rewrite (strptime_parts _ _ _ Sd Sm Sy), Nd, Nm, Ny, Hdate.
    destruct a as [y m d h mi s us]. unfold at_midnight in Hmid. cbn in *.
    destruct Hmid as (-> & -> & -> & ->). reflexivity.
  - unfold strict_valid, strftime_dmY. rewrite !zpad_2, zpad_4 in *.
    cbn [app lit strict_dmY day_part month_part year_part firstn skipn].
    cbn [forallb] in Ad, Am, Ay |- *.
    repeat (apply andb_true_iff in Ad; destruct Ad as [?A Ad]).
    repeat (apply andb_true_iff in Am; destruct Am as [?A Am]).
    repeat (apply andb_true_iff in Ay; destruct Ay as [?A Ay]).
    repeat match goal with H : is_ascii_digit _ = true |- _ => rewrite H; clear H end.
    rewrite Nd, Nm, Ny, Hdate. reflexivity.
Qed.

(** X16: the date text of every entry [get_upcoming_birthdays] returns
    (asked in the year 1000 or later, where [strftime] writes four
    digits) is of the strict form DD.MM.YYYY with a valid date, is
    accepted by [Birthday], and is parsed by [strptime] back to the date
    the record was judged by. *)
Theorem upcoming_birthdays_text_parses (self : AddressBook) (now : datetime)
    (res : list entry) (en : entry) :
  datetime_ok now = true -> 1000 <= year now ->
  AddressBook_get_upcoming_birthdays self now = inr res ->
  In en res ->
  strict_valid (entry_birthday en) = true /\
  Birthday_init (Some (entry_birthday en)) =
    inr (mkField (Some (entry_birthday en))) /\
  exists r a,
    In r (PyDict.values (data self)) /\ entry_name en = value (name r) /\
    examine now r = Judged a /\
    strptime_dmY (entry_birthday en) = inr a.
Proof.
  intros Hnow _ H Hin.
  destruct (get_upcoming_birthdays_result self now res H) as [_ Hiff].
  apply Hiff in Hin. destruct Hin as (r & a & Hr & Hex & Hw & ->).
  destruct (judged_facts now r a Hnow Hex) as (Hok & Hmid & _ & _).
  destruct (strptime_strftime a Hok Hmid) as [Hp Hs].
  cbn [entry_birthday entry_name]. split; [exact Hs|]. split.
  - assert (Hne : strftime_dmY a <> []).
    { intros E. rewrite E in Hs. discriminate. }
    rewrite (Birthday_init_cases _ Hne), Hp. reflexivity.
  - exists r, a. auto.
Qed.

Lemma upcoming_birthdays_text_parses_example :
  datetime_ok (dt 2024 6 10) = true /\ 1000 <= year (dt 2024 6 10) /\
  AddressBook_get_upcoming_birthdays
    (book_of [record_of (lit "Ann") [] (Some (lit "15.6.1990"))])
    (dt 2024 6 10) = inr [mkentry (lit "Ann") (lit "17.06.2024")] /\
  strict_valid (lit "17.06.2024") = true /\
  Birthday_init (Some (lit "17.06.2024")) =
    inr (mkField (Some (lit "17.06.2024"))).
Proof.
  assert (Hok : datetime_ok (dt 2024 6 10) = true) by reflexivity.
  assert (Hy : 1000 <= year (dt 2024 6 10)) by (cbn; lia).
  assert (Hr : AddressBook_get_upcoming_birthdays
                 (book_of [record_of (lit "Ann") [] (Some (lit "15.6.1990"))])
                 (dt 2024 6 10) = inr [mkentry (lit "Ann") (lit "17.06.2024")])
    by (vm_compute; reflexivity).
  split; [exact Hok|]. split; [exact Hy|]. split; [exact Hr|].
  destruct (upcoming_birthdays_text_parses _ _ _
              (mkentry (lit "Ann") (lit "17.06.2024")) Hok Hy Hr
              (or_introl eq_refl)) as (H1 & H2 & _).
  split; [exact H1 | exact H2].
Defined.

(* ================================================================== *)
(** ** The console view and AddressBook.__str__ *)
(* ================================================================== *)

Lemma print_each_events (contacts : list RecordT) (w : world) :
  print_each contacts w =
  (inr tt, mkworld (w_book w) (w_events w ++ map Print (map Record_str contacts))).
Proof.
  revert w. induction contacts as [|c l IH]; intros w; cbn [print_each map].
  - unfold mret. rewrite app_nil_r. destruct w; reflexivity.
  - unfold mbind. cbn [emit]. rewrite IH. cbn [w_book w_events].
    rewrite <- app_assoc. reflexivity.
Qed.

(** X17: [ConsoleView.show_contacts] on the values of the book, as
    [main] calls it, prints lines that, joined by newlines, are the text
    [AddressBook.__str__] returns; it leaves the book as it is and never
    raises.  The one line "The address book is empty." is printed exactly
    when the book holds no record; otherwise there is one line per
    record, the text of [Record.__str__], in the order of the book. *)
Theorem show_contacts_prints_the_book (w : world) :
  exists lines,
    ConsoleView_show_contacts (PyDict.values (data (w_book w))) w =
    (inr tt, mkworld (w_book w) (w_events w ++ map Print lines)) /\
    join newline lines = AddressBook_str (w_book w) /\
    (lines = [lit "The address book is empty."] <-> data (w_book w) = []) /\
    (data (w_book w) <> [] ->
     lines = map Record_str (PyDict.values (data (w_book w)))).
Proof.
  unfold ConsoleView_show_contacts, AddressBook_str, PyDict.values.
  destruct (data (w_book w)) as [|[k r] d] eqn:Hd; cbn [map dict_bool negb].
  - exists [lit "The address book is empty."]. cbn [emit map join].
    repeat split; auto. intros H. contradiction.
  - exists (map Record_str (map snd ((k, r) :: d))).
    cbn [map snd]. rewrite (print_each_events (r :: map snd d) w).
    cbn [map]. repeat split; auto; discriminate.
Qed.

Lemma show_commands_events (items : list (str * str)) (w : world) :
  show_commands items w =
  (inr tt,
   mkworld (w_book w) (w_events w ++ map Print (map command_line items))).
Proof.
  revert w. induction items as [|[c d] l IH]; intros w; cbn [show_commands map].
  - unfold mret. rewrite app_nil_r. destruct w; reflexivity.
  - unfold mbind, ConsoleView_show_message. cbn [emit]. rewrite IH.
    cbn [w_book w_events]. rewrite <- app_assoc. reflexivity.
Qed.

(* ================================================================== *)
(** ** The command loop: what is saved *)
(* ================================================================== *)

Lemma saves_nothing_ret {A} (a : A) : saves_nothing (mret a : M world A).
Proof. intros w. exists []. cbn. rewrite app_nil_r. auto. Qed.

Lemma saves_nothing_raise {A} (e : exn) : saves_nothing (mraise e : M world A).
Proof. intros w. exists []. cbn. rewrite app_nil_r. auto. Qed.

Lemma saves_nothing_lift {A} (c : E A) : saves_nothing (mlift c : M world A).
Proof. intros w. exists []. cbn. rewrite app_nil_r. auto. Qed.

Lemma saves_nothing_get : saves_nothing (mget : M world world).
Proof. intros w. exists []. cbn. rewrite app_nil_r. auto. Qed.

Lemma saves_nothing_emit (e : event) :
  is_save e = false -> saves_nothing (emit e).
Proof. intros He w. exists [e]. cbn. rewrite He. auto. Qed.

Lemma saves_nothing_on_book {A} (c : M AddressBook A) :
  saves_nothing (on_book c).
Proof.
  intros w. exists []. unfold on_book. destruct (c (w_book w)). cbn.
  rewrite app_nil_r. auto.
Qed.

Lemma saves_nothing_on_record {A} (k : str) (r : RecordT) (c : M RecordT A) :
  saves_nothing (on_record k r c).
Proof.
  intros w. exists []. unfold on_record. destruct (c r). cbn.
  rewrite app_nil_r. auto.
Qed.

Lemma saves_nothing_bind {A B} (c : M world A) (k : A -> M world B) :
  saves_nothing c -> (forall a, saves_nothing (k a)) ->
  saves_nothing (mbind c k).
Proof.
  intros Hc Hk w. unfold mbind. destruct (Hc w) as (a1 & E1 & S1).
  destruct (c w) as [[e|a] w1]; cbn [snd] in *.
  - exists a1. auto.
  - destruct (Hk a w1) as (a2 & E2 & S2). exists (a1 ++ a2).
    rewrite E2, E1, app_assoc, existsb_app, S1, S2. auto.
Qed.

Lemma saves_nothing_print_each (contacts : list RecordT) :
  saves_nothing (print_each contacts).
Proof.
  induction contacts as [|c l IH]; cbn [print_each].
  - apply saves_nothing_ret.
  - apply saves_nothing_bind; [apply saves_nothing_emit; reflexivity|].
    intros _. exact IH.
Qed.

Lemma saves_nothing_show_commands (items : list (str * str)) :
  saves_nothing (show_commands items).
Proof.
  induction items as [|[c d] l IH]; cbn [show_commands].
  - apply saves_nothing_ret.
  - apply saves_nothing_bind; [apply saves_nothing_emit; reflexivity|].
    intros _. exact IH.
Qed.

Ltac quiet :=
  repeat first
    [ apply saves_nothing_bind; [|intros ?]
    | apply saves_nothing_ret
    | apply saves_nothing_raise
    | apply saves_nothing_lift
    | apply saves_nothing_get
    | apply saves_nothing_on_book
    | apply saves_nothing_on_record
    | apply saves_nothing_print_each
    | apply saves_nothing_show_commands
    | apply saves_nothing_emit; reflexivity ].

Lemma saves_nothing_main_add (n p : str) : saves_nothing (main_add n p).
Proof.
  unfold main_add, ConsoleView_get_input, ConsoleView_show_message.
  quiet.
  destruct a1 as [record|]; [cbn [Record_bool negb]|];
    unfold main_new_contact, ConsoleView_show_message; quiet.
Qed.

(** One turn: out of the loop after one save of the book as it is, or on
    with no save. *)
Lemma main_turn_saves (ui n p : str) (w : world) :
  exists added,
    w_events (snd (main_turn ui n p w)) = w_events w ++ added /\
    match fst (main_turn ui n p w) with
    | inr Break =>
        w_book (snd (main_turn ui n p w)) = w_book w /\
        added = [Prompt (lit "Enter a command: "); Save (w_book w);
                 Print (lit "Good bye!")]
    | _ => existsb is_save added = false
    end.
Proof.
  unfold main_turn.
  destruct (str_in ui [lit "close"; lit "exit"]) eqn:Hc.
  - eexists. cbn. rewrite <- !app_assoc. cbn [app]. split; [reflexivity|].
    split; reflexivity.
  - match goal with
    | |- context [mbind ?c ?k w] =>
        assert (Hq : saves_nothing (mbind c k))
    end.
    { unfold ConsoleView_show_message, ConsoleView_show_contacts.
      apply saves_nothing_bind; [apply saves_nothing_emit; reflexivity|].
      intros _.
      destruct (str_eqb ui (lit "hello")); [quiet|].
      destruct (str_eqb ui (lit "add"));
        [apply saves_nothing_bind; [apply saves_nothing_main_add | intros ?; quiet]|].
      destruct (str_eqb ui (lit "all")).
      { apply saves_nothing_bind; [quiet|]. intros self.
        apply saves_nothing_bind; [|intros ?; quiet].
        destruct (PyDict.values (data (w_book self))); quiet. }
      destruct (str_eqb ui (lit "commands")); quiet. }
    destruct (Hq w) as (added & Ha & Hs). exists added. split; [exact Ha|].
    match goal with
    | |- match fst ?x with _ => _ end => assert (Hnb : fst x <> inr Break)
    end.
    { unfold mbind, emit, ConsoleView_show_message, emit, mret.
      cbv beta iota.
      destruct (str_eqb ui (lit "hello")); [cbn; discriminate|].
      destruct (str_eqb ui (lit "add")).
      { destruct (main_add n p _) as [[e|[]] w1]; cbn; discriminate. }
      destruct (str_eqb ui (lit "all")).
      { unfold mget. cbv beta iota.
        destruct (ConsoleView_show_contacts _ _) as [[e|[]] w1]; cbn; discriminate. }
      destruct (str_eqb ui (lit "commands")).
      { destruct (show_commands _ _) as [[e|[]] w1]; cbn; discriminate. }
      cbn; discriminate. }
    match goal with
    | |- match fst ?x with _ => _ end => destruct (fst x) as [e|[|]]
    end; try exact Hs. contradiction.
Qed.

Lemma main_loop_saves (turns : list turn) (w : world) :
  exists added,
    w_events (snd (main_loop turns w)) = w_events w ++ added /\
    match fst (main_loop turns w) with
    | inr Break =>
        exists before,
          added = before ++ [Save (w_book (snd (main_loop turns w)));
                             Print (lit "Good bye!")] /\
          existsb is_save before = false
    | _ => existsb is_save added = false
    end.
Proof.
  revert w. induction turns as [|t turns IH]; intros w.
  - exists []. cbn. rewrite app_nil_r. auto.
  - cbn [main_loop]. unfold mbind.
    destruct (main_turn_saves (t_input t) (t_name t) (t_phone t) w)
      as (a1 & E1 & S1).
    destruct (main_turn (t_input t) (t_name t) (t_phone t) w)
      as [[e|[|]] w1]; cbn [fst snd] in *.
    + exists a1. auto.
    + destruct (IH w1) as (a2 & E2 & S2). exists (a1 ++ a2).
      rewrite E2, E1, app_assoc. split; [reflexivity|].
      destruct (fst (main_loop turns w1)) as [e|[|]].
      * rewrite existsb_app, S1, S2. reflexivity.
      * rewrite existsb_app, S1, S2. reflexivity.
      * destruct S2 as (before & -> & Sb). exists (a1 ++ before).
        rewrite app_assoc, existsb_app, S1, Sb. auto.
    + destruct S1 as [Eb ->]. eexists. split; [exact E1|].
      exists [Prompt (lit "Enter a command: ")]. cbn [mret snd].
      rewrite Eb. split; reflexivity.
Qed.

(** X18: a session of [main] begins with the welcome line.  The book is
    written to the file only when the loop is left by [close] or [exit]:
    then exactly once, as the last thing before the line "Good bye!", and
    what is written is the book as it is at the end.  A session that
    ends with an exception, or that is still at the prompt, has written
    nothing. *)
Theorem main_saves_only_on_exit (loaded : AddressBook) (turns : list turn) :
  exists added,
    w_events (snd (main loaded turns)) = Print welcome :: added /\
    match fst (main loaded turns) with
    | inr Break =>
        exists before,
          added = before ++ [Save (w_book (snd (main loaded turns)));
                             Print (lit "Good bye!")] /\
          existsb is_save before = false
    | _ => existsb is_save added = false
    end.
Proof.
  unfold main, ConsoleView_show_message. unfold mbind at 1. cbn [emit app w_book w_events].
  destruct (main_loop_saves turns (mkworld loaded [Print welcome]))
    as (added & E & H).
  exists added. split; [exact E | exact H].
Qed.

(* ================================================================== *)
(** ** The command loop: the commands *)
(* ================================================================== *)

Lemma str_in_iff (s : str) (l : list str) : str_in s l = true <-> In s l.
Proof.
  induction l as [|x l IH]; cbn [str_in In]; [split; [discriminate | tauto]|].
  rewrite orb_true_iff, str_eqb_eq, IH. split; intros [H | H]; auto.
Qed.

Lemma main_turn_unknown (user_input n p : str) (w : world) :
  ~ In user_input known_commands ->
  main_turn user_input n p w =
  (inr Continue,
   mkworld (w_book w)
     (w_events w ++ [Prompt (lit "Enter a command: ");
                     Print (lit "Invalid command.")])).
Proof.
  intros Hn. unfold known_commands in Hn. cbn [In] in Hn.
  unfold main_turn.
  assert (Hc : str_in user_input [lit "close"; lit "exit"] = false).
  { destruct (str_in user_input [lit "close"; lit "exit"]) eqn:E; [|reflexivity].
    apply str_in_iff in E. cbn [In] in E. exfalso. apply Hn.
    destruct E as [<- | [<- | []]]; auto. }
  assert (Hf : forall c, (c = user_input -> False) -> str_eqb user_input c = false).
  { intros c Hne. apply str_eqb_neq. congruence. }
  unfold mbind at 1. cbn [emit]. rewrite Hc.
  rewrite !Hf by (intros E; apply Hn; rewrite E; tauto).
  cbn. rewrite <- app_assoc. reflexivity.
Qed.

(** X19: a turn whose command is none of close, exit, hello, add, all
    and commands is answered by the line "Invalid command.", leaves the
    book as it is, and the loop goes on. *)
Theorem unknown_command_is_refused (user_input n p : str) (w : world) :
  ~ In user_input known_commands ->
  main_turn user_input n p w =
  (inr Continue,
   mkworld (w_book w)
     (w_events w ++ [Prompt (lit "Enter a command: ");
                     Print (lit "Invalid command.")])).
Proof. exact (main_turn_unknown user_input n p w). Qed.

Lemma unknown_command_is_refused_example :
  ~ In (lit "birthdays") known_commands /\
  main_turn (lit "birthdays") [] [] (mkworld (mkAddressBook []) []) =
  (inr Continue,
   mkworld (mkAddressBook [])
     [Prompt (lit "Enter a command: "); Print (lit "Invalid command.")]).
Proof.
  assert (H : ~ In (lit "birthdays") known_commands).
  { cbv. intros H.
    repeat (destruct H as [H | H]; [discriminate H|]); exact H. }
  split; [exact H|].
  exact (unknown_command_is_refused (lit "birthdays") [] []
           (mkworld (mkAddressBook []) []) H).
Defined.

(** X20: the command [commands] prints the line "Available commands:"
    and then one line "- command: description" for each of the ten
    entries of [commands_list], in their order.  Of the commands listed,
    only hello, add, all and commands are handled: change, phone,
    birthdays, add-birthday, show-birthday and close/exit (typed in this
    way) are each answered by "Invalid command.". *)
Theorem commands_lists_more_than_it_handles (n p : str) (w : world) :
  main_turn (lit "commands") n p w =
  (inr Continue,
   mkworld (w_book w)
     (w_events w ++
      Prompt (lit "Enter a command: ") :: Print (lit "Available commands:") ::
      map Print (map command_line commands_list))) /\
  (forall c,
     In c (map fst commands_list) ->
     In c [lit "hello"; lit "add"; lit "all"; lit "commands"] \/
     In c listed_not_handled) /\
  (forall c,
     In c listed_not_handled ->
     In c (map fst commands_list) /\
     main_turn c n p w =
     (inr Continue,
      mkworld (w_book w)
        (w_events w ++ [Prompt (lit "Enter a command: ");
                        Print (lit "Invalid command.")]))).
Proof.
  split; [|split].
  - unfold main_turn. unfold mbind at 1. cbn [emit].
    change (str_in (lit "commands") [lit "close"; lit "exit"]) with false.
    change (str_eqb (lit "commands") (lit "hello")) with false.
    change (str_eqb (lit "commands") (lit "add")) with false.
    change (str_eqb (lit "commands") (lit "all")) with false.
    change (str_eqb (lit "commands") (lit "commands")) with true. cbv iota.
    unfold mbind, ConsoleView_show_message. cbn [emit].
    rewrite show_commands_events. cbn [w_book w_events mret].
    rewrite <- !app_assoc. reflexivity.
  - intros c Hc. unfold commands_list in Hc. cbn [map fst In] in Hc.
    unfold listed_not_handled. cbn [In].
    repeat (destruct Hc as [<- | Hc]; [tauto|]). contradiction.
  - intros c Hc. split.
    + unfold listed_not_handled in Hc. cbn [In] in Hc.
      unfold commands_list. cbn [map fst In].
      repeat (destruct Hc as [<- | Hc]; [tauto|]). contradiction.
    + apply main_turn_unknown.
      unfold listed_not_handled in Hc. cbn [In] in Hc.
      repeat (destruct Hc as [<- | Hc];
              [cbv; intros H;
               repeat (destruct H as [H | H]; [discriminate H|]); exact H|]).
      contradiction.
Qed.

Lemma keeps_book_ret {A} (a : A) : keeps_book (mret a : M world A).
Proof. intros w. exists a. auto. Qed.

Lemma keeps_book_get : keeps_book (mget : M world world).
Proof. intros w. exists w. auto. Qed.

Lemma keeps_book_emit (e : event) : keeps_book (emit e).
Proof. intros w. exists tt. auto. Qed.

Lemma keeps_book_save : keeps_book save_data.
Proof. intros w. exists tt. auto. Qed.

Lemma keeps_book_bind {A B} (c : M world A) (k : A -> M world B) :
  keeps_book c -> (forall a, keeps_book (k a)) -> keeps_book (mbind c k).
Proof.
  intros Hc Hk w. unfold mbind. destruct (Hc w) as (a & E1 & B1).
  destruct (c w) as [[e|a'] w1]; cbn [fst snd] in *; [discriminate|].
  destruct (Hk a' w1) as (b & E2 & B2). exists b. rewrite B2, B1. auto.
Qed.

Lemma keeps_book_print_each (contacts : list RecordT) :
  keeps_book (print_each contacts).
Proof.
  induction contacts as [|c l IH]; cbn [print_each].
  - apply keeps_book_ret.
  - apply keeps_book_bind; [apply keeps_book_emit | intros _; exact IH].
Qed.

Lemma keeps_book_show_commands (items : list (str * str)) :
  keeps_book (show_commands items).
Proof.
  induction items as [|[c d] l IH]; cbn [show_commands].
  - apply keeps_book_ret.
  - apply keeps_book_bind; [apply keeps_book_emit | intros _; exact IH].
Qed.

Ltac kept :=
  repeat first
    [ apply keeps_book_bind; [|intros ?]
    | apply keeps_book_ret
    | apply keeps_book_get
    | apply keeps_book_save
    | apply keeps_book_print_each
    | apply keeps_book_show_commands
    | apply keeps_book_emit ].

Lemma main_turn_keeps_book (user_input n p : str) :
  user_input <> lit "add" -> keeps_book (main_turn user_input n p).
Proof.
  intros Hne.
  assert (Ha : str_eqb user_input (lit "add") = false)
    by (apply str_eqb_neq; exact Hne).
  unfold main_turn, ConsoleView_show_message, ConsoleView_show_contacts.
  rewrite Ha.
  apply keeps_book_bind; [apply keeps_book_emit|]. intros _.
  destruct (str_in user_input [lit "close"; lit "exit"]); [kept|].
  destruct (str_eqb user_input (lit "hello")); [kept|].
  destruct (str_eqb user_input (lit "all")).
  { apply keeps_book_bind; [kept|]. intros self.
    apply keeps_book_bind; [|intros ?; kept].
    destruct (PyDict.values (data (w_book self))); kept. }
  destruct (str_eqb user_input (lit "commands")); kept.
Qed.

(** X21: a turn with any command other than [add] never raises and
    leaves the book as it was. *)
Theorem only_add_changes_the_book (user_input n p : str) (w : world) :
  user_input <> lit "add" ->
  exists c,
    fst (main_turn user_input n p w) = inr c /\
    w_book (snd (main_turn user_input n p w)) = w_book w.
Proof. intros Hne. exact (main_turn_keeps_book user_input n p Hne w). Qed.

Lemma only_add_changes_the_book_example :
  lit "all" <> lit "add" /\
  exists c,
    fst (main_turn (lit "all") [] []
           (mkworld (book_of [record_of (lit "John") [] None]) [])) = inr c /\
    w_book (snd (main_turn (lit "all") [] []
                   (mkworld (book_of [record_of (lit "John") [] None]) []))) =
    book_of [record_of (lit "John") [] None].
Proof.
  assert (H : lit "all" <> lit "add") by (cbv; discriminate).
  split; [exact H|].
  exact (only_add_changes_the_book (lit "all") [] []
           (mkworld (book_of [record_of (lit "John") [] None]) []) H).
Defined.

(* ================================================================== *)
(** ** The command add *)
(* ================================================================== *)

Lemma set_same {V} (k : str) (v : V) (d : PyDict.dict V) :
  PyDict.get k d = Some v -> PyDict.set k v d = d.
Proof.
  induction d as [|[k0 v0] d IH]; cbn [PyDict.get PyDict.set]; [discriminate|].
  destruct (str_eqb k0 k) eqn:E.
  - intros H. inversion H; subst. reflexivity.
  - intros H. rewrite (IH H). reflexivity.
Qed.

Lemma set_last {V} (k : str) (v v' : V) (d : PyDict.dict V) :
  ~ In k (PyDict.keys d) ->
  PyDict.set k v' (d ++ [(k, v)]) = d ++ [(k, v')].
Proof.
  induction d as [|[k0 v0] d IH]; cbn [PyDict.set PyDict.keys map fst app].
  - intros _. rewrite str_eqb_refl. reflexivity.
  - intros Hn.
    assert (H0 : str_eqb k0 k = false)
      by (apply str_eqb_neq; intros E; apply Hn; left; exact E).
    rewrite H0, IH; [reflexivity|]. intros H. apply Hn. right. exact H.
Qed.

(** The branch [add], by what the book holds under the name. *)
Lemma main_add_cases (n p : str) (w : world) :
  main_add n p w =
  match PyDict.get n (data (w_book w)) with
  | Some record =>
      match Record_add_phone p record with
      | (inr _, record') =>
          (inr tt,
           mkworld (mkAddressBook (PyDict.set n record' (data (w_book w))))
             (w_events w ++ asked ++ [Print (lit "Phone added to the contact.")]))
      | (inl e, record') =>
          (inl e,
           mkworld (mkAddressBook (PyDict.set n record' (data (w_book w))))
             (w_events w ++ asked))
      end
  | None =>
      let data1 := PyDict.set n (new_record n) (data (w_book w)) in
      match Record_add_phone p (new_record n) with
      | (inr _, record') =>
          (inr tt,
           mkworld (mkAddressBook (PyDict.set n record' data1))
             (w_events w ++ asked ++
              [Print (lit "Contact added.");
               Print (lit "Phone added to the contact.")]))
      | (inl e, record') =>
          (inl e,
           mkworld (mkAddressBook (PyDict.set n record' data1))
             (w_events w ++ asked ++ [Print (lit "Contact added.")]))
      end
  end.
Proof.
  unfold main_add, ConsoleView_get_input, ConsoleView_show_message, asked.
  unfold mbind at 1. unfold mbind at 1. cbn [emit mret].
  unfold mbind at 1. unfold mbind at 1. cbn [emit mret].
  unfold mbind at 1. unfold on_book at 1, AddressBook_find, mbind at 1, mget, mret.
  cbn [w_book w_events fst snd].
  destruct (PyDict.get n (data (w_book w))) as [record|].
  - cbn [Record_bool negb]. unfold mbind at 1. cbn [mret].
    unfold mbind at 1. unfold on_record. cbn [w_book w_events].
    destruct (Record_add_phone p record) as [[e|[]] record'];
      unfold emit; cbn [w_book w_events app]; rewrite <- ?app_assoc; reflexivity.
  - unfold main_new_contact, ConsoleView_show_message, new_record.
    unfold Record_init, on_book, AddressBook_add_record, on_record.
    unfold mbind, mlift, mget, mput, mret, emit.
    cbn [bind Birthday_init ret].
    cbv beta iota zeta. cbn [w_book w_events data name value].
    destruct (Record_add_phone p _) as [[e|[]] record'];
      unfold emit; cbn [w_book w_events app]; rewrite <- ?app_assoc; reflexivity.
Qed.

Lemma w_book_eta (b : AddressBook) : mkAddressBook (data b) = b.
Proof. destruct b; reflexivity. Qed.

(** X22: the command [add] with a phone number [Phone] accepts.  For a
    name in the book, the phone is appended to the phones of the record
    under that name, which keeps its place, and the line "Phone added to
    the contact." is printed.  For a new name, a record with that name,
    this one phone and no birthday goes to the end of the book, and the
    lines "Contact added." and "Phone added to the contact." are
    printed. *)
Theorem main_add_valid_phone (n p : str) (w : world) :
  ten_unicode_digits p = true ->
  (forall record,
     PyDict.get n (data (w_book w)) = Some record ->
     main_add n p w =
     (inr tt,
      mkworld
        (mkAddressBook
           (PyDict.set n (set_phones (phones record ++ [mkField p]) record)
              (data (w_book w))))
        (w_events w ++ asked ++ [Print (lit "Phone added to the contact.")]))) /\
  (PyDict.get n (data (w_book w)) = None ->
   main_add n p w =
   (inr tt,
    mkworld
      (mkAddressBook
         (data (w_book w) ++
          [(n, mkRecord (mkField n) [mkField p] (mkField None))]))
      (w_events w ++ asked ++
       [Print (lit "Contact added.");
        Print (lit "Phone added to the contact.")]))).
Proof.
  intros Hp. rewrite main_add_cases. split.
  - intros record ->. rewrite Record_add_phone_cases, Hp. reflexivity.
  - intros Hg. rewrite Hg. cbv zeta. rewrite Record_add_phone_cases, Hp.
    apply get_None_iff in Hg.
    rewrite (set_absent n _ _ Hg), (set_last n _ _ _ Hg). reflexivity.
Qed.

Lemma main_add_valid_phone_example :
  ten_unicode_digits (lit "0123456789") = true /\
  main_add (lit "Ann") (lit "0123456789") (mkworld (mkAddressBook []) []) =
  (inr tt,
   mkworld (book_of [record_of (lit "Ann") [lit "0123456789"] None])
     (asked ++ [Print (lit "Contact added.");
                Print (lit "Phone added to the contact.")])).
Proof.
  assert (H : ten_unicode_digits (lit "0123456789") = true) by reflexivity.
  split; [exact H|].
  exact (proj2 (main_add_valid_phone (lit "Ann") (lit "0123456789")
                  (mkworld (mkAddressBook []) []) H) eq_refl).
Defined.

Lemma main_add_refused (n p : str) (w : world) :
  ten_unicode_digits p = false ->
  (forall record,
     PyDict.get n (data (w_book w)) = Some record ->
     main_add n p w =
     (inl (ValueError phone_msg),
      mkworld (w_book w) (w_events w ++ asked))) /\
  (PyDict.get n (data (w_book w)) = None ->
   main_add n p w =
   (inl (ValueError phone_msg),
    mkworld
      (mkAddressBook (data (w_book w) ++ [(n, new_record n)]))
      (w_events w ++ asked ++ [Print (lit "Contact added.")]))).
Proof.
  intros Hp. rewrite main_add_cases. split.
  - intros record Hg. rewrite Hg, Record_add_phone_cases, Hp.
    rewrite (set_same n record _ Hg), w_book_eta. reflexivity.
  - intros Hg. rewrite Hg. cbv zeta. rewrite Record_add_phone_cases, Hp.
    apply get_None_iff in Hg.
    rewrite (set_absent n _ _ Hg), (set_last n _ _ _ Hg). reflexivity.
Qed.

Lemma main_turn_add (n p : str) (w : world) :
  main_turn (lit "add") n p w =
  (let (r, w') :=
     main_add n p
       (mkworld (w_book w) (w_events w ++ [Prompt (lit "Enter a command: ")])) in
   match r with
   | inl e => (inl e, w')
   | inr _ => (inr Continue, w')
   end).
Proof.
  unfold main_turn. unfold mbind at 1. cbn [emit].
  change (str_in (lit "add") [lit "close"; lit "exit"]) with false.
  change (str_eqb (lit "add") (lit "hello")) with false.
  change (str_eqb (lit "add") (lit "add")) with true. cbv iota.
  unfold mbind. reflexivity.
Qed.

(** X23: the command [add] with a phone number [Phone] refuses ends the
    loop with the [ValueError] of [Phone], whatever turns were to follow,
    and nothing is saved.  For a name in the book, the book is as it was.
    For a new name, the line "Contact added." has been printed and a
    record with that name and no phone has gone into the book held in
    memory. *)
Theorem invalid_phone_stops_the_loop (t : turn) (rest : list turn) (w : world) :
  t_input t = lit "add" -> ten_unicode_digits (t_phone t) = false ->
  (forall record,
     PyDict.get (t_name t) (data (w_book w)) = Some record ->
     main_loop (t :: rest) w =
     (inl (ValueError phone_msg),
      mkworld (w_book w)
        (w_events w ++ Prompt (lit "Enter a command: ") :: asked))) /\
  (PyDict.get (t_name t) (data (w_book w)) = None ->
   main_loop (t :: rest) w =
   (inl (ValueError phone_msg),
    mkworld
      (mkAddressBook (data (w_book w) ++ [(t_name t, new_record (t_name t))]))
      (w_events w ++ Prompt (lit "Enter a command: ") :: asked ++
       [Print (lit "Contact added.")]))).
Proof.
  intros Hadd Hbad.
  cbn [main_loop]. rewrite Hadd. unfold mbind. rewrite main_turn_add.
  destruct (main_add_refused (t_name t) (t_phone t)
              (mkworld (w_book w)
                 (w_events w ++ [Prompt (lit "Enter a command: ")])) Hbad)
    as [Hsome Hnone].
  cbn [w_book w_events] in *.
  split.
  - intros record Hg. rewrite (Hsome record Hg).
    rewrite <- app_assoc. reflexivity.
  - intros Hg. rewrite (Hnone Hg). rewrite <- app_assoc. reflexivity.
Qed.

Lemma invalid_phone_stops_the_loop_example :
  ten_unicode_digits (lit "123") = false /\
  main_loop [mkturn (lit "add") (lit "Ann") (lit "123");
             mkturn (lit "close") [] []]
    (mkworld (mkAddressBook []) []) =
  (inl (ValueError phone_msg),
   mkworld (book_of [record_of (lit "Ann") [] None])
     (Prompt (lit "Enter a command: ") :: asked ++
      [Print (lit "Contact added.")])).
Proof.
  assert (H : ten_unicode_digits (lit "123") = false) by reflexivity.
  split; [exact H|].
  exact (proj2 (invalid_phone_stops_the_loop
                  (mkturn (lit "add") (lit "Ann") (lit "123"))
                  [mkturn (lit "close") [] []]
                  (mkworld (mkAddressBook []) []) eq_refl H) eq_refl).
Defined.

Lemma add_phone_keeps_name (p : str) (r : RecordT) :
  name (snd (Record_add_phone p r)) = name r.
Proof.
  rewrite Record_add_phone_cases. destruct (ten_unicode_digits p); reflexivity.
Qed.

Lemma book_inv_set_key (b : AddressBook) (k : str) (r : RecordT) :
  book_inv b -> value (name r) = k ->
  book_inv (mkAddressBook (PyDict.set k r (data b))).
Proof. intros Hb <-. apply book_inv_set. exact Hb. Qed.

Lemma main_add_keeps_inv (n p : str) (w : world) :
  book_inv (w_book w) -> book_inv (w_book (snd (main_add n p w))).
Proof.
  intros Hinv. rewrite main_add_cases.
  destruct (PyDict.get n (data (w_book w))) as [record|] eqn:Hg.
  - assert (Hn : value (name record) = n).
    { apply get_In in Hg. destruct Hinv as [_ Hf].
      rewrite Forall_forall in Hf. specialize (Hf _ Hg). cbn in Hf. congruence. }
    pose proof (add_phone_keeps_name p record) as Hk.
    destruct (Record_add_phone p record) as [[e|[]] record']; cbn [snd w_book] in *;
      apply book_inv_set_key; try assumption; rewrite Hk; exact Hn.
  - cbv zeta.
    pose proof (add_phone_keeps_name p (new_record n)) as Hk.
    assert (H1 : book_inv (mkAddressBook (PyDict.set n (new_record n) (data (w_book w)))))
      by (apply book_inv_set_key; [exact Hinv | reflexivity]).
    destruct (Record_add_phone p (new_record n)) as [[e|[]] record'];
      cbn [snd w_book] in *;
      apply (book_inv_set_key (mkAddressBook _)); try exact H1; rewrite Hk; reflexivity.
Qed.

Lemma main_turn_keeps_inv (ui n p : str) (w : world) :
  book_inv (w_book w) -> book_inv (w_book (snd (main_turn ui n p w))).
Proof.
  intros Hinv.
  destruct (list_eq_dec N.eq_dec ui (lit "add")) as [-> | Hne].
  - unfold main_turn. unfold mbind at 1. cbn [emit].
    change (str_in (lit "add") [lit "close"; lit "exit"]) with false.
    change (str_eqb (lit "add") (lit "hello")) with false.
    change (str_eqb (lit "add") (lit "add")) with true. cbv iota.
    unfold mbind.
    pose proof (main_add_keeps_inv n p
                  (mkworld (w_book w)
                     (w_events w ++ [Prompt (lit "Enter a command: ")])) Hinv) as H.
    destruct (main_add n p _) as [[e|[]] w1]; cbn [snd mret] in *; exact H.
  - destruct (main_turn_keeps_book ui n p Hne w) as (c & _ & ->). exact Hinv.
Qed.

(** X24: throughout a session of the loop, started on a book whose keys
    are pairwise distinct and where every record is stored under its own
    name, the book stays of that kind, however the session ends; so what
    [find] returns at the end has the name asked for. *)
Theorem main_keeps_book_inv (turns : list turn) (w : world) :
  book_inv (w_book w) ->
  book_inv (w_book (snd (main_loop turns w))) /\
  (forall n record,
     PyDict.get n (data (w_book (snd (main_loop turns w)))) = Some record ->
     value (name record) = n).
Proof.
  intros Hinv.
  assert (H : book_inv (w_book (snd (main_loop turns w)))).
  { revert w Hinv. induction turns as [|t turns IH]; intros w Hinv; [exact Hinv|].
    cbn [main_loop]. unfold mbind.
    pose proof (main_turn_keeps_inv (t_input t) (t_name t) (t_phone t) w Hinv) as H1.
    destruct (main_turn (t_input t) (t_name t) (t_phone t) w) as [[e|[|]] w1];
      cbn [snd mret] in *; [exact H1 | apply IH; exact H1 | exact H1]. }
  split; [exact H|]. intros n record Hg. apply get_In in Hg.
  destruct H as [_ Hf]. rewrite Forall_forall in Hf.
  specialize (Hf _ Hg). cbn in Hf. congruence.
Qed.

Lemma main_keeps_book_inv_example :
  book_inv (mkAddressBook []) /\
  book_inv
    (w_book (snd (main_loop
                    [mkturn (lit "add") (lit "Ann") (lit "0123456789");
                     mkturn (lit "add") (lit "Ann") (lit "9876543210");
                     mkturn (lit "close") [] []]
                    (mkworld (mkAddressBook []) [])))).
Proof.
  assert (H : book_inv (mkAddressBook [])) by (split; constructor).
  split; [exact H|].
  exact (proj1 (main_keeps_book_inv
                  [mkturn (lit "add") (lit "Ann") (lit "0123456789");
                   mkturn (lit "add") (lit "Ann") (lit "9876543210");
                   mkturn (lit "close") [] []]
                  (mkworld (mkAddressBook []) []) H)).
Defined.
